(** * ring-leitmotif: the dataset index (src/dataset.py) and the CQT
    converter (src/data/convert.py)

    Conventions of the embedding.
    - Python floats that carry seconds are exact rationals ([Q]); the integer
      frame indices are [Z].  Every concrete input used below is a dyadic
      rational on which float64 arithmetic is exact.  A time is a finite
      number: NaN and the infinities, on which [round] raises, are not times
      of the embedding, and a float64 product differs from the exact one by
      one part in 2^53 at most, which can move a frame at a tie.
    - A 2-D tensor is the list of its rows; the label values 0.0 and 1.0 of
      the ground-truth tensor are the integers 0 and 1.
    - The two dicts [self.cqt] and [self.instances_gt] are [gmap string _].
    - Exceptions are values of [py_error]; the [while] loop takes fuel.
    - The module-level random generator is a function from the number of the
      call to the two numbers drawn by that call. *)

From Stdlib Require Import ZArith QArith Qround Qminmax Qabs Lqa Lia List Sorted String Ascii Bool.
From stdpp Require Import gmap strings list fin_maps.

Open Scope Z_scope.

(** ** Python primitives *)

Inductive py_error : Type :=
| IndexError
| KeyError
| FileNotFoundError
| RuntimeError.

Inductive result (A : Type) : Type :=
| Ok (a : A)
| Err (e : py_error).

Arguments Ok {A} a.
Arguments Err {A} e.

#[global] Instance result_ret : MRet result := fun A a => Ok a.

#[global] Instance result_bind : MBind result := fun A B k r =>
  match r with
  | Ok a => k a
  | Err e => Err e
  end.

Definition from_option {A : Type} (e : py_error) (o : option A) : result A :=
  match o with
  | Some a => Ok a
  | None => Err e
  end.

(** [round(x)] on a float: to the nearest integer, a tie to the even one. *)
Definition py_round (q : Q) : Z :=
  let f := Qfloor q in
  match ((q - inject_Z f) ?= (1 # 2))%Q with
  | Lt => f
  | Gt => f + 1
  | Eq => if Z.even f then f else f + 1
  end.

(** [int(round(sec * 22050 / 512))], lines 37, 38, 50 and 68. *)
Definition sec_to_frame (sec : Q) : Z := py_round (sec * 22050 / 512).

(** [frame * 512 // 22050], lines 28, 92, 106 and 117. *)
Definition frame_to_sec (frame : Z) : Z := frame * 512 / 22050.

(** Normalisation of one bound of a slice [a:b] over a dimension of size [n]. *)
Definition slice_index (n i : Z) : Z :=
  if i <? 0 then Z.max 0 (i + n) else Z.min i n.

(** [t[start:stop]] on a list or on the first dimension of a tensor. *)
Definition py_slice {A : Type} (start stop : Z) (l : list A) : list A :=
  let n := Z.of_nat (length l) in
  let lo := slice_index n start in
  let hi := slice_index n stop in
  take (Z.to_nat (hi - lo)) (drop (Z.to_nat lo) l).

(** [l[idx]] on a list: a negative index counts from the end. *)
Definition py_index {A : Type} (l : list A) (idx : Z) : result A :=
  let n := Z.of_nat (length l) in
  if idx <? 0
  then (if idx + n <? 0 then Err IndexError
        else from_option IndexError (l !! Z.to_nat (idx + n)))
  else from_option IndexError (l !! Z.to_nat idx).

(** [d[key]] on a dict. *)
Definition py_getitem {A : Type} (d : gmap string A) (key : string) : result A :=
  from_option KeyError (d !! key).

(** [s.split("_")]. *)
Fixpoint split_on (c : ascii) (s : string) : list string :=
  match s with
  | EmptyString => [EmptyString]
  | String x rest =>
      let r := split_on c rest in
      if Ascii.eqb x c then EmptyString :: r
      else match r with
           | h :: t => String x h :: t
           | [] => [String x EmptyString]
           end
  end.

(** [torch.zeros((rows, cols))]; a negative dimension is refused. *)
Definition zeros (rows cols : Z) : result (list (list Z)) :=
  if (rows <? 0) || (cols <? 0) then Err RuntimeError
  else Ok (replicate (Z.to_nat rows) (replicate (Z.to_nat cols) 0)).

(** [sorted(l, key=key)] and [l.sort(key=key)]: stable, by insertion from
    the left, an element going after the ones whose key is not larger. *)
Fixpoint insert_by {A : Type} (key : A -> Q) (x : A) (l : list A) : list A :=
  match l with
  | [] => [x]
  | y :: l' => if Qle_bool (key y) (key x) then y :: insert_by key x l'
               else x :: l
  end.

Definition sort_by {A : Type} (key : A -> Q) (l : list A) : list A :=
  fold_left (fun acc x => insert_by key x acc) l [].

(** ** data_utils (imported at line 7 of src/dataset.py) *)

(** A row of the annotation table: (motif, start_sec, end_sec). *)
Definition instance : Type := string * Q * Q.

(** An entry of [occupied]: the label is [None] for a sampled window. *)
Definition occupied_entry : Type := option string * Q * Q.

Definition entry_start (o : occupied_entry) : Q := snd (fst o).
Definition entry_end (o : occupied_entry) : Q := snd o.

Definition of_instance (i : instance) : occupied_entry :=
  (Some (fst (fst i)), snd (fst i), snd i).

(** The two numbers one call of the sampler draws: which region, and how far
    into its feasible range (a fraction, clamped to [0, 1]). *)
Record draw : Type := Draw { pick : nat; frac : Q }.

(** The region from [a] to [b] when it is not empty. *)
Definition gap (a b : Q) : list (Q * Q) :=
  if Qlt_le_dec a b then [(a, b)] else [].

(** The merge-and-complement pass over entries sorted by start: [cur] is the
    end of what is covered so far, and a gap before the next start, cut at
    [total], is a free region. *)
Fixpoint sweep (total cur : Q) (l : list occupied_entry) : list (Q * Q) :=
  match l with
  | [] => gap cur total
  | o :: rest =>
      gap cur (Qmin (entry_start o) total)
        ++ sweep total (Qmax cur (entry_end o)) rest
  end.

(** Modelled from the spec: [generate_non_overlapping_intervals] of
    data_utils, whose source is absent.  Section 4.1, free_regions: the
    maximal disjoint regions of [0, total] not covered by any occupied
    interval, sorted by start; the occupied intervals are sorted and merged
    before the complement is taken. *)
Definition generate_non_overlapping_intervals
    (occupied : list occupied_entry) (total : Q) : list (Q * Q) :=
  sweep total 0 (sort_by entry_start occupied).

Definition fits (d : Q) (r : Q * Q) : bool := Qle_bool d (snd r - fst r).

Definition clamp01 (u : Q) : Q := Qmax 0 (Qmin u 1).

(** Modelled from the spec: [sample_non_overlapping_interval] of data_utils,
    whose source is absent.  Section 4.1, sample_free_interval: one of the
    free regions at least [d] long, then a start in the feasible part of it
    so that the window fits inside; [None] when no region is long enough. *)
Definition sample_non_overlapping_interval
    (regions : list (Q * Q)) (d : Q) (dr : draw) : option (Q * Q) :=
  match filter (fun r => fits d r = true) regions with
  | [] => None
  | r0 :: rs =>
      let feasible := r0 :: rs in
      let r := nth (pick dr mod length feasible)%nat feasible r0 in
      let start := (fst r + clamp01 (frac dr) * (snd r - d - fst r))%Q in
      Some (start, (start + d)%Q)
  end.

(** Modelled from the spec: [sample_instance_intervals] of data_utils, whose
    source is absent.  Section 4.2, positive sampling: one window per
    instance; a short instance sits at the window start, the window clamped
    to the recording; a long one has the window at its start, not beyond its
    end minus the window duration.  Only the motif and the start are read
    by the caller. *)
Definition sample_instance_intervals
    (instances : list instance) (d : Q) (total : Q) : list (string * Q) :=
  map (fun i : instance =>
         let '(motif, s, e) := i in
         if Qlt_le_dec (e - s) d
         then (motif, Qmax 0 (Qmin s (total - d)))
         else (motif, Qmin s (e - d)))
      instances.

(** The free space left: the total length of the free regions. *)
Definition free_space (regions : list (Q * Q)) : Q :=
  fold_right (fun r acc => (snd r - fst r) + acc)%Q 0%Q regions.

(** ** LeitmotifDataset (src/dataset.py) *)

(** (version, act, motif, start_frame, end_frame) *)
Definition sample : Type := string * string * string * Z * Z.

(** (version, act, start_frame, end_frame) *)
Definition none_sample : Type := string * string * Z * Z.

Record LeitmotifDataset : Type := mkDataset {
  cqt : gmap string (list (list Q));
  instances_gt : gmap string (list (list Z));
  samples : list sample;
  none_samples : list none_sample;
  duration_sec : Q
}.

(** [total_duration = shape[0] * 512 // 22050], line 28. *)
Definition total_duration (n_frames : Z) : Z := frame_to_sec n_frames.

(** [t[lo:hi, col] = v] once the bounds are normalised: [i] is the index of
    the first row of [rows]. *)
Fixpoint assign_rows (i lo hi : Z) (col : nat) (v : Z) (rows : list (list Z))
  : list (list Z) :=
  match rows with
  | [] => []
  | r :: rs =>
      (if (lo <=? i) && (i <? hi) then <[col := v]> r else r)
        :: assign_rows (i + 1) lo hi col v rs
  end.

(** [gt[start_idx:end_idx, motif_idx] = 1], line 40, on a tensor with 21
    columns. *)
Definition mark (gt : list (list Z)) (start_idx end_idx : Z) (motif_idx : nat)
  : result (list (list Z)) :=
  if (motif_idx <? 21)%nat
  then
    let n := Z.of_nat (length gt) in
    Ok (assign_rows 0 (slice_index n start_idx) (slice_index n end_idx)
          motif_idx 1 gt)
  else Err IndexError.

(** The loop of lines 33 to 40; [motif2idx] is the table of data_utils. *)
Fixpoint mark_instances (motif2idx : gmap string nat) (gt : list (list Z))
    (instances : list instance) : result (list (list Z)) :=
  match instances with
  | [] => Ok gt
  | (motif, start, stop) :: rest =>
      let start_idx := sec_to_frame start in
      let end_idx := sec_to_frame stop in
      motif_idx ← py_getitem motif2idx motif;
      gt' ← mark gt start_idx end_idx motif_idx;
      mark_instances motif2idx gt' rest
  end.

(** [t.max()] over one row. *)
Definition row_max (r : list Z) : Z :=
  match r with
  | [] => 0
  | x :: xs => fold_left Z.max xs x
  end.

(** One row of [gt[:, -1] = 1 - gt[:, :-1].max(dim=1).values], line 43. *)
Definition set_none (r : list Z) : list Z :=
  <[pred (length r) := 1 - row_max (py_slice 0 (-1) r)]> r.

(** Lines 31 to 43: the ground-truth tensor of a recording of [n_frames]
    frames. *)
Definition ground_truth (motif2idx : gmap string nat) (n_frames : nat)
    (instances : list instance) : result (list (list Z)) :=
  gt0 ← zeros (Z.of_nat n_frames) 21;
  gt ← mark_instances motif2idx gt0 instances;
  Ok (map set_none gt).

(** Line 50. *)
Definition positive_samples (version act : string) (duration_samples : Z)
    (samples_act : list (string * Q)) : list sample :=
  map (fun x => (version, act, fst x, sec_to_frame (snd x),
                 sec_to_frame (snd x) + duration_samples))
      samples_act.

(** The loop of lines 57 to 65; [k] numbers the call of the sampler.
    [None] when the fuel runs out before the loop ends. *)
Fixpoint none_loop (rng : nat -> draw) (d total : Q) (fuel k : nat)
    (occupied : list occupied_entry) (none_intervals : list (Q * Q))
    (none_samples_act : list (Q * Q)) : option (list (Q * Q)) :=
  match fuel with
  | O => None
  | S fuel' =>
      match sample_non_overlapping_interval none_intervals d (rng k) with
      | None => Some none_samples_act
      | Some samp =>
          let occupied' := occupied ++ [(None, fst samp, snd samp)] in
          none_loop rng d total fuel' (S k) occupied'
            (generate_non_overlapping_intervals occupied' total)
            (none_samples_act ++ [samp])
      end
  end.

(** Lines 54 to 66: the sampled windows, in seconds, sorted by start. *)
Definition none_windows (rng : nat -> draw) (d total : Q) (fuel k : nat)
    (instances : list instance) : option (list (Q * Q)) :=
  let occupied := map of_instance instances in
  let none_intervals := generate_non_overlapping_intervals occupied total in
  match none_loop rng d total fuel k occupied none_intervals [] with
  | None => None
  | Some acc => Some (sort_by fst acc)
  end.

(** Line 68. *)
Definition negative_samples (version act : string) (duration_samples : Z)
    (none_samples_act : list (Q * Q)) : list none_sample :=
  map (fun x => (version, act, sec_to_frame (fst x),
                 sec_to_frame (fst x) + duration_samples))
      none_samples_act.

(** What [__init__] reads: the pickled matrices in the sorted order of
    their file names, each already transposed to (time, n_bins) as line 27
    does, and the annotation tables by (version, act). *)
Definition pkl_file : Type := string * list (list Q).

Definition empty_dataset (duration_sec : Q) : LeitmotifDataset :=
  mkDataset ∅ ∅ [] [] duration_sec.

(** Lines 32 to 47: what is read for the recording [stem]. *)
Definition load_recording (motif2idx : gmap string nat)
    (annotations : gmap (string * string) (list instance))
    (stem : string) (n_frames : nat)
  : result (string * string * list instance * list (list Z)) :=
  let parts := split_on "_" stem in
  version ← py_index parts 0;
  act ← py_index parts 1;
  instances ← from_option FileNotFoundError (annotations !! (version, act));
  gt ← ground_truth motif2idx n_frames instances;
  Ok (version, act, instances, gt).

(** One iteration of the loop of line 24.  The state is the dataset so far
    and the number of sampler calls made; [None] when the fuel does not
    suffice for the loop of line 58. *)
Definition add_recording (motif2idx : gmap string nat)
    (annotations : gmap (string * string) (list instance))
    (rng : nat -> draw) (fuel : nat) (duration_samples : Z)
    (st : LeitmotifDataset * nat) (fn : pkl_file)
  : option (result (LeitmotifDataset * nat)) :=
  let '(ds, k) := st in
  let '(stem, c) := fn in
  let total := inject_Z (total_duration (Z.of_nat (length c))) in
  match load_recording motif2idx annotations stem (length c) with
  | Err e => Some (Err e)
  | Ok (version, act, instances, gt) =>
      let samples_act :=
        sample_instance_intervals instances (duration_sec ds) total in
      match none_windows rng (duration_sec ds) total fuel k instances with
      | None => None
      | Some ws =>
          Some (Ok (mkDataset
                      (<[stem := c]> (cqt ds))
                      (<[stem := gt]> (instances_gt ds))
                      (samples ds ++
                         positive_samples version act duration_samples samples_act)
                      (none_samples ds ++
                         negative_samples version act duration_samples ws)
                      (duration_sec ds),
                    (k + length ws + 1)%nat))
      end
  end.

Fixpoint init_loop (motif2idx : gmap string nat)
    (annotations : gmap (string * string) (list instance))
    (rng : nat -> draw) (fuel : nat) (duration_samples : Z)
    (st : LeitmotifDataset * nat) (pkl_fns : list pkl_file)
  : option (result (LeitmotifDataset * nat)) :=
  match pkl_fns with
  | [] => Some (Ok st)
  | fn :: rest =>
      match add_recording motif2idx annotations rng fuel duration_samples st fn with
      | None => None
      | Some (Err e) => Some (Err e)
      | Some (Ok st') =>
          init_loop motif2idx annotations rng fuel duration_samples st' rest
      end
  end.

(** [LeitmotifDataset.__init__]. *)
Definition init (motif2idx : gmap string nat)
    (annotations : gmap (string * string) (list instance))
    (rng : nat -> draw) (fuel : nat)
    (pkl_fns : list pkl_file) (duration_sec : Q) (duration_samples : Z)
  : option (result LeitmotifDataset) :=
  match init_loop motif2idx annotations rng fuel duration_samples
          (empty_dataset duration_sec, O) pkl_fns with
  | None => None
  | Some (Err e) => Some (Err e)
  | Some (Ok st) => Some (Ok (fst st))
  end.

(** [f"{version}_{act}"] *)
Definition recording_key (version act : string) : string :=
  (version ++ "_" ++ act)%string.

(** [LeitmotifDataset.__len__]. *)
Definition len (ds : LeitmotifDataset) : Z :=
  Z.of_nat (length (samples ds)) + Z.of_nat (length (none_samples ds)).

(** [LeitmotifDataset.__getitem__]. *)
Definition getitem (ds : LeitmotifDataset) (idx : Z)
  : result (list (list Q) * list (list Z)) :=
  if idx <? Z.of_nat (length (samples ds))
  then
    x ← py_index (samples ds) idx;
    let '(version, act, _, start, stop) := x in
    let fn := recording_key version act in
    c ← py_getitem (cqt ds) fn;
    g ← py_getitem (instances_gt ds) fn;
    Ok (py_slice start stop c, py_slice start stop g)
  else
    let idx := idx - Z.of_nat (length (samples ds)) in
    x ← py_index (none_samples ds) idx;
    let '(version, act, start, stop) := x in
    let fn := recording_key version act in
    c ← py_getitem (cqt ds) fn;
    z ← zeros (stop - start) 21;
    Ok (py_slice start stop c, z).

(** [enumerate(l)], the indices counted from [i]. *)
Fixpoint enumerate_from {A : Type} (i : Z) (l : list A) : list (Z * A) :=
  match l with
  | [] => []
  | x :: l' => (i, x) :: enumerate_from (i + 1) l'
  end.

Definition enumerate {A : Type} (l : list A) : list (Z * A) := enumerate_from 0 l.

(** [list(range(n))] *)
Definition py_range (n : Z) : list Z := map Z.of_nat (seq 0 (Z.to_nat n)).

(** [x in container] for a container of strings. *)
Definition py_in (x : string) (container : list string) : bool :=
  bool_decide (x ∈ container).

Definition sample_version (x : sample) : string := fst (fst (fst (fst x))).
Definition sample_act (x : sample) : string := snd (fst (fst (fst x))).
Definition sample_motif (x : sample) : string := snd (fst (fst x)).
Definition sample_start (x : sample) : Z := snd (fst x).
Definition sample_end (x : sample) : Z := snd x.

Definition none_version (x : none_sample) : string := fst (fst (fst x)).
Definition none_act (x : none_sample) : string := snd (fst (fst x)).
Definition none_start (x : none_sample) : Z := snd (fst x).
Definition none_end (x : none_sample) : Z := snd x.

(** [[idx + shift for (idx, x) in enumerate(l) if keep(x)]] *)
Definition indices_where {A : Type} (keep : A -> bool) (shift : Z) (l : list A)
  : list Z :=
  map (fun p => fst p + shift) (List.filter (fun p => keep (snd p)) (enumerate l)).

(** [LeitmotifDataset.get_subset_idxs]. *)
Definition get_subset_idxs (ds : LeitmotifDataset)
    (versions acts : option (list string)) : list Z :=
  let n := Z.of_nat (length (samples ds)) in
  match versions, acts with
  | None, None => py_range (n + Z.of_nat (length (none_samples ds)))
  | None, Some acts =>
      let samples' :=
        indices_where (fun x => py_in (sample_act x) acts) 0 (samples ds) in
      let none_samples' :=
        indices_where (fun x => py_in (none_act x) acts) n (none_samples ds) in
      samples' ++ none_samples'
  | Some versions, None =>
      let samples' :=
        indices_where (fun x => py_in (sample_version x) versions) 0 (samples ds) in
      let none_samples' :=
        indices_where (fun x => py_in (none_version x) versions) n (none_samples ds) in
      samples' ++ none_samples'
  | Some versions, Some acts =>
      let samples' :=
        indices_where
          (fun x => py_in (sample_version x) versions && py_in (sample_act x) acts)
          0 (samples ds) in
      let none_samples' :=
        indices_where
          (fun x => py_in (none_version x) versions && py_in (none_act x) acts)
          n (none_samples ds) in
      samples' ++ none_samples'
  end.

(** [LeitmotifDataset.query_motif]: (idx, version, act, start_sec, end_sec). *)
Definition query_motif (ds : LeitmotifDataset) (motif : string)
  : option (list (Z * string * string * Z * Z)) :=
  let motif_samples :=
    map (fun p : Z * sample =>
           (fst p, sample_version (snd p), sample_act (snd p),
            frame_to_sec (sample_start (snd p)), frame_to_sec (sample_end (snd p))))
        (List.filter (fun p : Z * sample => String.eqb (sample_motif (snd p)) motif)
           (enumerate (samples ds))) in
  if (0 <? length motif_samples)%nat then Some motif_samples else None.

(** The reading of [get_subset_idxs] in the specification: the global
    indices, in increasing order, whose recording passes the filters. *)
Definition recording_at (ds : LeitmotifDataset) (i : Z) : option (string * string) :=
  let n := Z.of_nat (length (samples ds)) in
  if i <? n
  then (fun x => (sample_version x, sample_act x)) <$> samples ds !! Z.to_nat i
  else (fun x => (none_version x, none_act x)) <$> none_samples ds !! Z.to_nat (i - n).

Definition passes (versions acts : option (list string)) (va : string * string) : bool :=
  match versions with None => true | Some vs => py_in (fst va) vs end
  && match acts with None => true | Some acs => py_in (snd va) acs end.

Definition subset_indices (ds : LeitmotifDataset)
    (versions acts : option (list string)) : list Z :=
  List.filter
    (fun i => match recording_at ds i with
              | Some va => passes versions acts va
              | None => false
              end)
    (py_range (len ds)).

(** ** The converter (src/data/convert.py) *)

(** The values of frame [t] over the bins of a (n_bins, n_frames) matrix. *)
Fixpoint column (t : nat) (m : list (list Q)) : list Q :=
  match m with
  | [] => []
  | bin :: m' =>
      match bin !! t with
      | Some x => x :: column t m'
      | None => column t m'
      end
  end.

(** [np.max(np.abs(v))], 0 standing for the empty maximum. *)
Definition peak (v : list Q) : Q := fold_right (fun x acc => Qmax (Qabs x) acc) 0%Q v.

(** [librosa.util.normalize(S, axis=0, norm=np.inf)] as librosa documents
    it: the norm is taken along axis 0, that is over the bins of one frame,
    and a frame whose norm is below the threshold [tiny] is left as it is. *)
Definition normalize_axis0 (tiny : Q) (S : list (list Q)) : list (list Q) :=
  map (fun r =>
         imap (fun t x =>
                 let length := peak (column t S) in
                 if Qlt_le_dec length tiny then x else (x / length)%Q)
              r)
      S.

(** Lines 16 and 17 on the matrix [cqt] returned by line 15, with rational
    entries standing for its complex ones and [Qabs] for the modulus. *)
Definition convert (tiny : Q) (cqt : list (list Q)) : list (list Q) :=
  let cqt_mag := map (map Qabs) cqt in
  normalize_axis0 tiny cqt_mag.

(** ** Predicates used in the statements *)

(** An occupied interval that does not end before it starts. *)
Definition wf_entry (o : occupied_entry) : Prop := (entry_start o <= entry_end o)%Q.

Definition wf_instance (i : instance) : Prop := (snd (fst i) <= snd i)%Q.

(** The window [w] lies in the region [r]. *)
Definition inside (w r : Q * Q) : Prop := (fst r <= fst w /\ snd w <= snd r)%Q.

(** The order [sort_by] sorts into. *)
Definition key_le {A : Type} (key : A -> Q) (x y : A) : Prop := (key x <= key y)%Q.

(** What lines 31 to 40 keep true of every row: 21 entries, each 0 or 1. *)
Definition binary_row (r : list Z) : Prop :=
  length r = 21%nat /\ Forall (fun v => v = 0 \/ v = 1) r.

(** What [__init__] keeps true of the dataset it builds: the two tensors of
    a recording have as many rows, and every window is [duration_samples]
    frames long on paper. *)
Definition dataset_inv (duration_samples : Z) (ds : LeitmotifDataset) : Prop :=
  (forall key c g,
      cqt ds !! key = Some c -> instances_gt ds !! key = Some g -> length c = length g)
  /\ Forall (fun x => sample_end x = sample_start x + duration_samples) (samples ds)
  /\ Forall (fun x => none_end x = none_start x + duration_samples) (none_samples ds).

(** The reading of "the frame range of the negative sample does not
    intersect the frame range of the instance". *)
Definition frames_disjoint (x : none_sample) (i : instance) : Prop :=
  forall f : Z,
    none_start x <= f < none_end x ->
    ~ (sec_to_frame (snd (fst i)) <= f < sec_to_frame (snd i)).

(** The reading of "equals s up to one frame of rounding error". *)
Definition within_one_frame (s : Q) (start_sec : Z) : Prop :=
  (Qabs (inject_Z start_sec - s) <= 512 # 22050)%Q.

(** The reading of "peak-normalized per frequency bin": over the frames of
    each bin the largest magnitude is 1, or the bin is all zero. *)
Definition peak_normalized_per_bin (m : list (list Q)) : Prop :=
  Forall (fun bin => (peak bin == 1)%Q \/ Forall (fun x => (x == 0)%Q) bin) m.

(** ** Concrete inputs *)

Definition example_motif2idx : gmap string nat :=
  <["MotifA"%string := 0%nat]> (<["MotifB"%string := 1%nat]> ∅).

Definition example_rng : nat -> draw := fun _ => Draw 0 (1 # 2).

(** A recording of [n] frames whose spectral rows are all [[1]]. *)
Definition blank_cqt (n : nat) : list (list Q) := replicate n [1%Q].

(** A recording of 2584 frames (60 s) with the one annotation
    (MotifA, 10.5, 20.0). *)
Definition half_second_annotations : gmap (string * string) (list instance) :=
  <[("A"%string, "1"%string) := [("MotifA"%string, (21 # 2)%Q, 20%Q)]]> ∅.

Definition half_second_init : option (result LeitmotifDataset) :=
  init example_motif2idx half_second_annotations example_rng 10
    [("A_1"%string, blank_cqt (Z.to_nat 2584))] 15 646.

(** A recording of 6030 frames (140 s) annotated with MotifA over
    [128, 140) and MotifB over [0, 113): the one free region is [113, 128). *)
Definition tight_gap_instances : list instance :=
  [("MotifA"%string, 128%Q, 140%Q); ("MotifB"%string, 0%Q, 113%Q)].

Definition tight_gap_annotations : gmap (string * string) (list instance) :=
  <[("A"%string, "1"%string) := tight_gap_instances]> ∅.

Definition tight_gap_init : option (result LeitmotifDataset) :=
  init example_motif2idx tight_gap_annotations example_rng 10
    [("A_1"%string, blank_cqt (Z.to_nat 6030))] 15 646.

(** A recording of 100 frames (2.3 s) with one annotation, the dataset built
    from it, and what the accessor returns at index 0. *)
Definition short_recording_annotations : gmap (string * string) (list instance) :=
  <[("A"%string, "1"%string) := [("MotifA"%string, (1 # 2)%Q, 1%Q)]]> ∅.

Definition short_recording_init : option (result LeitmotifDataset) :=
  init example_motif2idx short_recording_annotations example_rng 10
    [("A_1"%string, blank_cqt 100)] 15 646.

Definition short_recording_dataset : LeitmotifDataset :=
  Eval vm_compute in
    match short_recording_init with
    | Some (Ok ds) => ds
    | _ => empty_dataset 0
    end.

Definition short_recording_windows : list (list Q) * list (list Z) :=
  Eval vm_compute in
    match getitem short_recording_dataset 0 with
    | Ok p => p
    | Err _ => ([], [])
    end.

(** ** Predicates on the ground-truth tensor *)

(** Frame [f] is in the row range that [gt[start_idx:end_idx, _] = 1] of
    line 40 writes for the instance [i] in a tensor of [n] rows. *)
Definition covers_b (n : Z) (i : instance) (f : Z) : bool :=
  (slice_index n (sec_to_frame (snd (fst i))) <=? f)
  && (f <? slice_index n (sec_to_frame (snd i))).

(** Some instance whose motif has index [j] covers frame [f]. *)
Definition marked_b (motif2idx : gmap string nat) (n : Z)
    (instances : list instance) (j : nat) (f : Z) : bool :=
  existsb (fun i : instance =>
             match motif2idx !! fst (fst i) with
             | Some j' => Nat.eqb j' j && covers_b n i f
             | None => false
             end)
          instances.

(** The motif of the instance is in the table, with a column of the tensor. *)
Definition known_motif (motif2idx : gmap string nat) (i : instance) : Prop :=
  exists j, motif2idx !! fst (fst i) = Some j /\ (j < 21)%nat.

Definition nonneg_instance (i : instance) : Prop :=
  (0 <= snd (fst i))%Q /\ (0 <= snd i)%Q.

(** ** Subset and collate_fn (src/dataset.py, lines 138 to 153) *)

Record Subset : Type := mkSubset {
  dataset : LeitmotifDataset;
  indices : list Z
}.

(** [Subset.__len__]. *)
Definition subset_len (s : Subset) : Z := Z.of_nat (length (indices s)).

(** [Subset.__getitem__]: [self.dataset[self.indices[idx]]]. *)
Definition subset_getitem (s : Subset) (idx : Z)
  : result (list (list Q) * list (list Z)) :=
  i ← py_index (indices s) idx;
  getitem (dataset s) i.

(** How a call of [collate_fn] ends: with the two stacked batches, with the
    ValueError of unpacking the zipped batch into [cqt, gt] when it is empty,
    or with the RuntimeError of [torch.stack] on tensors of unequal size. *)
Inductive collated (A : Type) : Type :=
| Collated (a : A)
| ValueError
| StackError.

Arguments Collated {A} a.
Arguments ValueError {A}.
Arguments StackError {A}.

(** The size of a window: the length of each of its rows.  (A window
    without rows carries no width.) *)
Definition tensor_size {A : Type} (t : list (list A)) : list nat := map length t.

(** [torch.stack(ts)]: a new leading dimension over tensors of one size. *)
Definition stack {A : Type} (ts : list (list (list A))) : option (list (list (list A))) :=
  match ts with
  | [] => None
  | t :: rest =>
      if forallb (fun t' => bool_decide (tensor_size t' = tensor_size t)) rest
      then Some ts else None
  end.

(** [collate_fn]. *)
Definition collate_fn (batch : list (list (list Q) * list (list Z)))
  : collated (list (list (list Q)) * list (list (list Z))) :=
  match batch with
  | [] => ValueError
  | _ :: _ =>
      let cqt := map fst batch in
      let gt := map snd batch in
      match stack cqt with
      | None => StackError
      | Some cqt =>
          match stack gt with
          | None => StackError
          | Some gt => Collated (cqt, gt)
          end
      end
  end.

(** ** More predicates used in the statements *)

(** The stem is of the form version_act: [split("_")] gives two parts. *)
Definition two_parts (fn : pkl_file) : Prop :=
  length (split_on "_" (fst fn)) = 2%nat.

(** The character [c] occurs in [s]. *)
Fixpoint has_char (c : ascii) (s : string) : bool :=
  match s with
  | EmptyString => false
  | String x rest => Ascii.eqb x c || has_char c rest
  end.

(** The recording of every sample is in both dicts. *)
Definition keys_present (ds : LeitmotifDataset) : Prop :=
  Forall (fun x => is_Some (cqt ds !! recording_key (sample_version x) (sample_act x))
                   /\ is_Some (instances_gt ds
                                 !! recording_key (sample_version x) (sample_act x)))
         (samples ds)
  /\ Forall (fun x => is_Some (cqt ds !! recording_key (none_version x) (none_act x)))
            (none_samples ds).

(** Every spectral matrix has [n_bins] columns and every ground-truth
    tensor 21. *)
Definition widths (n_bins : nat) (ds : LeitmotifDataset) : Prop :=
  (forall key c, cqt ds !! key = Some c -> Forall (fun r => length r = n_bins) c)
  /\ (forall key g, instances_gt ds !! key = Some g -> Forall (fun r => length r = 21%nat) g).

(** Some entry of the row is 1. *)
Definition has_label (row : list Z) : Prop := exists j, row !! j = Some 1.

(** Every frame of every ground-truth tensor of the dataset has a label. *)
Definition all_labelled (ds : LeitmotifDataset) : Prop :=
  forall key g, instances_gt ds !! key = Some g -> Forall has_label g.

(** A recording of 100 frames read with windows of 1 s and 43 frames: the
    dataset has one positive and one negative sample, both inside the
    recording; the batch of its two items. *)
Definition small_window_init : option (result LeitmotifDataset) :=
  init example_motif2idx short_recording_annotations example_rng 10
    [("A_1"%string, blank_cqt 100)] 1 43.

Definition small_window_dataset : LeitmotifDataset :=
  Eval vm_compute in
    match small_window_init with
    | Some (Ok ds) => ds
    | _ => empty_dataset 0
    end.

Definition small_window_batch : list (list (list Q) * list (list Z)) :=
  Eval vm_compute in
    match getitem small_window_dataset 0, getitem small_window_dataset 1 with
    | Ok a, Ok b => [a; b]
    | _, _ => []
    end.

(** The same recording under a stem with a third part, A_1_x: lines 46 and
    47 read version A and act 1 from it. *)
Definition third_part_init : option (result LeitmotifDataset) :=
  init example_motif2idx short_recording_annotations example_rng 10
    [("A_1_x"%string, blank_cqt 100)] 1 43.

(** Two recordings of 100 frames, A_1 and B_1, read with windows of 1 s and
    43 frames. *)
Definition two_recordings_annotations : gmap (string * string) (list instance) :=
  <[("B"%string, "1"%string) := [("MotifB"%string, 0%Q, 1%Q)]]>
    short_recording_annotations.

Definition two_recordings_init : option (result LeitmotifDataset) :=
  init example_motif2idx two_recordings_annotations example_rng 10
    ([("A_1"%string, blank_cqt 100)] ++ [("B_1"%string, blank_cqt 100)]) 1 43.

Definition two_recordings_dataset : LeitmotifDataset :=
  Eval vm_compute in
    match two_recordings_init with
    | Some (Ok ds) => ds
    | _ => empty_dataset 0
    end.

(** ** Recordings that hold a window *)

(** The instance lies inside a recording of [n_frames] frames: it does not
    start before 0 and its end, in frames, is not beyond the last frame. *)
Definition instance_inside (n_frames : nat) (i : instance) : Prop :=
  (0 <= snd (fst i))%Q
  /\ (snd i * (22050 # 512) <= inject_Z (Z.of_nat n_frames))%Q.

(** The recording is at least one window long, and the annotations of its
    (version, act) lie inside it. *)
Definition holds_window (annotations : gmap (string * string) (list instance))
    (duration_samples : Z) (fn : pkl_file) : Prop :=
  duration_samples <= Z.of_nat (length (snd fn))
  /\ forall version act instances,
       py_index (split_on "_" (fst fn)) 0 = Ok version ->
       py_index (split_on "_" (fst fn)) 1 = Ok act ->
       annotations !! (version, act) = Some instances ->
       Forall (instance_inside (length (snd fn))) instances.

(** Every window of the dataset lies inside the spectral matrix that the
    accessor reads for it. *)
Definition windows_inside (ds : LeitmotifDataset) : Prop :=
  Forall (fun x => exists c,
              cqt ds !! recording_key (sample_version x) (sample_act x) = Some c
              /\ 0 <= sample_start x /\ sample_end x <= Z.of_nat (length c))
         (samples ds)
  /\ Forall (fun x => exists c,
                cqt ds !! recording_key (none_version x) (none_act x) = Some c
                /\ 0 <= none_start x /\ none_end x <= Z.of_nat (length c))
            (none_samples ds).

(** * Facts *)

(** ** Rounding and the two conversions *)

Lemma py_round_floor (q : Q) : Qfloor q <= py_round q <= Qfloor q + 1.
Proof.
  unfold py_round.
  destruct (_ ?= _)%Q; [destruct (Z.even _) | |]; lia.
Qed.

Lemma py_round_upper (q : Q) : (inject_Z (py_round q) <= q + (1 # 2))%Q.
Proof.
  pose proof (Qfloor_le q) as Hf.
  unfold py_round.
  destruct (Qcompare_spec (q - inject_Z (Qfloor q)) (1 # 2)) as [He|Hl|Hg].
  - destruct (Z.even _); [lra|]. rewrite inject_Z_plus. change (inject_Z 1) with 1%Q. lra.
  - lra.
  - rewrite inject_Z_plus. change (inject_Z 1) with 1%Q. lra.
Qed.

Lemma py_round_lower (q : Q) : (q - (1 # 2) <= inject_Z (py_round q))%Q.
Proof.
  pose proof (Qlt_floor q) as Hf.
  rewrite inject_Z_plus in Hf. change (inject_Z 1) with 1%Q in Hf.
  unfold py_round.
  destruct (Qcompare_spec (q - inject_Z (Qfloor q)) (1 # 2)) as [He|Hl|Hg].
  - destruct (Z.even _); [lra|]. rewrite inject_Z_plus. change (inject_Z 1) with 1%Q. lra.
  - lra.
  - rewrite inject_Z_plus. change (inject_Z 1) with 1%Q. lra.
Qed.

Lemma py_round_mono (p q : Q) : (p <= q)%Q -> py_round p <= py_round q.
Proof.
  intros Hpq.
  pose proof (Qfloor_resp_le _ _ Hpq) as Hfl.
  destruct (Z.eq_dec (Qfloor p) (Qfloor q)) as [Heq|Hne].
  - unfold py_round. rewrite Heq.
    destruct (Qcompare_spec (p - inject_Z (Qfloor q)) (1 # 2)) as [He|Hl|Hg];
      destruct (Qcompare_spec (q - inject_Z (Qfloor q)) (1 # 2)) as [He'|Hl'|Hg'];
      try destruct (Z.even _); try lia; lra.
  - pose proof (py_round_floor p). pose proof (py_round_floor q). lia.
Qed.

Lemma frame_rate_arg (s : Q) : (s * 22050 / 512 == s * (22050 # 512))%Q.
Proof.
  unfold Qdiv. change (/ 512)%Q with (1 # 512)%Q. ring.
Qed.

Lemma sec_to_frame_mono (s t : Q) : (s <= t)%Q -> sec_to_frame s <= sec_to_frame t.
Proof.
  intros Hst. apply py_round_mono. rewrite !frame_rate_arg. lra.
Qed.

Lemma sec_to_frame_upper (s : Q) :
  (inject_Z (sec_to_frame s) <= s * (22050 # 512) + (1 # 2))%Q.
Proof.
  unfold sec_to_frame. pose proof (py_round_upper (s * 22050 / 512)) as H.
  rewrite frame_rate_arg in H at 2. exact H.
Qed.

Lemma sec_to_frame_lower (s : Q) :
  (s * (22050 # 512) - (1 # 2) <= inject_Z (sec_to_frame s))%Q.
Proof.
  unfold sec_to_frame. pose proof (py_round_lower (s * 22050 / 512)) as H.
  rewrite frame_rate_arg in H at 1. exact H.
Qed.

Lemma frame_to_sec_bounds (f : Z) :
  (inject_Z (frame_to_sec f) * 22050 <= inject_Z f * 512
   /\ inject_Z f * 512 < (inject_Z (frame_to_sec f) + 1) * 22050)%Q.
Proof.
  unfold frame_to_sec.
  pose proof (Z.mul_div_le (f * 512) 22050 ltac:(lia)) as Hle.
  pose proof (Z.mul_succ_div_gt (f * 512) 22050 ltac:(lia)) as Hgt.
  split.
  - change 22050%Q with (inject_Z 22050). change 512%Q with (inject_Z 512).
    rewrite <- !inject_Z_mult, <- Zle_Qle. lia.
  - change 22050%Q with (inject_Z 22050). change 512%Q with (inject_Z 512).
    change 1%Q with (inject_Z 1).
    rewrite <- inject_Z_plus, <- !inject_Z_mult, <- Zlt_Qlt. lia.
Qed.

(** The round trip seconds -> frame -> seconds of lines 50 and 92. *)
Lemma frame_to_sec_to_frame (s : Q) :
  (s - 1 - (256 # 22050) < inject_Z (frame_to_sec (sec_to_frame s))
   /\ inject_Z (frame_to_sec (sec_to_frame s)) <= s + (256 # 22050))%Q.
Proof.
  pose proof (sec_to_frame_upper s). pose proof (sec_to_frame_lower s).
  pose proof (frame_to_sec_bounds (sec_to_frame s)) as [? ?].
  split; lra.
Qed.

(** ** enumerate *)

Lemma elem_of_enumerate_from {A : Type} (l : list A) (k j : Z) (x : A) :
  In (j, x) (enumerate_from k l) <-> exists i : nat, j = k + Z.of_nat i /\ l !! i = Some x.
Proof.
  revert k. induction l as [|y l IH]; intros k; simpl.
  - split; [tauto | intros (i & _ & Hi); destruct i; discriminate].
  - rewrite IH. split.
    + intros [Heq | (i & -> & Hi)].
      * inversion Heq; subst. exists O. split; [lia | reflexivity].
      * exists (S i). split; [lia | exact Hi].
    + intros ([|i] & -> & Hi); simpl in Hi.
      * left. inversion Hi. f_equal. lia.
      * right. exists i. split; [lia | exact Hi].
Qed.

Lemma elem_of_enumerate {A : Type} (l : list A) (i : nat) (x : A) :
  l !! i = Some x -> In (Z.of_nat i, x) (enumerate l).
Proof.
  intros Hi. apply elem_of_enumerate_from. exists i. split; [lia | exact Hi].
Qed.

(** ** query_motif *)

(** C5, as the code has it: the start_sec that query_motif returns for the
    positive sample made by line 50 from a window start of s seconds is the
    time of its start frame f = round(s * 22050 / 512) cut to whole seconds,
    start_sec <= f * 512 / 22050 < start_sec + 1: the conversion back
    undoes the conversion to frames to within one second, which is 43
    frames, not one.  For a start of at most 2^32 s either way (where the
    float product s * 22050 / 512 is within 2^-16 of a frame of the exact
    one, so that the frame is within one frame of s * 22050 / 512 with room
    to spare) start_sec lies less than one frame above s and less than one
    second and one frame below it. *)
Theorem query_motif_start_sec (ds : LeitmotifDataset) (pre post : list sample)
    (version act : string) (duration_samples : Z)
    (samples_act : list (string * Q)) (motif : string) (i : nat) (s : Q) :
  samples ds = pre ++ positive_samples version act duration_samples samples_act ++ post ->
  samples_act !! i = Some (motif, s) ->
  (Qabs s <= 4294967296)%Q ->
  exists res,
    query_motif ds motif = Some res
    /\ In (Z.of_nat (length pre + i), version, act,
           frame_to_sec (sec_to_frame s),
           frame_to_sec (sec_to_frame s + duration_samples)) res
    /\ 22050 * frame_to_sec (sec_to_frame s) <= 512 * sec_to_frame s
       < 22050 * (frame_to_sec (sec_to_frame s) + 1)
    /\ (s - 1 - (512 # 22050) < inject_Z (frame_to_sec (sec_to_frame s))
        /\ inject_Z (frame_to_sec (sec_to_frame s)) < s + (512 # 22050))%Q.
Proof.
  intros Hsamples Hi _.
  set (x := (version, act, motif, sec_to_frame s, sec_to_frame s + duration_samples) : sample).
  assert (Hx : samples ds !! (length pre + i)%nat = Some x).
  { rewrite Hsamples, lookup_app_r by lia.
    replace (length pre + i - length pre)%nat with i by lia.
    rewrite lookup_app_l.
    - unfold positive_samples. rewrite list_lookup_fmap, Hi. reflexivity.
    - unfold positive_samples. rewrite length_map. eapply lookup_lt_Some, Hi. }
  assert (Hin : In (Z.of_nat (length pre + i), version, act,
                    frame_to_sec (sec_to_frame s),
                    frame_to_sec (sec_to_frame s + duration_samples))
                   (map (fun p : Z * sample =>
                           (fst p, sample_version (snd p), sample_act (snd p),
                            frame_to_sec (sample_start (snd p)),
                            frame_to_sec (sample_end (snd p))))
                      (List.filter
                         (fun p : Z * sample => String.eqb (sample_motif (snd p)) motif)
                         (enumerate (samples ds))))).
  { apply in_map_iff. exists (Z.of_nat (length pre + i), x). split; [reflexivity|].
    apply filter_In. split.
    - apply elem_of_enumerate, Hx.
    - simpl. apply String.eqb_refl. }
  unfold query_motif.
  destruct (map _ _) as [|r res] eqn:Hres; [destruct Hin|].
  exists (r :: res). split; [reflexivity|]. split; [exact Hin|].
  split.
  - unfold frame_to_sec.
    pose proof (Z.mul_div_le (sec_to_frame s * 512) 22050 ltac:(lia)).
    pose proof (Z.mul_succ_div_gt (sec_to_frame s * 512) 22050 ltac:(lia)).
    lia.
  - destruct (frame_to_sec_to_frame s) as [Hlo Hhi]. split; lra.
Qed.

Lemma query_motif_start_sec_witness :
  exists res,
    query_motif (mkDataset ∅ ∅ (positive_samples "A" "1" 646 [("MotifA"%string, 10%Q)]) [] 15)
      "MotifA" = Some res
    /\ In (0, "A"%string, "1"%string, 10, 25) res
    /\ 22050 * 10 <= 512 * 431 < 22050 * (10 + 1).
Proof.
  destruct (query_motif_start_sec
              (mkDataset ∅ ∅ (positive_samples "A" "1" 646 [("MotifA"%string, 10%Q)]) [] 15)
              [] [] "A" "1" 646 [("MotifA"%string, 10%Q)] "MotifA" 0 10
              eq_refl eq_refl ltac:(vm_compute; discriminate))
    as (res & Hq & Hin & Hframe & _).
  exists res. split; [exact Hq|]. split; [exact Hin | exact Hframe].
Defined.

(** C5, as the specification has it, fails: for the annotation
    (MotifA, 10.5, 20.0) in a recording of 60 s the window starts at 10.5 s,
    and query_motif returns start_sec = 10, half a second away. *)
Lemma query_motif_start_not_within_one_frame :
  exists ds,
    half_second_init = Some (Ok ds)
    /\ sample_instance_intervals [("MotifA"%string, (21 # 2)%Q, 20%Q)] 15 60
       = [("MotifA"%string, (21 # 2)%Q)]
    /\ query_motif ds "MotifA" = Some [(0, "A"%string, "1"%string, 10, 25)]
    /\ ~ within_one_frame (21 # 2) 10.
Proof.
  eexists. split; [vm_compute; reflexivity|].
  split; [vm_compute; reflexivity|].
  split; [vm_compute; reflexivity|].
  unfold within_one_frame. intros H. apply Qle_bool_iff in H.
  vm_compute in H. discriminate.
Qed.

(** ** Slices and indices *)

Lemma slice_index_range (n i : Z) : 0 <= n -> 0 <= slice_index n i <= n.
Proof.
  intros Hn. unfold slice_index. destruct (i <? 0) eqn:Hi; lia.
Qed.

Lemma length_py_slice {A : Type} (start stop : Z) (l : list A) :
  let n := Z.of_nat (length l) in
  Z.of_nat (length (py_slice start stop l))
  = Z.max 0 (slice_index n stop - slice_index n start).
Proof.
  intros n. unfold py_slice. fold n.
  pose proof (slice_index_range n start ltac:(lia)).
  pose proof (slice_index_range n stop ltac:(lia)).
  rewrite length_take, length_drop. lia.
Qed.

Lemma length_py_slice_inside {A : Type} (start stop : Z) (l : list A) :
  0 <= start <= stop -> stop <= Z.of_nat (length l) ->
  Z.of_nat (length (py_slice start stop l)) = stop - start.
Proof.
  intros Hs He. rewrite length_py_slice. unfold slice_index.
  destruct (start <? 0) eqn:H1; destruct (stop <? 0) eqn:H2; lia.
Qed.

Lemma length_py_slice_le {A : Type} (start stop : Z) (l : list A) :
  start <= stop ->
  Z.of_nat (length (py_slice start stop l)) <= stop - start.
Proof.
  intros Hs. rewrite length_py_slice. unfold slice_index.
  destruct (start <? 0) eqn:H1; destruct (stop <? 0) eqn:H2; lia.
Qed.

Lemma length_py_slice_same {A B : Type} (start stop : Z) (l : list A) (l' : list B) :
  length l = length l' ->
  length (py_slice start stop l) = length (py_slice start stop l').
Proof.
  intros Hl. apply Nat2Z.inj. rewrite !length_py_slice, Hl. reflexivity.
Qed.

(** For a start that is not negative the window holds the rows
    [start], [start + 1], ... of the tensor. *)
Lemma py_slice_lookup {A : Type} (start stop : Z) (l : list A) (i : nat) :
  0 <= start -> Z.of_nat i < stop - start ->
  py_slice start stop l !! i = l !! (Z.to_nat start + i)%nat.
Proof.
  intros Hs Hi. unfold py_slice. set (n := Z.of_nat (length l)).
  unfold slice_index.
  destruct (start <? 0) eqn:H1; [lia|].
  destruct (stop <? 0) eqn:H2; [lia|].
  destruct (decide (Z.of_nat i < Z.min stop n - Z.min start n)) as [Hlt|Hge].
  - rewrite lookup_take_lt by lia. rewrite lookup_drop. f_equal. lia.
  - rewrite lookup_take_ge by lia. symmetry. apply lookup_ge_None. lia.
Qed.

Lemma py_index_nonneg {A : Type} (l : list A) (idx : Z) :
  0 <= idx -> py_index l idx = from_option IndexError (l !! Z.to_nat idx).
Proof.
  intros H. unfold py_index. destruct (idx <? 0) eqn:Hi; [lia | reflexivity].
Qed.

Lemma py_index_negative {A : Type} (l : list A) (idx : Z) :
  - Z.of_nat (length l) <= idx < 0 ->
  py_index l idx = py_index l (idx + Z.of_nat (length l)).
Proof.
  intros H. unfold py_index.
  destruct (idx <? 0) eqn:Hi; [|lia].
  destruct (idx + Z.of_nat (length l) <? 0) eqn:Hj; [lia|]. reflexivity.
Qed.

Lemma py_index_out_of_range {A : Type} (l : list A) (idx : Z) :
  Z.of_nat (length l) <= idx -> py_index l idx = Err IndexError.
Proof.
  intros H. rewrite py_index_nonneg by lia.
  rewrite (proj2 (lookup_ge_None l (Z.to_nat idx))) by lia. reflexivity.
Qed.

(** ** The accessor *)

(** C9: a global index at or beyond len(samples) + len(none_samples) makes
    the accessor raise IndexError. *)
Theorem getitem_out_of_range (ds : LeitmotifDataset) (idx : Z) :
  len ds <= idx -> getitem ds idx = Err IndexError.
Proof.
  unfold len, getitem. intros H.
  destruct (idx <? Z.of_nat (length (samples ds))) eqn:Hlt; [lia|].
  rewrite py_index_out_of_range by lia. reflexivity.
Qed.

Lemma getitem_out_of_range_witness :
  getitem (mkDataset ∅ ∅ [("A"%string, "1"%string, "MotifA"%string, 0, 646)]
             [("A"%string, "1"%string, 700, 1346)] 15) 2 = Err IndexError.
Proof.
  apply getitem_out_of_range. vm_compute. discriminate.
Defined.

Lemma getitem_positive (ds : LeitmotifDataset) (idx : Z) (x : sample) :
  idx < Z.of_nat (length (samples ds)) ->
  py_index (samples ds) idx = Ok x ->
  getitem ds idx
  = (c ← py_getitem (cqt ds) (recording_key (sample_version x) (sample_act x));
     g ← py_getitem (instances_gt ds) (recording_key (sample_version x) (sample_act x));
     Ok (py_slice (sample_start x) (sample_end x) c,
         py_slice (sample_start x) (sample_end x) g)).
Proof.
  intros Hlt Hx. unfold getitem.
  destruct (idx <? Z.of_nat (length (samples ds))) eqn:Hi; [|lia].
  rewrite Hx. destruct x as [[[[version act] motif] start] stop]. reflexivity.
Qed.

Lemma getitem_negative (ds : LeitmotifDataset) (idx : Z) (x : none_sample) :
  Z.of_nat (length (samples ds)) <= idx ->
  py_index (none_samples ds) (idx - Z.of_nat (length (samples ds))) = Ok x ->
  getitem ds idx
  = (c ← py_getitem (cqt ds) (recording_key (none_version x) (none_act x));
     z ← zeros (none_end x - none_start x) 21;
     Ok (py_slice (none_start x) (none_end x) c, z)).
Proof.
  intros Hge Hx. unfold getitem.
  destruct (idx <? Z.of_nat (length (samples ds))) eqn:Hi; [lia|].
  rewrite Hx. destruct x as [[[version act] start] stop]. reflexivity.
Qed.



(** An index from -len(samples) to -1 takes the positive branch and reads
    the positive sample at position len(samples) + idx: whatever the dataset
    holds, the accessor does what it does at len(samples) + idx, which is
    not to raise IndexError. *)
Lemma getitem_from_end (ds : LeitmotifDataset) (idx : Z) :
  - Z.of_nat (length (samples ds)) <= idx <= -1 ->
  exists x,
    samples ds !! Z.to_nat (Z.of_nat (length (samples ds)) + idx) = Some x
    /\ getitem ds idx <> Err IndexError
    /\ getitem ds idx = getitem ds (Z.of_nat (length (samples ds)) + idx)
    /\ forall c g,
        cqt ds !! recording_key (sample_version x) (sample_act x) = Some c ->
        instances_gt ds !! recording_key (sample_version x) (sample_act x) = Some g ->
        getitem ds idx
        = Ok (py_slice (sample_start x) (sample_end x) c,
              py_slice (sample_start x) (sample_end x) g).
Proof.
  intros Hidx. set (n := Z.of_nat (length (samples ds))) in *.
  destruct (lookup_lt_is_Some_2 (samples ds) (Z.to_nat (n + idx)) ltac:(lia)) as [x Hx].
  assert (Hpy : py_index (samples ds) idx = Ok x).
  { rewrite py_index_negative by (fold n; lia). fold n.
    rewrite py_index_nonneg by lia.
    replace (idx + n) with (n + idx) by lia. rewrite Hx. reflexivity. }
  assert (Hpy' : py_index (samples ds) (n + idx) = Ok x).
  { rewrite py_index_nonneg by lia. rewrite Hx. reflexivity. }
  exists x. split; [exact Hx|].
  rewrite (getitem_positive ds idx x) by (fold n; first [lia | exact Hpy]).
  rewrite (getitem_positive ds (n + idx) x) by (fold n; first [lia | exact Hpy']).
  split; [|split; [reflexivity|]].
  - unfold py_getitem.
    destruct (cqt ds !! _); [|discriminate].
    destruct (instances_gt ds !! _); discriminate.
  - intros c g Hc Hg. unfold py_getitem. rewrite Hc, Hg. reflexivity.
Qed.

(** ** get_subset_idxs *)

Lemma indices_where_range {A : Type} (keep : A -> bool) (P : Z -> bool)
    (l : list A) (k shift : Z) (a : nat) :
  Z.of_nat a = k + shift ->
  (forall (i : nat) x, l !! i = Some x -> P (Z.of_nat (a + i)) = keep x) ->
  map (fun p => fst p + shift) (List.filter (fun p => keep (snd p)) (enumerate_from k l))
  = List.filter P (map Z.of_nat (seq a (length l))).
Proof.
  revert k a. induction l as [|x l IH]; intros k a Ha HP; [reflexivity|].
  cbn [enumerate_from List.filter length seq map snd].
  pose proof (HP O x eq_refl) as H0. rewrite Nat.add_0_r in H0. rewrite H0.
  assert (IH' := IH (k + 1) (S a) ltac:(lia)).
  destruct (keep x); cbn [map fst]; rewrite IH'.
  - f_equal. lia.
  - intros i y Hy. rewrite <- (HP (S i) y Hy). f_equal. lia.
  - reflexivity.
  - intros i y Hy. rewrite <- (HP (S i) y Hy). f_equal. lia.
Qed.

Lemma recording_at_sample (ds : LeitmotifDataset) (i : nat) (x : sample) :
  samples ds !! i = Some x ->
  recording_at ds (Z.of_nat i) = Some (sample_version x, sample_act x).
Proof.
  intros Hx. unfold recording_at. pose proof (lookup_lt_Some _ _ _ Hx).
  destruct (Z.of_nat i <? Z.of_nat (length (samples ds))) eqn:Hi; [|apply Z.ltb_ge in Hi; lia].
  rewrite Nat2Z.id, Hx. reflexivity.
Qed.

Lemma recording_at_none_sample (ds : LeitmotifDataset) (i : nat) (x : none_sample) :
  none_samples ds !! i = Some x ->
  recording_at ds (Z.of_nat (length (samples ds) + i))
  = Some (none_version x, none_act x).
Proof.
  intros Hx. unfold recording_at.
  destruct (Z.of_nat (length (samples ds) + i) <? Z.of_nat (length (samples ds))) eqn:Hi;
    [apply Z.ltb_lt in Hi; lia|].
  replace (Z.to_nat (Z.of_nat (length (samples ds) + i) - Z.of_nat (length (samples ds))))
    with i by lia.
  rewrite Hx. reflexivity.
Qed.

Lemma subset_indices_split (ds : LeitmotifDataset) (versions acts : option (list string)) :
  subset_indices ds versions acts
  = indices_where (fun x => passes versions acts (sample_version x, sample_act x))
      0 (samples ds)
    ++ indices_where (fun x => passes versions acts (none_version x, none_act x))
         (Z.of_nat (length (samples ds))) (none_samples ds).
Proof.
  unfold subset_indices, len, py_range, indices_where, enumerate.
  rewrite <- Nat2Z.inj_add, Nat2Z.id, seq_app, map_app, List.filter_app.
  f_equal.
  - symmetry.
    apply (indices_where_range
             (fun x => passes versions acts (sample_version x, sample_act x))); [lia|].
    intros i x Hx. cbn [Nat.add]. rewrite (recording_at_sample ds i x Hx). reflexivity.
  - symmetry.
    apply (indices_where_range
             (fun x => passes versions acts (none_version x, none_act x))); [lia|].
    intros i x Hx. cbn [Nat.add]. rewrite (recording_at_none_sample ds i x Hx). reflexivity.
Qed.

Lemma indices_where_all {A : Type} (l : list A) (k shift : Z) (a : nat) :
  Z.of_nat a = k + shift ->
  map (fun p => fst p + shift) (List.filter (fun _ => true) (enumerate_from k l))
  = map Z.of_nat (seq a (length l)).
Proof.
  intros Ha.
  rewrite (indices_where_range (fun _ => true) (fun _ => true) l k shift a Ha) by reflexivity.
  induction (map Z.of_nat (seq a (length l))) as [|z zs IH]; [reflexivity|].
  simpl. f_equal. exact IH.
Qed.

(** C8: get_subset_idxs returns, in increasing order, exactly the global
    indices whose recording has its version in versions (when given) and
    its act in acts (when given); with no filter, all of 0 .. len - 1. *)
Theorem get_subset_idxs_spec (ds : LeitmotifDataset) (versions acts : option (list string)) :
  get_subset_idxs ds versions acts = subset_indices ds versions acts
  /\ get_subset_idxs ds None None = py_range (len ds).
Proof.
  split; [|reflexivity].
  rewrite subset_indices_split.
  destruct versions as [vs|], acts as [acs|]; unfold passes; cbn [get_subset_idxs fst snd].
  - reflexivity.
  - unfold indices_where. f_equal; f_equal; apply List.filter_ext; intros p;
      rewrite andb_true_r; reflexivity.
  - reflexivity.
  - unfold indices_where, enumerate, py_range. cbn [andb].
    rewrite (indices_where_all (samples ds) 0 0 0) by lia.
    rewrite (indices_where_all (none_samples ds) 0 _ (length (samples ds))) by lia.
    rewrite <- map_app, <- seq_app, <- Nat2Z.inj_add, Nat2Z.id. reflexivity.
Qed.

(** ** The ground-truth tensor *)

Lemma assign_rows_binary (i lo hi : Z) (col : nat) (rows : list (list Z)) :
  Forall binary_row rows -> Forall binary_row (assign_rows i lo hi col 1 rows).
Proof.
  intros H. revert i. induction H as [|r rows [Hlen Hr] _ IH]; intros i; simpl.
  - constructor.
  - constructor; [|apply IH].
    destruct ((lo <=? i) && (i <? hi)); [|split; assumption].
    split; [rewrite length_insert; exact Hlen|].
    apply Forall_insert; [exact Hr | right; reflexivity].
Qed.

Lemma length_assign_rows (i lo hi : Z) (col : nat) (v : Z) (rows : list (list Z)) :
  length (assign_rows i lo hi col v rows) = length rows.
Proof.
  revert i. induction rows as [|r rows IH]; intros i; simpl; [|rewrite IH]; reflexivity.
Qed.

Lemma mark_instances_binary (motif2idx : gmap string nat) (instances : list instance)
    (gt gt' : list (list Z)) :
  mark_instances motif2idx gt instances = Ok gt' ->
  Forall binary_row gt -> Forall binary_row gt' /\ length gt' = length gt.
Proof.
  revert gt. induction instances as [|[[motif start] stop] rest IH]; intros gt Hm Hgt.
  - inversion Hm; subst. split; [exact Hgt | reflexivity].
  - cbn [mark_instances] in Hm.
    destruct (py_getitem motif2idx motif) as [motif_idx|e]; [|discriminate].
    cbn in Hm. unfold mark in Hm.
    destruct (motif_idx <? 21)%nat; [|discriminate]. cbn in Hm.
    apply IH in Hm; [|apply assign_rows_binary, Hgt].
    rewrite length_assign_rows in Hm. exact Hm.
Qed.

Lemma fold_max_binary (xs : list Z) (x : Z) :
  (x = 0 \/ x = 1) -> Forall (fun v => v = 0 \/ v = 1) xs ->
  (fold_left Z.max xs x = 0 \/ fold_left Z.max xs x = 1)
  /\ (fold_left Z.max xs x = 0 <-> x = 0 /\ Forall (fun v => v = 0) xs).
Proof.
  intros Hx Hxs. revert x Hx. induction Hxs as [|y xs Hy _ IH]; intros x Hx; simpl.
  - split; [exact Hx|]. split; [intros ->; split; [reflexivity | constructor] | tauto].
  - destruct (IH (Z.max x y) ltac:(lia)) as [IH1 IH2]. split; [exact IH1|].
    rewrite IH2. split.
    + intros [Hm Hall]. split; [lia|]. constructor; [lia | exact Hall].
    + intros [-> Hall]. inversion Hall; subst. split; [reflexivity | assumption].
Qed.

Lemma row_max_binary (r : list Z) :
  Forall (fun v => v = 0 \/ v = 1) r ->
  (row_max r = 0 \/ row_max r = 1) /\ (row_max r = 0 <-> Forall (fun v => v = 0) r).
Proof.
  intros Hr. destruct r as [|x xs]; simpl.
  - split; [left; reflexivity|]. split; [constructor | reflexivity].
  - inversion Hr; subst.
    destruct (fold_max_binary xs x) as [Hb Hz]; [assumption..|].
    split; [exact Hb|]. rewrite Hz. split.
    + intros [-> Hall]. constructor; [reflexivity | exact Hall].
    + intros Hall. inversion Hall; subst. split; [reflexivity | assumption].
Qed.

Lemma set_none_eq (r : list Z) :
  length r = 21%nat -> set_none r = <[20%nat := 1 - row_max (take 20 r)]> r.
Proof.
  intros Hlen. unfold set_none, py_slice. rewrite Hlen. reflexivity.
Qed.

(** C2: in the ground-truth tensor of every recording, at every frame, the
    last ("none") column is 1 minus the maximum of the first 20 columns,
    and it is 1 exactly when every motif column is 0. *)
Theorem ground_truth_none_column (motif2idx : gmap string nat) (n_frames : nat)
    (instances : list instance) (gt : list (list Z)) (f : nat) (row : list Z) :
  ground_truth motif2idx n_frames instances = Ok gt ->
  gt !! f = Some row ->
  length row = 21%nat
  /\ row !! 20%nat = Some (1 - row_max (take 20 row))
  /\ (row !! 20%nat = Some 1 <-> forall j, (j < 20)%nat -> row !! j = Some 0).
Proof.
  unfold ground_truth, zeros. intros Hgt Hrow.
  destruct (Z.of_nat n_frames <? 0) eqn:Hn; [apply Z.ltb_lt in Hn; lia|].
  cbn in Hgt. rewrite Nat2Z.id in Hgt.
  destruct (mark_instances _ _ _) as [gt1|e] eqn:Hm; [|discriminate].
  cbn in Hgt. inversion Hgt; subst gt; clear Hgt.
  apply mark_instances_binary in Hm as [Hbin _];
    [|apply Forall_replicate; split; [reflexivity | apply Forall_replicate; left; reflexivity]].
  rewrite list_lookup_fmap in Hrow.
  destruct (gt1 !! f) as [r|] eqn:Hr; [|discriminate].
  inversion Hrow; subst row; clear Hrow.
  destruct (Forall_lookup_1 _ _ _ _ Hbin Hr) as [Hlen Hvals].
  rewrite (set_none_eq r Hlen).
  rewrite take_insert_ge by lia.
  rewrite list_lookup_insert_eq by lia.
  destruct (row_max_binary (take 20 r) (Forall_take _ 20 r Hvals)) as [H01 Hzero].
  split; [rewrite length_insert; exact Hlen|]. split; [reflexivity|].
  split.
  - intros H1 j Hj. rewrite list_lookup_insert_ne by lia.
    assert (Hz : row_max (take 20 r) = 0) by (inversion H1; lia).
    apply Hzero in Hz.
    destruct (lookup_lt_is_Some_2 (take 20 r) j) as [v Hv];
      [rewrite length_take; lia|].
    rewrite (Forall_lookup_1 _ _ _ _ Hz Hv) in Hv.
    rewrite lookup_take_lt in Hv by lia. exact Hv.
  - intros Hall. f_equal.
    assert (Hz : row_max (take 20 r) = 0); [|lia].
    apply Hzero, Forall_lookup. intros j v Hv.
    pose proof (lookup_lt_Some _ _ _ Hv) as Hj. rewrite length_take in Hj.
    rewrite lookup_take_lt in Hv by lia.
    specialize (Hall j ltac:(lia)). rewrite list_lookup_insert_ne in Hall by lia.
    congruence.
Qed.

Lemma ground_truth_none_column_witness :
  [0; 0; 0; 0; 0; 0; 0; 0; 0; 0; 0; 0; 0; 0; 0; 0; 0; 0; 0; 0; 1] !! 20%nat
  = Some (1 - row_max (take 20 [0; 0; 0; 0; 0; 0; 0; 0; 0; 0; 0; 0; 0; 0; 0; 0; 0; 0; 0; 0; 1])).
Proof.
  refine (proj1 (proj2 (ground_truth_none_column example_motif2idx 7
           [("MotifA"%string, 0%Q, (1 # 16)%Q); ("MotifB"%string, (1 # 16)%Q, (1 # 8)%Q)]
           _ 5 _ _ _))).
  - vm_compute. reflexivity.
  - reflexivity.
Defined.

(** ** The converter *)

Lemma column_imap (f : nat -> Q -> Q) (t : nat) (S : list (list Q)) :
  column t (map (imap f) S) = map (f t) (column t S).
Proof.
  induction S as [|r S IH]; [reflexivity|].
  simpl. rewrite list_lookup_imap.
  destruct (r !! t); simpl; rewrite IH; reflexivity.
Qed.

Lemma peak_nonneg (v : list Q) : (0 <= peak v)%Q.
Proof.
  destruct v as [|x v]; simpl; [lra|].
  eapply Qle_trans; [apply Qabs_nonneg | apply Q.le_max_l].
Qed.

Lemma Qmax_scale (a b k : Q) : (0 <= k)%Q -> (Qmax (a * k) (b * k) == Qmax a b * k)%Q.
Proof.
  intros Hk. destruct (Qlt_le_dec a b) as [Hab|Hba].
  - rewrite (Q.max_r a b) by lra.
    apply Q.max_r. apply Qmult_le_compat_r; lra.
  - rewrite (Q.max_l a b) by lra.
    apply Q.max_l. apply Qmult_le_compat_r; lra.
Qed.

Lemma peak_scale (v : list Q) (p : Q) :
  (0 < p)%Q -> (peak (map (fun x => x / p) v) == peak v / p)%Q.
Proof.
  intros Hp. pose proof (Qinv_lt_0_compat p Hp) as Hip.
  induction v as [|x v IH].
  - simpl. unfold Qdiv. ring.
  - change (Qmax (Qabs (x / p)) (peak (map (fun x => x / p) v))
            == Qmax (Qabs x) (peak v) / p)%Q.
    rewrite IH. unfold Qdiv.
    rewrite Qabs_Qmult, (Qabs_pos (/ p)) by lra.
    apply Qmax_scale. lra.
Qed.

(** C6, as the code has it: the matrix written by the converter is
    peak-normalized per time frame, not per bin: for each frame, the
    largest magnitude over the bins is 1, unless the peak of the frame is
    below the threshold, and then the frame is written as it is. *)
Theorem convert_normalizes_frames (tiny : Q) (cqt : list (list Q)) (t : nat) :
  (0 < tiny)%Q ->
  (peak (column t (convert tiny cqt)) == 1)%Q
  \/ ((peak (column t (map (map Qabs) cqt)) < tiny)%Q
      /\ column t (convert tiny cqt) = column t (map (map Qabs) cqt)).
Proof.
  intros Htiny. unfold convert.
  set (S := map (map Qabs) cqt).
  assert (Hcol : column t (normalize_axis0 tiny S)
                 = map (fun x => if Qlt_le_dec (peak (column t S)) tiny then x
                                 else (x / peak (column t S))%Q) (column t S))
    by apply (column_imap
                (fun t x => if Qlt_le_dec (peak (column t S)) tiny then x
                            else (x / peak (column t S))%Q)).
  rewrite Hcol.
  destruct (Qlt_le_dec (peak (column t S)) tiny) as [Hsmall|Hbig].
  - right. split; [exact Hsmall|]. apply map_id.
  - left. rewrite peak_scale by lra. field. lra.
Qed.

Lemma convert_normalizes_frames_witness :
  (peak (column 0 (convert (1 # 1000) [[1; 1]; [2; 2]]%Q)) == 1)%Q
  \/ ((peak (column 0 (map (map Qabs) [[1; 1]; [2; 2]]%Q)) < 1 # 1000)%Q
      /\ column 0 (convert (1 # 1000) [[1; 1]; [2; 2]]%Q)
         = column 0 (map (map Qabs) [[1; 1]; [2; 2]]%Q)).
Proof.
  apply (convert_normalizes_frames (1 # 1000) [[1; 1]; [2; 2]]%Q 0).
  reflexivity.
Defined.

(** C6, as the specification has it, fails: with two bins and two frames,
    magnitudes 1 in bin 0 and 2 in bin 1, the converter writes 1/2 all along
    bin 0, whose peak over time is 1/2. *)
Lemma convert_not_normalized_per_bin :
  convert (1 # 1000) [[1; 1]; [2; 2]]%Q = [[1 # 2; 1 # 2]; [2 # 2; 2 # 2]]%Q
  /\ ~ peak_normalized_per_bin (convert (1 # 1000) [[1; 1]; [2; 2]]%Q).
Proof.
  split; [vm_compute; reflexivity|].
  intros H. apply Forall_cons_1 in H as [[Hpeak|Hzero] _].
  - vm_compute in Hpeak. discriminate.
  - apply Forall_cons_1 in Hzero as [Hz _]. vm_compute in Hz. discriminate.
Qed.

(** ** Sorting by a key *)

Section SortBy.
Context {A : Type} (key : A -> Q).

Lemma insert_by_In (x y : A) (l : list A) :
  In y (insert_by key x l) <-> y = x \/ In y l.
Proof.
  induction l as [|z l IH]; simpl.
  - intuition congruence.
  - destruct (Qle_bool (key z) (key x)); simpl; rewrite ?IH; intuition congruence.
Qed.

Lemma insert_by_sorted (x : A) (l : list A) :
  StronglySorted (key_le key) l -> StronglySorted (key_le key) (insert_by key x l).
Proof.
  induction 1 as [|z l Hl IH Hz]; simpl.
  - constructor; [constructor | constructor].
  - destruct (Qle_bool (key z) (key x)) eqn:Hzx.
    + apply Qle_bool_iff in Hzx. constructor; [exact IH|].
      apply List.Forall_forall. intros y Hy. apply insert_by_In in Hy as [-> | Hy].
      * exact Hzx.
      * eapply List.Forall_forall in Hz; [exact Hz | exact Hy].
    + assert (Hxz : (key x < key z)%Q).
      { apply Qnot_le_lt. intros Hle. apply Qle_bool_iff in Hle. congruence. }
      constructor; [constructor; assumption|].
      constructor; [unfold key_le; lra|].
      apply List.Forall_forall. intros y Hy.
      eapply List.Forall_forall in Hz; [|exact Hy]. unfold key_le in *. lra.
Qed.

Lemma fold_insert_by_In (l acc : list A) (y : A) :
  In y (fold_left (fun acc x => insert_by key x acc) l acc) <-> In y l \/ In y acc.
Proof.
  revert acc. induction l as [|x l IH]; intros acc; simpl.
  - tauto.
  - rewrite IH, insert_by_In. intuition congruence.
Qed.

Lemma fold_insert_by_sorted (l acc : list A) :
  StronglySorted (key_le key) acc ->
  StronglySorted (key_le key) (fold_left (fun acc x => insert_by key x acc) l acc).
Proof.
  revert acc. induction l as [|x l IH]; intros acc Hacc; simpl.
  - exact Hacc.
  - apply IH, insert_by_sorted, Hacc.
Qed.

Lemma sort_by_In (l : list A) (y : A) : In y (sort_by key l) <-> In y l.
Proof.
  unfold sort_by. rewrite fold_insert_by_In. simpl. tauto.
Qed.

Lemma sort_by_sorted (l : list A) : StronglySorted (key_le key) (sort_by key l).
Proof.
  apply fold_insert_by_sorted. constructor.
Qed.

Lemma sort_by_snoc (l : list A) (x : A) :
  sort_by key (l ++ [x]) = insert_by key x (sort_by key l).
Proof.
  unfold sort_by. rewrite fold_left_app. reflexivity.
Qed.

Lemma length_insert_by (x : A) (l : list A) :
  length (insert_by key x l) = S (length l).
Proof.
  induction l as [|z l IH]; simpl; [reflexivity|].
  destruct (Qle_bool (key z) (key x)); simpl; [rewrite IH|]; reflexivity.
Qed.

Lemma length_sort_by (l : list A) : length (sort_by key l) = length l.
Proof.
  induction l as [|x l IH] using rev_ind; [reflexivity|].
  rewrite sort_by_snoc, length_insert_by, length_app, IH. simpl. lia.
Qed.

End SortBy.

(** ** Free regions *)

Ltac minmax_step :=
  match goal with
  | |- context [Qmax ?a ?b] =>
      let m := fresh "m" in
      destruct (Q.max_spec a b) as [[? ?]|[? ?]]; set (m := Qmax a b) in *; clearbody m
  | |- context [Qmin ?a ?b] =>
      let m := fresh "m" in
      destruct (Q.min_spec a b) as [[? ?]|[? ?]]; set (m := Qmin a b) in *; clearbody m
  | H : context [Qmax ?a ?b] |- _ =>
      let m := fresh "m" in
      destruct (Q.max_spec a b) as [[? ?]|[? ?]]; set (m := Qmax a b) in *; clearbody m
  | H : context [Qmin ?a ?b] |- _ =>
      let m := fresh "m" in
      destruct (Q.min_spec a b) as [[? ?]|[? ?]]; set (m := Qmin a b) in *; clearbody m
  end.

(** Linear arithmetic over Q with [Qmax] and [Qmin]. *)
Ltac qlra := repeat minmax_step; lra.

Lemma in_gap (a b : Q) (r : Q * Q) : In r (gap a b) -> r = (a, b) /\ (a < b)%Q.
Proof.
  unfold gap. destruct (Qlt_le_dec a b) as [Hlt|Hle]; simpl; [|tauto].
  intros [<- | []]. split; [reflexivity | exact Hlt].
Qed.

Lemma sweep_regions (total cur : Q) (l : list occupied_entry) (r : Q * Q) :
  In r (sweep total cur l) ->
  (cur <= fst r /\ fst r < snd r /\ snd r <= total)%Q.
Proof.
  revert cur. induction l as [|o l IH]; intros cur Hr; simpl in Hr.
  - apply in_gap in Hr as [-> Hlt]. simpl. lra.
  - apply in_app_or in Hr as [Hr|Hr].
    + apply in_gap in Hr as [-> Hlt]. simpl. simpl in Hlt. qlra.
    + apply IH in Hr. qlra.
Qed.

Lemma sweep_disjoint (total cur : Q) (l : list occupied_entry) (r : Q * Q)
    (o : occupied_entry) :
  StronglySorted (key_le entry_start) l ->
  In r (sweep total cur l) -> In o l ->
  (snd r <= entry_start o \/ entry_end o <= fst r)%Q.
Proof.
  intros Hsorted. revert cur.
  induction Hsorted as [|o1 l Hl IH Ho1]; intros cur Hr Ho; [destruct Ho|].
  simpl in Hr. apply in_app_or in Hr as [Hr|Hr].
  - left. apply in_gap in Hr as [-> Hlt]. simpl.
    assert (entry_start o1 <= entry_start o)%Q.
    { destruct Ho as [<- | Ho]; [lra|].
      eapply List.Forall_forall in Ho1; [exact Ho1 | exact Ho]. }
    qlra.
  - destruct Ho as [<- | Ho].
    + right. apply sweep_regions in Hr. qlra.
    + apply (IH _ Hr Ho).
Qed.

(** ** The free space *)

Lemma free_space_app (l1 l2 : list (Q * Q)) :
  (free_space (l1 ++ l2) == free_space l1 + free_space l2)%Q.
Proof.
  induction l1 as [|r l1 IH]; simpl; [|rewrite IH]; ring.
Qed.

Lemma free_space_gap (a b : Q) : (a <= b)%Q -> (free_space (gap a b) == b - a)%Q.
Proof.
  intros Hab. unfold gap. destruct (Qlt_le_dec a b); simpl; lra.
Qed.

Lemma free_space_gap_empty (a b : Q) : (b <= a)%Q -> (free_space (gap a b) == 0)%Q.
Proof.
  intros Hab. unfold gap. destruct (Qlt_le_dec a b); simpl; lra.
Qed.

Lemma free_space_gap_ext (a a' b b' : Q) :
  (a == a')%Q -> (b == b')%Q -> (free_space (gap a b) == free_space (gap a' b'))%Q.
Proof.
  intros Ha Hb. destruct (Qlt_le_dec a b) as [Hlt|Hle].
  - rewrite !free_space_gap by lra. lra.
  - rewrite !free_space_gap_empty by lra. lra.
Qed.

Lemma free_space_sweep_nonneg (total cur : Q) (l : list occupied_entry) :
  (0 <= free_space (sweep total cur l))%Q.
Proof.
  pose proof (sweep_regions total cur l) as Hr.
  induction (sweep total cur l) as [|r rs IH]; simpl; [lra|].
  pose proof (Hr r (or_introl eq_refl)).
  assert (0 <= free_space rs)%Q by (apply IH; intros r' Hr'; apply Hr; right; exact Hr').
  lra.
Qed.

(** The free space depends on the cursor up to [==] only. *)
Lemma free_space_sweep_ext (total cur cur' : Q) (l : list occupied_entry) :
  (cur == cur')%Q ->
  (free_space (sweep total cur l) == free_space (sweep total cur' l))%Q.
Proof.
  revert cur cur'. induction l as [|o l IH]; intros cur cur' Hc; simpl.
  - apply free_space_gap_ext; [exact Hc | reflexivity].
  - rewrite !free_space_app.
    rewrite (free_space_gap_ext cur cur' _ _ Hc (Qeq_refl _)).
    rewrite (IH (Qmax cur (entry_end o)) (Qmax cur' (entry_end o))); [reflexivity|].
    rewrite Hc. reflexivity.
Qed.

Lemma free_space_sweep_le (total cur : Q) (l : list occupied_entry) :
  Forall wf_entry l ->
  ((cur <= total -> free_space (sweep total cur l) <= total - cur)
   /\ (total <= cur -> free_space (sweep total cur l) == 0))%Q.
Proof.
  intros Hwf. revert cur. induction Hwf as [|o l Ho _ IH]; intros cur; simpl.
  - split; intros H.
    + destruct (Qlt_le_dec cur total); [rewrite free_space_gap | rewrite free_space_gap_empty]; lra.
    + apply free_space_gap_empty, H.
  - unfold wf_entry in Ho. rewrite free_space_app.
    destruct (IH (Qmax cur (entry_end o))) as [IH1 IH2].
    pose proof (free_space_sweep_nonneg total (Qmax cur (entry_end o)) l) as Hnn.
    set (stop := Qmin (entry_start o) total).
    set (cur' := Qmax cur (entry_end o)) in *.
    assert (Hstop : (stop <= total /\ stop <= entry_start o)%Q) by (unfold stop; qlra).
    assert (Hcur' : (cur <= cur' /\ entry_end o <= cur')%Q) by (unfold cur'; qlra).
    split; intros H.
    + destruct (Qlt_le_dec cur stop) as [Hlt|Hle];
        [rewrite free_space_gap by lra | rewrite free_space_gap_empty by lra];
        destruct (Qlt_le_dec cur' total) as [Hc|Hc];
        try (specialize (IH1 ltac:(lra)); lra);
        specialize (IH2 Hc); lra.
    + rewrite free_space_gap_empty by lra. rewrite (IH2 ltac:(lra)). lra.
Qed.

(** Recording a window that lies in a free region takes exactly its length
    off the free space. *)
Lemma free_space_sweep_insert (total cur : Q) (l : list occupied_entry)
    (label : option string) (s d : Q) (r : Q * Q) :
  (0 < d)%Q -> Forall wf_entry l ->
  In r (sweep total cur l) -> inside (s, (s + d)%Q) r ->
  (free_space (sweep total cur (insert_by entry_start (label, s, (s + d)%Q) l))
   == free_space (sweep total cur l) - d)%Q.
Proof.
  intros Hd Hwf. revert cur.
  induction Hwf as [|o l Ho Hwf IH]; intros cur Hr [Hlo Hhi]; simpl in Hlo, Hhi.
  - simpl in Hr. apply in_gap in Hr as [-> Hlt]. simpl in Hlo, Hhi.
    cbn [insert_by sweep]. rewrite free_space_app.
    change (entry_start (label, s, (s + d)%Q)) with s.
    change (entry_end (label, s, (s + d)%Q)) with (s + d)%Q.
    rewrite (free_space_gap cur total) by lra.
    rewrite (free_space_gap cur (Qmin s total)) by qlra.
    rewrite (free_space_gap (Qmax cur (s + d)) total) by qlra.
    qlra.
  - unfold wf_entry in Ho. cbn [insert_by].
    change (entry_start (label, s, (s + d)%Q)) with s.
    simpl in Hr. apply in_app_or in Hr as [Hr|Hr].
    + apply in_gap in Hr as [-> Hlt]. simpl in Hlo, Hhi.
      assert (Hs : (s + d <= entry_start o /\ s + d <= total)%Q) by qlra.
      destruct (Qle_bool (entry_start o) s) eqn:Hos;
        [apply Qle_bool_iff in Hos; lra|].
      cbn [sweep]. rewrite !free_space_app.
      change (entry_start (label, s, (s + d)%Q)) with s.
      change (entry_end (label, s, (s + d)%Q)) with (s + d)%Q.
      rewrite (free_space_sweep_ext total (Qmax (Qmax cur (s + d)) (entry_end o))
                 (Qmax cur (entry_end o))) by qlra.
      rewrite (free_space_gap cur (Qmin (entry_start o) total)) by lra.
      rewrite (free_space_gap cur (Qmin s total)) by qlra.
      rewrite (free_space_gap (Qmax cur (s + d)) (Qmin (entry_start o) total)) by qlra.
      qlra.
    + pose proof (sweep_regions _ _ _ _ Hr) as (Hcur & _ & _).
      destruct (Qle_bool (entry_start o) s) eqn:Hos.
      * cbn [sweep]. rewrite !free_space_app.
        rewrite (IH _ Hr); [ring | split; assumption].
      * exfalso.
        assert (s < entry_start o)%Q.
        { apply Qnot_le_lt. intros Hle. apply Qle_bool_iff in Hle. congruence. }
        qlra.
Qed.

(** The two boundary cases of section 8 of the specification. *)
Lemma free_regions_of_nothing (total : Q) :
  (0 < total)%Q -> generate_non_overlapping_intervals [] total = [(0%Q, total)].
Proof.
  intros Htotal. unfold generate_non_overlapping_intervals. cbn [sort_by fold_left sweep].
  unfold gap. destruct (Qlt_le_dec 0 total); [reflexivity | lra].
Qed.

Lemma free_regions_of_full_cover (label : option string) (total d : Q) (dr : draw) :
  (0 <= total)%Q ->
  generate_non_overlapping_intervals [(label, 0%Q, total)] total = []
  /\ sample_non_overlapping_interval
       (generate_non_overlapping_intervals [(label, 0%Q, total)] total) d dr = None.
Proof.
  intros Htotal.
  assert (Hgen : generate_non_overlapping_intervals [(label, 0%Q, total)] total = []).
  { unfold generate_non_overlapping_intervals.
    cbn [sort_by fold_left insert_by sweep].
    change (entry_start (label, 0%Q, total)) with 0%Q.
    change (entry_end (label, 0%Q, total)) with total.
    unfold gap.
    destruct (Qlt_le_dec 0 (Qmin 0 total)) as [H1|H1]; [exfalso; qlra|].
    destruct (Qlt_le_dec (Qmax 0 total) total) as [H2|H2]; [exfalso; qlra|].
    reflexivity. }
  rewrite Hgen. split; reflexivity.
Qed.

(** ** The sampler *)

Lemma clamp01_range (u : Q) : (0 <= clamp01 u <= 1)%Q.
Proof.
  unfold clamp01. qlra.
Qed.

(** A sampled window is [d] long and lies in one of the regions. *)
Lemma sample_inside (regions : list (Q * Q)) (d : Q) (dr : draw) (w : Q * Q) :
  sample_non_overlapping_interval regions d dr = Some w ->
  snd w = (fst w + d)%Q /\ exists r, In r regions /\ inside w r.
Proof.
  unfold sample_non_overlapping_interval.
  destruct (filter _ regions) as [|r0 rs] eqn:Hf; [discriminate|].
  set (r := nth (pick dr mod length (r0 :: rs)) (r0 :: rs) r0).
  intros Hw.
  assert (Hw' : w = ((fst r + clamp01 (frac dr) * (snd r - d - fst r))%Q,
                     (fst r + clamp01 (frac dr) * (snd r - d - fst r) + d)%Q))
    by congruence.
  clear Hw. subst w. cbn [fst snd].
  split; [reflexivity|].
  assert (Hr : r ∈ filter (fun r => fits d r = true) regions).
  { rewrite Hf. apply list_elem_of_In, nth_In, Nat.mod_upper_bound. discriminate. }
  apply list_elem_of_filter in Hr as [Hfit Hr].
  exists r. split; [apply list_elem_of_In, Hr|].
  unfold fits in Hfit. apply Qle_bool_iff in Hfit.
  pose proof (clamp01_range (frac dr)) as [Hu0 Hu1].
  set (u := clamp01 (frac dr)) in *. set (L := (snd r - d - fst r)%Q).
  assert (H0 : (0 <= u * L)%Q) by (apply Qmult_le_0_compat; unfold L; lra).
  assert (H1 : (0 <= (1 - u) * L)%Q) by (apply Qmult_le_0_compat; unfold L; lra).
  unfold inside. cbn [fst snd]. fold L.
  assert (HL : ((1 - u) * L == L - u * L)%Q) by ring.
  rewrite HL in H1. unfold L in *. split; lra.
Qed.

Lemma sample_none (regions : list (Q * Q)) (d : Q) (dr : draw) :
  sample_non_overlapping_interval regions d dr = None
  <-> Forall (fun r => (snd r - fst r < d)%Q) regions.
Proof.
  unfold sample_non_overlapping_interval. split.
  - destruct (filter _ regions) as [|r0 rs] eqn:Hf; [|discriminate].
    intros _. apply List.Forall_forall. intros r Hr.
    apply Qnot_le_lt. intros Hle.
    apply (filter_nil_not_elem_of _ _ r Hf).
    + unfold fits. apply Qle_bool_iff, Hle.
    + apply list_elem_of_In, Hr.
  - intros Hall. destruct (filter _ regions) as [|r0 rs] eqn:Hf; [reflexivity|].
    assert (Hr0 : r0 ∈ filter (fun r => fits d r = true) regions)
      by (rewrite Hf; left).
    apply list_elem_of_filter in Hr0 as [Hfit Hr0].
    unfold fits in Hfit. apply Qle_bool_iff in Hfit.
    apply list_elem_of_In in Hr0.
    eapply List.Forall_forall in Hall; [|exact Hr0]. lra.
Qed.

(** ** The negative-sampling loop *)

Lemma wf_entry_sort_by (occupied : list occupied_entry) :
  Forall wf_entry occupied -> Forall wf_entry (sort_by entry_start occupied).
Proof.
  intros H. apply List.Forall_forall. intros o Ho.
  apply sort_by_In in Ho. eapply List.Forall_forall in H; [exact H | exact Ho].
Qed.

Lemma wf_entry_of_instance (instances : list instance) :
  Forall wf_instance instances -> Forall wf_entry (map of_instance instances).
Proof.
  intros H. apply List.Forall_forall. intros o Ho.
  apply in_map_iff in Ho as (i & <- & Hi).
  eapply List.Forall_forall in H; [exact H | exact Hi].
Qed.

(** One recorded window: the free space goes down by the window duration. *)
Lemma record_decreases (occupied : list occupied_entry) (d total : Q)
    (dr : draw) (samp : Q * Q) :
  (0 < d)%Q -> Forall wf_entry occupied ->
  sample_non_overlapping_interval
    (generate_non_overlapping_intervals occupied total) d dr = Some samp ->
  (free_space (generate_non_overlapping_intervals
                 (occupied ++ [(None, fst samp, snd samp)]) total)
   == free_space (generate_non_overlapping_intervals occupied total) - d)%Q
  /\ Forall wf_entry (occupied ++ [(None, fst samp, snd samp)]).
Proof.
  intros Hd Hwf Hs. apply sample_inside in Hs as (Hsnd & r & Hr & Hin).
  destruct samp as [s e]. cbn [fst snd] in *. subst e. split.
  - unfold generate_non_overlapping_intervals. rewrite sort_by_snoc.
    apply (free_space_sweep_insert total 0 _ None s d r Hd);
      [apply wf_entry_sort_by, Hwf | exact Hr | exact Hin].
  - apply Forall_app. split; [exact Hwf|].
    constructor; [|constructor]. unfold wf_entry, entry_start, entry_end. simpl. lra.
Qed.

Lemma none_loop_runs (rng : nat -> draw) (d total : Q) (fuel : nat) :
  (0 < d)%Q ->
  forall (k : nat) (occupied : list occupied_entry) (acc : list (Q * Q)),
    Forall wf_entry occupied ->
    (free_space (generate_non_overlapping_intervals occupied total)
     < inject_Z (Z.of_nat fuel) * d)%Q ->
    exists ws,
      none_loop rng d total fuel k occupied
        (generate_non_overlapping_intervals occupied total) acc = Some (acc ++ ws)
      /\ (inject_Z (Z.of_nat (length ws)) * d
          <= free_space (generate_non_overlapping_intervals occupied total))%Q.
Proof.
  intros Hd. induction fuel as [|fuel IH]; intros k occupied acc Hwf Hfuel.
  - exfalso.
    pose proof (free_space_sweep_nonneg total 0 (sort_by entry_start occupied)) as Hnn.
    unfold generate_non_overlapping_intervals in Hfuel.
    change (inject_Z (Z.of_nat 0)) with 0%Q in Hfuel. lra.
  - cbn [none_loop].
    destruct (sample_non_overlapping_interval _ d (rng k)) as [samp|] eqn:Hs.
    + destruct (record_decreases occupied d total (rng k) samp Hd Hwf Hs) as [Hdec Hwf'].
      destruct (IH (S k) _ (acc ++ [samp]) Hwf') as (ws & Hrun & Hlen).
      { rewrite Hdec. rewrite Nat2Z.inj_succ, <- Z.add_1_r, inject_Z_plus in Hfuel.
        change (inject_Z 1) with 1%Q in Hfuel. lra. }
      exists (samp :: ws). split.
      * rewrite Hrun, <- app_assoc. reflexivity.
      * rewrite Hdec in Hlen. cbn [length].
        rewrite Nat2Z.inj_succ, <- Z.add_1_r, inject_Z_plus.
        change (inject_Z 1) with 1%Q. lra.
    + exists []. split; [rewrite app_nil_r; reflexivity|].
      pose proof (free_space_sweep_nonneg total 0 (sort_by entry_start occupied)).
      unfold generate_non_overlapping_intervals. cbn [length].
      change (inject_Z (Z.of_nat 0)) with 0%Q. lra.
Qed.

(** What a finished run of the loop has recorded: windows [d] long inside
    [0, total], each clear of every interval occupied at the start, and a
    last call of the sampler that found no room. *)
Lemma none_loop_trace (rng : nat -> draw) (d total : Q) (fuel : nat) :
  forall (k : nat) (occupied : list occupied_entry) (acc res : list (Q * Q)),
    none_loop rng d total fuel k occupied
      (generate_non_overlapping_intervals occupied total) acc = Some res ->
    exists ws,
      res = acc ++ ws
      /\ sample_non_overlapping_interval
           (generate_non_overlapping_intervals
              (occupied ++ map (fun w => (None, fst w, snd w)) ws) total)
           d (rng (k + length ws)%nat) = None
      /\ forall w, In w ws ->
           snd w = (fst w + d)%Q
           /\ (0 <= fst w)%Q /\ (snd w <= total)%Q
           /\ forall o, In o occupied ->
                (snd w <= entry_start o \/ entry_end o <= fst w)%Q.
Proof.
  induction fuel as [|fuel IH]; intros k occupied acc res Hrun; [discriminate|].
  cbn [none_loop] in Hrun.
  destruct (sample_non_overlapping_interval _ d (rng k)) as [samp|] eqn:Hs.
  - apply IH in Hrun as (ws & -> & Hend & Hws).
    exists (samp :: ws). split; [rewrite <- app_assoc; reflexivity|]. split.
    + cbn [map length]. rewrite <- app_assoc in Hend. cbn [app] in Hend.
      replace (k + S (length ws))%nat with (S k + length ws)%nat by lia. exact Hend.
    + intros w [<- | Hw].
      * apply sample_inside in Hs as (Hsnd & r & Hr & Hlo & Hhi).
        unfold generate_non_overlapping_intervals in Hr.
        pose proof (sweep_regions _ _ _ _ Hr) as (H0 & _ & Htot).
        split; [exact Hsnd|]. split; [lra|]. split; [lra|].
        intros o Ho.
        destruct (sweep_disjoint total 0 _ r o (sort_by_sorted entry_start occupied) Hr)
          as [Hd|Hd]; [apply sort_by_In, Ho | left; lra | right; lra].
      * destruct (Hws w Hw) as (Hsnd & H0 & Htot & Hdis).
        split; [exact Hsnd|]. split; [exact H0|]. split; [exact Htot|].
        intros o Ho. apply Hdis, in_or_app. left. exact Ho.
  - inversion Hrun; subst res. exists []. split; [rewrite app_nil_r; reflexivity|].
    split; [|intros w []].
    cbn [map length]. rewrite app_nil_r, Nat.add_0_r. exact Hs.
Qed.

(** C7: the negative-sampling loop terminates.  Each iteration that records
    a window takes the window duration off the free space, so a fuel above
    total / d is enough whatever the generator draws, the loop then ends on
    the unavailable signal, and the number of recorded windows times the
    window duration is at most the total duration. *)
Theorem none_loop_terminates (rng : nat -> draw) (d total : Q) (k : nat)
    (instances : list instance) :
  (0 < d)%Q -> (0 <= total)%Q -> Forall wf_instance instances ->
  (forall occupied dr samp,
      Forall wf_entry occupied ->
      sample_non_overlapping_interval
        (generate_non_overlapping_intervals occupied total) d dr = Some samp ->
      (free_space (generate_non_overlapping_intervals
                     (occupied ++ [(None, fst samp, snd samp)]) total)
       < free_space (generate_non_overlapping_intervals occupied total))%Q)
  /\ (forall fuel : nat,
         (Z.to_nat (Qfloor (total / d)) < fuel)%nat ->
         exists ws,
           none_loop rng d total fuel k (map of_instance instances)
             (generate_non_overlapping_intervals (map of_instance instances) total) []
           = Some ws
           /\ (inject_Z (Z.of_nat (length ws)) * d <= total)%Q
           /\ sample_non_overlapping_interval
                (generate_non_overlapping_intervals
                   (map of_instance instances
                      ++ map (fun w => (None, fst w, snd w)) ws) total)
                d (rng (k + length ws)%nat) = None).
Proof.
  intros Hd Htotal Hwf. split.
  - intros occupied dr samp Hocc Hs.
    destruct (record_decreases occupied d total dr samp Hd Hocc Hs) as [Hdec _].
    rewrite Hdec. lra.
  - intros fuel Hfuel.
    pose proof (wf_entry_of_instance instances Hwf) as Hocc.
    assert (Hspace : (free_space (generate_non_overlapping_intervals
                                    (map of_instance instances) total) <= total)%Q).
    { unfold generate_non_overlapping_intervals.
      destruct (free_space_sweep_le total 0 _ (wf_entry_sort_by _ Hocc)) as [Hle _].
      specialize (Hle Htotal). lra. }
    assert (Henough : (total < inject_Z (Z.of_nat fuel) * d)%Q).
    { pose proof (Qlt_floor (total / d)) as Hfl.
      assert (Hz : (inject_Z (Qfloor (total / d) + 1) <= inject_Z (Z.of_nat fuel))%Q)
        by (rewrite <- Zle_Qle; lia).
      assert (Hq : (total / d < inject_Z (Z.of_nat fuel))%Q) by lra.
      apply (Qmult_lt_r _ _ d Hd) in Hq.
      assert (Hfd : (total / d * d == total)%Q) by (field; lra).
      lra. }
    destruct (none_loop_runs rng d total fuel Hd k _ [] Hocc) as (ws & Hrun & Hlen);
      [lra|].
    exists ws. split; [exact Hrun|]. split; [lra|].
    destruct (none_loop_trace rng d total fuel k _ [] _ Hrun) as (ws' & Heq & Hend & _).
    cbn [app] in Heq. subst ws'. exact Hend.
Qed.

Lemma none_loop_terminates_witness :
  exists ws,
    none_loop example_rng 15 140 10 0 (map of_instance tight_gap_instances)
      (generate_non_overlapping_intervals (map of_instance tight_gap_instances) 140) []
    = Some ws
    /\ (inject_Z (Z.of_nat (length ws)) * 15 <= 140)%Q.
Proof.
  destruct (proj2 (none_loop_terminates example_rng 15 140 0 tight_gap_instances
                     ltac:(reflexivity) ltac:(discriminate)
                     ltac:(repeat constructor; discriminate))
              10%nat ltac:(vm_compute; lia))
    as (ws & Hrun & Hlen & _).
  exists ws. split; [exact Hrun | exact Hlen].
Defined.

(** ** Negative samples and the annotated instances *)

Lemma none_windows_trace (rng : nat -> draw) (d total : Q) (fuel k : nat)
    (instances : list instance) (ws : list (Q * Q)) :
  none_windows rng d total fuel k instances = Some ws ->
  forall w, In w ws ->
    snd w = (fst w + d)%Q
    /\ (0 <= fst w)%Q /\ (snd w <= total)%Q
    /\ forall i, In i instances ->
         (snd w <= snd (fst i) \/ snd i <= fst w)%Q.
Proof.
  unfold none_windows. intros Hws w Hw.
  destruct (none_loop _ _ _ _ _ _ _ _) as [res|] eqn:Hrun; [|discriminate].
  inversion Hws; subst ws; clear Hws.
  apply sort_by_In in Hw.
  apply none_loop_trace in Hrun as (ws & Heq & _ & Hall).
  cbn [app] in Heq. subst res.
  destruct (Hall w Hw) as (Hsnd & H0 & Htot & Hdis).
  split; [exact Hsnd|]. split; [exact H0|]. split; [exact Htot|].
  intros i Hi. apply (Hdis (of_instance i) (in_map of_instance _ _ Hi)).
Qed.

(** C1, as the code has it: the window of a negative sample, in seconds,
    meets no annotated instance of its recording; in frames, the window
    without its last frame, [start_frame, start_frame + duration_samples - 1),
    meets the frame range of no instance, as long as duration_samples - 1
    frames are less than duration_sec seconds (645 < 645.996 by default). *)
Theorem negative_samples_avoid_instances (rng : nat -> draw) (d total : Q)
    (fuel k : nat) (instances : list instance) (version act : string)
    (duration_samples : Z) (ws : list (Q * Q)) (x : none_sample) (i : instance) :
  none_windows rng d total fuel k instances = Some ws ->
  (inject_Z (duration_samples - 1) < d * (22050 # 512))%Q ->
  In x (negative_samples version act duration_samples ws) ->
  In i instances ->
  (exists w,
      In w ws
      /\ none_start x = sec_to_frame (fst w)
      /\ none_end x = sec_to_frame (fst w) + duration_samples
      /\ snd w = (fst w + d)%Q
      /\ (snd w <= snd (fst i) \/ snd i <= fst w)%Q)
  /\ forall f : Z,
      none_start x <= f < none_end x - 1 ->
      ~ (sec_to_frame (snd (fst i)) <= f < sec_to_frame (snd i)).
Proof.
  intros Hws HN Hx Hi.
  apply in_map_iff in Hx as (w & <- & Hw).
  destruct (none_windows_trace _ _ _ _ _ _ _ Hws w Hw) as (Hsnd & _ & _ & Hdis).
  specialize (Hdis i Hi). cbn [none_start none_end fst snd].
  split; [exists w; repeat split; assumption|].
  intros f [Hlo Hhi] [Hfa Hfb].
  destruct Hdis as [Hbefore|Hafter].
  - pose proof (sec_to_frame_upper (fst w)) as Hup.
    pose proof (sec_to_frame_lower (snd (fst i))) as Hdown.
    assert (H1 : (inject_Z (sec_to_frame (snd (fst i))) <= inject_Z f)%Q)
      by (rewrite <- Zle_Qle; exact Hfa).
    assert (H2 : (inject_Z (f + 1)
                  <= inject_Z (sec_to_frame (fst w) + (duration_samples - 1)))%Q)
      by (rewrite <- Zle_Qle; lia).
    rewrite !inject_Z_plus in H2. change (inject_Z 1) with 1%Q in H2.
    rewrite Hsnd in Hbefore.
    assert (H3 : ((fst w + d) * (22050 # 512) <= snd (fst i) * (22050 # 512))%Q)
      by (apply Qmult_le_compat_r; [exact Hbefore | discriminate]).
    lra.
  - pose proof (sec_to_frame_mono _ _ Hafter). lia.
Qed.

Lemma negative_samples_avoid_instances_witness :
  none_windows example_rng 15 140 10 0 tight_gap_instances = Some [((226 # 2)%Q, (256 # 2)%Q)]
  /\ ~ (sec_to_frame 128 <= 5511 < sec_to_frame 140).
Proof.
  split; [vm_compute; reflexivity|].
  apply (proj2 (negative_samples_avoid_instances example_rng 15 140 10 0
                  tight_gap_instances "A" "1" 646 [((226 # 2)%Q, (256 # 2)%Q)]
                  ("A"%string, "1"%string, 4867, 5513)
                  ("MotifA"%string, 128%Q, 140%Q)
                  ltac:(vm_compute; reflexivity) ltac:(reflexivity)
                  ltac:(vm_compute; left; reflexivity)
                  ltac:(left; reflexivity)) 5511).
  cbn [none_start none_end fst snd]. lia.
Defined.

(** C1, as the specification has it, fails: with MotifA over [128, 140) and
    MotifB over [0, 113) the sampler has only the region [113, 128), the
    negative sample is frames [4867, 5513), and frame 5512 is also the first
    frame of MotifA, whose frame range is [5512, 6029). *)
Lemma negative_sample_meets_instance :
  exists ds,
    tight_gap_init = Some (Ok ds)
    /\ none_samples ds = [("A"%string, "1"%string, 4867, 5513)]
    /\ In ("MotifA"%string, 128%Q, 140%Q) tight_gap_instances
    /\ ~ frames_disjoint ("A"%string, "1"%string, 4867, 5513)
           ("MotifA"%string, 128%Q, 140%Q).
Proof.
  eexists. split; [vm_compute; reflexivity|].
  split; [vm_compute; reflexivity|].
  split; [left; reflexivity|].
  intros H.
  assert (E1 : sec_to_frame 128 = 5512) by (vm_compute; reflexivity).
  assert (E2 : sec_to_frame 140 = 6029) by (vm_compute; reflexivity).
  apply (H 5512); cbn [none_start none_end fst snd]; rewrite ?E1, ?E2; lia.
Qed.

(** ** The dataset built by __init__ *)

Lemma ground_truth_length (motif2idx : gmap string nat) (n_frames : nat)
    (instances : list instance) (gt : list (list Z)) :
  ground_truth motif2idx n_frames instances = Ok gt -> length gt = n_frames.
Proof.
  unfold ground_truth, zeros. intros Hgt.
  destruct (Z.of_nat n_frames <? 0) eqn:Hn; [apply Z.ltb_lt in Hn; lia|].
  cbn in Hgt. rewrite Nat2Z.id in Hgt.
  destruct (mark_instances _ _ _) as [gt1|e] eqn:Hm; [|discriminate].
  cbn in Hgt. inversion Hgt; subst gt; clear Hgt.
  apply mark_instances_binary in Hm as [_ Hlen];
    [|apply Forall_replicate; split; [reflexivity | apply Forall_replicate; left; reflexivity]].
  rewrite length_map, Hlen, length_replicate. reflexivity.
Qed.

Lemma bind_Ok {A B : Type} (r : result A) (k : A -> result B) (b : B) :
  r ≫= k = Ok b -> exists a, r = Ok a /\ k a = Ok b.
Proof.
  destruct r as [a|e]; [|discriminate]. intros H. exists a. split; [reflexivity | exact H].
Qed.

Lemma load_recording_length (motif2idx : gmap string nat)
    (annotations : gmap (string * string) (list instance))
    (stem version act : string) (n_frames : nat)
    (instances : list instance) (gt : list (list Z)) :
  load_recording motif2idx annotations stem n_frames
  = Ok (version, act, instances, gt) ->
  length gt = n_frames.
Proof.
  unfold load_recording. intros H.
  apply bind_Ok in H as (v & _ & H).
  apply bind_Ok in H as (a & _ & H).
  apply bind_Ok in H as (insts & _ & H).
  apply bind_Ok in H as (g & Hg & H).
  inversion H; subst. apply (ground_truth_length _ _ _ _ Hg).
Qed.

Lemma add_recording_inv (motif2idx : gmap string nat)
    (annotations : gmap (string * string) (list instance))
    (rng : nat -> draw) (fuel : nat) (duration_samples : Z)
    (st st' : LeitmotifDataset * nat) (fn : pkl_file) :
  add_recording motif2idx annotations rng fuel duration_samples st fn = Some (Ok st') ->
  dataset_inv duration_samples (fst st) -> dataset_inv duration_samples (fst st').
Proof.
  destruct st as [ds k], fn as [stem c]. unfold add_recording.
  destruct (load_recording _ _ _ _) as [[[[version act] instances] gt]|e] eqn:Hload;
    [|discriminate].
  destruct (none_windows _ _ _ _ _ _) as [ws|]; [|discriminate].
  intros H (Hrows & Hpos & Hneg). inversion H; subst st'; clear H.
  apply load_recording_length in Hload.
  split; [|split]; cbn [fst cqt instances_gt samples none_samples].
  - intros key c' g' Hc Hg.
    destruct (decide (stem = key)) as [->|Hne].
    + rewrite lookup_insert_eq in Hc. rewrite lookup_insert_eq in Hg. congruence.
    + rewrite lookup_insert_ne in Hc by exact Hne.
      rewrite lookup_insert_ne in Hg by exact Hne. apply (Hrows key c' g' Hc Hg).
  - apply Forall_app. split; [exact Hpos|].
    apply List.Forall_forall. intros x Hx. apply in_map_iff in Hx as (y & <- & _).
    reflexivity.
  - apply Forall_app. split; [exact Hneg|].
    apply List.Forall_forall. intros x Hx. apply in_map_iff in Hx as (y & <- & _).
    reflexivity.
Qed.

Lemma init_loop_inv (motif2idx : gmap string nat)
    (annotations : gmap (string * string) (list instance))
    (rng : nat -> draw) (fuel : nat) (duration_samples : Z)
    (pkl_fns : list pkl_file) (st st' : LeitmotifDataset * nat) :
  init_loop motif2idx annotations rng fuel duration_samples st pkl_fns = Some (Ok st') ->
  dataset_inv duration_samples (fst st) -> dataset_inv duration_samples (fst st').
Proof.
  revert st. induction pkl_fns as [|fn rest IH]; intros st H Hinv; cbn [init_loop] in H.
  - inversion H; subst. exact Hinv.
  - destruct (add_recording _ _ _ _ _ st fn) as [[st1|e]|] eqn:Hadd; try discriminate.
    apply (IH st1 H). apply (add_recording_inv _ _ _ _ _ _ _ _ Hadd Hinv).
Qed.

Lemma init_inv (motif2idx : gmap string nat)
    (annotations : gmap (string * string) (list instance))
    (rng : nat -> draw) (fuel : nat) (pkl_fns : list pkl_file)
    (duration_sec : Q) (duration_samples : Z) (ds : LeitmotifDataset) :
  init motif2idx annotations rng fuel pkl_fns duration_sec duration_samples = Some (Ok ds) ->
  dataset_inv duration_samples ds.
Proof.
  unfold init. intros H.
  destruct (init_loop _ _ _ _ _ _ _) as [[st|e]|] eqn:Hloop; try discriminate.
  inversion H; subst ds.
  apply (init_loop_inv _ _ _ _ _ _ _ _ Hloop).
  split; [|split]; cbn; [intros key c g Hc; rewrite lookup_empty in Hc; discriminate | constructor..].
Qed.

Lemma py_index_In {A : Type} (l : list A) (idx : Z) (x : A) :
  py_index l idx = Ok x -> In x l.
Proof.
  unfold py_index, from_option. intros H.
  destruct (idx <? 0); [destruct (idx + Z.of_nat (length l) <? 0); [discriminate|]|];
    destruct (l !! _) as [y|] eqn:Hy; try discriminate;
    inversion H; subst; apply list_elem_of_In, list_elem_of_lookup; eauto.
Qed.

(** What the accessor returns in a dataset built by __init__, whatever the
    recordings are: the window of sample idx is the slice
    [start : start + duration_samples] of the spectral matrix of a
    recording; the two components have the same number of frames for a
    positive sample, the label window has duration_samples frames for a
    negative sample, no component is longer than duration_samples, and both
    have exactly duration_samples frames when the window lies inside the
    recording. *)
Lemma getitem_window_slices (motif2idx : gmap string nat)
    (annotations : gmap (string * string) (list instance))
    (rng : nat -> draw) (fuel : nat) (pkl_fns : list pkl_file)
    (duration_sec : Q) (duration_samples : Z) (ds : LeitmotifDataset)
    (idx : Z) (w : list (list Q)) (l : list (list Z)) :
  init motif2idx annotations rng fuel pkl_fns duration_sec duration_samples = Some (Ok ds) ->
  0 <= duration_samples ->
  getitem ds idx = Ok (w, l) ->
  exists key start c,
    cqt ds !! key = Some c
    /\ w = py_slice start (start + duration_samples) c
    /\ (idx < Z.of_nat (length (samples ds)) -> length l = length w)
    /\ (Z.of_nat (length (samples ds)) <= idx -> Z.of_nat (length l) = duration_samples)
    /\ Z.of_nat (length w) <= duration_samples
    /\ Z.of_nat (length l) <= duration_samples
    /\ (0 <= start -> start + duration_samples <= Z.of_nat (length c) ->
        Z.of_nat (length w) = duration_samples
        /\ Z.of_nat (length l) = duration_samples).
Proof.
  intros Hinit HN Hget.
  destruct (init_inv _ _ _ _ _ _ _ _ Hinit) as (Hrows & Hpos & Hneg).
  destruct (Z_lt_le_dec idx (Z.of_nat (length (samples ds)))) as [Hlt|Hge].
  - destruct (py_index (samples ds) idx) as [x|e] eqn:Hx.
    2:{ unfold getitem in Hget. apply Z.ltb_lt in Hlt. rewrite Hlt, Hx in Hget. discriminate. }
    rewrite (getitem_positive ds idx x Hlt Hx) in Hget.
    apply py_index_In in Hx. eapply List.Forall_forall in Hpos; [|exact Hx].
    unfold py_getitem in Hget.
    destruct (cqt ds !! _) as [c|] eqn:Hc; [|discriminate].
    destruct (instances_gt ds !! _) as [g|] eqn:Hg; [|discriminate].
    cbn in Hget. inversion Hget; subst w l; clear Hget.
    rewrite Hpos. pose proof (Hrows _ c g Hc Hg) as Hcg.
    exists (recording_key (sample_version x) (sample_act x)), (sample_start x), c.
    split; [exact Hc|]. split; [reflexivity|].
    pose proof (length_py_slice_same (sample_start x) (sample_start x + duration_samples)
                  c g Hcg) as Hsame.
    pose proof (length_py_slice_le (sample_start x) (sample_start x + duration_samples)
                  c ltac:(lia)) as Hle.
    split; [intros _; symmetry; exact Hsame|]. split; [lia|].
    split; [lia|]. split; [rewrite <- Hsame; lia|].
    intros H0 Hin. rewrite <- Hsame.
    rewrite (length_py_slice_inside _ _ c) by lia. lia.
  - destruct (py_index (none_samples ds) (idx - Z.of_nat (length (samples ds))))
      as [x|e] eqn:Hx.
    2:{ unfold getitem in Hget. apply Z.ltb_ge in Hge. rewrite Hge, Hx in Hget. discriminate. }
    rewrite (getitem_negative ds idx x Hge Hx) in Hget.
    apply py_index_In in Hx. eapply List.Forall_forall in Hneg; [|exact Hx].
    unfold py_getitem in Hget.
    destruct (cqt ds !! _) as [c|] eqn:Hc; [|discriminate].
    cbn in Hget. rewrite Hneg in Hget.
    replace (none_start x + duration_samples - none_start x) with duration_samples
      in Hget by lia.
    unfold zeros in Hget.
    destruct (duration_samples <? 0) eqn:Hneg0; [apply Z.ltb_lt in Hneg0; lia|].
    cbn in Hget. inversion Hget; subst w l; clear Hget.
    exists (recording_key (none_version x) (none_act x)), (none_start x), c.
    split; [exact Hc|]. split; [reflexivity|].
    pose proof (length_py_slice_le (none_start x) (none_start x + duration_samples)
                  c ltac:(lia)) as Hle.
    rewrite length_replicate.
    split; [lia|]. split; [lia|]. split; [lia|]. split; [lia|].
    intros H0 Hin. rewrite (length_py_slice_inside _ _ c) by lia. lia.
Qed.

(** C3, as the specification has it, fails: in a recording of 100 frames with
    one annotation, the positive sample has the frame range [0, 646) and the
    accessor returns two windows of 100 frames, not 646. *)
Lemma getitem_window_shorter :
  short_recording_init = Some (Ok short_recording_dataset)
  /\ samples short_recording_dataset = [("A"%string, "1"%string, "MotifA"%string, 0, 646)]
  /\ getitem short_recording_dataset 0 = Ok short_recording_windows
  /\ length (fst short_recording_windows) = 100%nat
  /\ length (snd short_recording_windows) = 100%nat
  /\ length (fst short_recording_windows) <> 646%nat.
Proof.
  split; [vm_compute; reflexivity|].
  split; [vm_compute; reflexivity|].
  split; [vm_compute; reflexivity|].
  split; [vm_compute; reflexivity|].
  split; [vm_compute; reflexivity|].
  vm_compute. discriminate.
Qed.

Lemma length_py_slice_le_length {A : Type} (start stop : Z) (l : list A) :
  (length (py_slice start stop l) <= length l)%nat.
Proof.
  unfold py_slice. rewrite length_take, length_drop. lia.
Qed.

(** With the default durations (646 < 15 * 22050 / 512 + 1/2) the window of
    a negative sample lies inside its recording, so the accessor returns
    646 frames in both components for it. *)
Lemma negative_samples_in_recording (rng : nat -> draw) (d : Q) (fuel k : nat)
    (instances : list instance) (n_frames : nat) (version act : string)
    (duration_samples : Z) (ws : list (Q * Q)) (x : none_sample) :
  none_windows rng d (inject_Z (total_duration (Z.of_nat n_frames))) fuel k instances
  = Some ws ->
  (inject_Z duration_samples < d * (22050 # 512) + (1 # 2))%Q ->
  In x (negative_samples version act duration_samples ws) ->
  0 <= none_start x /\ none_end x <= Z.of_nat n_frames.
Proof.
  intros Hws HN Hx.
  apply in_map_iff in Hx as (w & <- & Hw).
  destruct (none_windows_trace _ _ _ _ _ _ _ Hws w Hw) as (Hsnd & H0 & Htot & _).
  cbn [none_start none_end fst snd]. split.
  - change 0 with (sec_to_frame 0). apply sec_to_frame_mono, H0.
  - pose proof (sec_to_frame_upper (fst w)) as Hup.
    destruct (frame_to_sec_bounds (Z.of_nat n_frames)) as [Hsec _].
    fold (total_duration (Z.of_nat n_frames)) in Hsec.
    set (total := inject_Z (total_duration (Z.of_nat n_frames))) in *.
    rewrite Hsnd in Htot.
    assert (H1 : (fst w * (22050 # 512) <= (total - d) * (22050 # 512))%Q)
      by (apply Qmult_le_compat_r; [lra | discriminate]).
    assert (H2 : (inject_Z (sec_to_frame (fst w) + duration_samples)
                  < inject_Z (Z.of_nat n_frames + 1))%Q).
    { rewrite !inject_Z_plus. change (inject_Z 1) with 1%Q. lra. }
    rewrite <- Zlt_Qlt in H2. lia.
Qed.

(** ** What the ground-truth tensor holds *)

Lemma assign_rows_lookup (i lo hi : Z) (col : nat) (v : Z) (rows : list (list Z)) (k : nat) :
  assign_rows i lo hi col v rows !! k
  = (fun r => if (lo <=? i + Z.of_nat k) && (i + Z.of_nat k <? hi)
              then <[col := v]> r else r) <$> rows !! k.
Proof.
  revert i k. induction rows as [|r rows IH]; intros i k; [destruct k; reflexivity|].
  destruct k as [|k]; cbn [assign_rows].
  - cbn. rewrite Z.add_0_r. reflexivity.
  - cbn [lookup list_lookup]. change (assign_rows (i + 1) lo hi col v rows !! k
      = (fun r => if (lo <=? i + Z.of_nat (S k)) && (i + Z.of_nat (S k) <? hi)
                  then <[col := v]> r else r) <$> rows !! k).
    rewrite IH. replace (i + 1 + Z.of_nat k) with (i + Z.of_nat (S k)) by lia.
    reflexivity.
Qed.

(** After the loop of lines 33 to 40, a cell is 1 where an instance with
    that column covers the frame, and is as before elsewhere. *)
Lemma mark_instances_cell (motif2idx : gmap string nat) (instances : list instance)
    (gt gt' : list (list Z)) (f : nat) (r' : list Z) (j : nat) :
  mark_instances motif2idx gt instances = Ok gt' ->
  gt' !! f = Some r' ->
  exists r,
    gt !! f = Some r /\ length r' = length r
    /\ r' !! j
       = if marked_b motif2idx (Z.of_nat (length gt)) instances j (Z.of_nat f)
            && (j <? length r)%nat
         then Some 1 else r !! j.
Proof.
  revert gt. induction instances as [|[[motif start] stop] rest IH]; intros gt Hm Hr'.
  - inversion Hm; subst gt'. exists r'. split; [exact Hr'|]. split; reflexivity.
  - cbn [mark_instances] in Hm.
    apply bind_Ok in Hm as (motif_idx & Hidx & Hm).
    apply bind_Ok in Hm as (gt1 & Hmark & Hm).
    unfold py_getitem, from_option in Hidx.
    destruct (motif2idx !! motif) as [mi|] eqn:Hmi; [|discriminate].
    inversion Hidx; subst mi; clear Hidx.
    unfold mark in Hmark. destruct (motif_idx <? 21)%nat; [|discriminate].
    inversion Hmark; subst gt1; clear Hmark.
    destruct (IH _ Hm Hr') as (r1 & Hr1 & Hlen1 & Hcell).
    rewrite length_assign_rows in Hcell.
    rewrite assign_rows_lookup in Hr1.
    destruct (gt !! f) as [r|] eqn:Hr; [|discriminate].
    cbn in Hr1. inversion Hr1; subst r1; clear Hr1.
    exists r. split; [reflexivity|]. rewrite Z.add_0_l in *.
    cbn [marked_b existsb fst snd]. rewrite Hmi.
    fold (marked_b motif2idx (Z.of_nat (length gt)) rest j (Z.of_nat f)).
    unfold covers_b. cbn [fst snd].
    set (inrange := (slice_index (Z.of_nat (length gt)) (sec_to_frame start) <=? Z.of_nat f)
                    && (Z.of_nat f <? slice_index (Z.of_nat (length gt)) (sec_to_frame stop)))
      in *.
    destruct inrange.
    + rewrite length_insert in Hlen1, Hcell. split; [exact Hlen1|].
      rewrite Hcell.
      destruct (marked_b _ _ rest j _), (Nat.eqb_spec motif_idx j) as [->|Hne],
        (j <? length r)%nat eqn:Hj; cbn [andb orb]; try reflexivity;
        first [ apply list_lookup_insert_ne; exact Hne
              | apply Nat.ltb_lt in Hj; apply list_lookup_insert_eq; exact Hj
              | apply Nat.ltb_ge in Hj; rewrite list_insert_ge by lia; reflexivity ].
    + split; [exact Hlen1|]. rewrite Hcell.
      destruct (marked_b _ _ rest j _), (motif_idx =? j)%nat, (j <? length r)%nat;
        reflexivity.
Qed.

Lemma ground_truth_unfold (motif2idx : gmap string nat) (n_frames : nat)
    (instances : list instance) (gt : list (list Z)) :
  ground_truth motif2idx n_frames instances = Ok gt ->
  exists gt1,
    mark_instances motif2idx (replicate n_frames (replicate 21 0)) instances = Ok gt1
    /\ gt = map set_none gt1
    /\ Forall binary_row gt1 /\ length gt1 = n_frames.
Proof.
  unfold ground_truth, zeros. intros Hgt.
  destruct (Z.of_nat n_frames <? 0) eqn:Hn; [apply Z.ltb_lt in Hn; lia|].
  cbn in Hgt. rewrite Nat2Z.id in Hgt.
  destruct (mark_instances _ _ _) as [gt1|e] eqn:Hm; [|discriminate].
  cbn in Hgt. inversion Hgt; subst gt; clear Hgt.
  exists gt1. split; [reflexivity|]. split; [reflexivity|].
  apply mark_instances_binary in Hm as [Hbin Hlen];
    [|apply Forall_replicate; split; [reflexivity | apply Forall_replicate; left; reflexivity]].
  rewrite length_replicate in Hlen. split; assumption.
Qed.

(** The motif cells of the tensor, as a computation. *)
Lemma ground_truth_cell_b (motif2idx : gmap string nat) (n_frames : nat)
    (instances : list instance) (gt : list (list Z)) (f : nat) (row : list Z) (j : nat) :
  ground_truth motif2idx n_frames instances = Ok gt ->
  gt !! f = Some row -> (j < 20)%nat ->
  row !! j
  = Some (if marked_b motif2idx (Z.of_nat n_frames) instances j (Z.of_nat f) then 1 else 0).
Proof.
  intros Hgt Hrow Hj.
  apply ground_truth_unfold in Hgt as (gt1 & Hm & -> & Hbin & Hlen).
  rewrite list_lookup_fmap in Hrow.
  destruct (gt1 !! f) as [r1|] eqn:Hr1; [|discriminate].
  inversion Hrow; subst row; clear Hrow.
  destruct (Forall_lookup_1 _ _ _ _ Hbin Hr1) as [Hlen1 _].
  rewrite (set_none_eq r1 Hlen1), list_lookup_insert_ne by lia.
  destruct (mark_instances_cell _ _ _ _ f r1 j Hm Hr1) as (r0 & Hr0 & Hlen0 & Hcell).
  rewrite length_replicate in Hcell.
  apply lookup_replicate in Hr0 as [-> _].
  rewrite Hcell, length_replicate.
  destruct (Nat.ltb_spec j 21); [|lia].
  rewrite andb_true_r, lookup_replicate_2 by lia.
  destruct (marked_b _ _ _ _ _); reflexivity.
Qed.

Lemma covers_b_nonneg (n : Z) (i : instance) (f : Z) :
  nonneg_instance i -> 0 <= f < n ->
  covers_b n i f = true <-> sec_to_frame (snd (fst i)) <= f < sec_to_frame (snd i).
Proof.
  intros [Hs He] Hf. unfold covers_b.
  pose proof (sec_to_frame_mono _ _ Hs) as Hs'.
  pose proof (sec_to_frame_mono _ _ He) as He'.
  change (sec_to_frame 0) with 0 in Hs', He'.
  unfold slice_index.
  destruct (sec_to_frame (snd (fst i)) <? 0) eqn:H1; [apply Z.ltb_lt in H1; lia|].
  destruct (sec_to_frame (snd i) <? 0) eqn:H2; [apply Z.ltb_lt in H2; lia|].
  rewrite andb_true_iff, Z.leb_le, Z.ltb_lt. lia.
Qed.

Lemma marked_b_nonneg (motif2idx : gmap string nat) (n : Z)
    (instances : list instance) (j : nat) (f : Z) :
  Forall nonneg_instance instances -> 0 <= f < n ->
  marked_b motif2idx n instances j f = true
  <-> exists i, In i instances /\ motif2idx !! fst (fst i) = Some j
                /\ sec_to_frame (snd (fst i)) <= f < sec_to_frame (snd i).
Proof.
  intros Hnn Hf. unfold marked_b. rewrite existsb_exists. split.
  - intros (i & Hi & Hb). exists i. split; [exact Hi|].
    destruct (motif2idx !! fst (fst i)) as [j'|]; [|discriminate].
    apply andb_true_iff in Hb as [Hjj Hc]. apply Nat.eqb_eq in Hjj. subst j'.
    split; [reflexivity|]. apply (covers_b_nonneg n i f); [|exact Hf | exact Hc].
    eapply List.Forall_forall in Hnn; [exact Hnn | exact Hi].
  - intros (i & Hi & Hm & Hc). exists i. split; [exact Hi|]. rewrite Hm.
    rewrite Nat.eqb_refl. cbn [andb]. apply (covers_b_nonneg n i f); [|exact Hf | exact Hc].
    eapply List.Forall_forall in Hnn; [exact Hnn | exact Hi].
Qed.

(** X1: a motif cell of the ground-truth tensor is 1 exactly when an
    annotation of that motif covers the frame, and 0 otherwise. *)
Theorem ground_truth_motif_cell (motif2idx : gmap string nat) (n_frames : nat)
    (instances : list instance) (gt : list (list Z)) (f : nat) (row : list Z) (j : nat) :
  ground_truth motif2idx n_frames instances = Ok gt ->
  Forall nonneg_instance instances ->
  gt !! f = Some row -> (j < 20)%nat ->
  (row !! j = Some 1 \/ row !! j = Some 0)
  /\ (row !! j = Some 1
      <-> exists i, In i instances /\ motif2idx !! fst (fst i) = Some j
                    /\ sec_to_frame (snd (fst i)) <= Z.of_nat f < sec_to_frame (snd i)).
Proof.
  intros Hgt Hnn Hrow Hj.
  assert (Hf : 0 <= Z.of_nat f < Z.of_nat n_frames).
  { apply lookup_lt_Some in Hrow. rewrite (ground_truth_length _ _ _ _ Hgt) in Hrow. lia. }
  rewrite (ground_truth_cell_b _ _ _ _ _ _ _ Hgt Hrow Hj).
  rewrite <- (marked_b_nonneg motif2idx _ instances j _ Hnn Hf).
  destruct (marked_b _ _ _ _ _).
  - split; [left; reflexivity | tauto].
  - split; [right; reflexivity|]. split; [intros H; inversion H | discriminate].
Qed.

Lemma ground_truth_motif_cell_witness :
  ground_truth example_motif2idx 7
    [("MotifA"%string, 0%Q, (1 # 16)%Q); ("MotifB"%string, (1 # 16)%Q, (1 # 8)%Q)]
  = Ok [[1; 0; 0; 0; 0; 0; 0; 0; 0; 0; 0; 0; 0; 0; 0; 0; 0; 0; 0; 0; 0];
        [1; 0; 0; 0; 0; 0; 0; 0; 0; 0; 0; 0; 0; 0; 0; 0; 0; 0; 0; 0; 0];
        [1; 0; 0; 0; 0; 0; 0; 0; 0; 0; 0; 0; 0; 0; 0; 0; 0; 0; 0; 0; 0];
        [0; 1; 0; 0; 0; 0; 0; 0; 0; 0; 0; 0; 0; 0; 0; 0; 0; 0; 0; 0; 0];
        [0; 1; 0; 0; 0; 0; 0; 0; 0; 0; 0; 0; 0; 0; 0; 0; 0; 0; 0; 0; 0];
        [0; 0; 0; 0; 0; 0; 0; 0; 0; 0; 0; 0; 0; 0; 0; 0; 0; 0; 0; 0; 1];
        [0; 0; 0; 0; 0; 0; 0; 0; 0; 0; 0; 0; 0; 0; 0; 0; 0; 0; 0; 0; 1]]
  /\ ([0; 1; 0; 0; 0; 0; 0; 0; 0; 0; 0; 0; 0; 0; 0; 0; 0; 0; 0; 0; 0] !! 1%nat = Some 1
      \/ [0; 1; 0; 0; 0; 0; 0; 0; 0; 0; 0; 0; 0; 0; 0; 0; 0; 0; 0; 0; 0] !! 1%nat = Some 0).
Proof.
  assert (Hgt : ground_truth example_motif2idx 7
            [("MotifA"%string, 0%Q, (1 # 16)%Q); ("MotifB"%string, (1 # 16)%Q, (1 # 8)%Q)]
          = Ok [[1; 0; 0; 0; 0; 0; 0; 0; 0; 0; 0; 0; 0; 0; 0; 0; 0; 0; 0; 0; 0];
        [1; 0; 0; 0; 0; 0; 0; 0; 0; 0; 0; 0; 0; 0; 0; 0; 0; 0; 0; 0; 0];
        [1; 0; 0; 0; 0; 0; 0; 0; 0; 0; 0; 0; 0; 0; 0; 0; 0; 0; 0; 0; 0];
        [0; 1; 0; 0; 0; 0; 0; 0; 0; 0; 0; 0; 0; 0; 0; 0; 0; 0; 0; 0; 0];
        [0; 1; 0; 0; 0; 0; 0; 0; 0; 0; 0; 0; 0; 0; 0; 0; 0; 0; 0; 0; 0];
        [0; 0; 0; 0; 0; 0; 0; 0; 0; 0; 0; 0; 0; 0; 0; 0; 0; 0; 0; 0; 1];
        [0; 0; 0; 0; 0; 0; 0; 0; 0; 0; 0; 0; 0; 0; 0; 0; 0; 0; 0; 0; 1]])
    by (vm_compute; reflexivity).
  split; [exact Hgt|].
  apply (proj1 (ground_truth_motif_cell _ _ _ _ 3 _ 1 Hgt
           ltac:(repeat constructor; discriminate) eq_refl ltac:(lia))).
Defined.

(** X2: a frame is labelled "none" exactly when no annotation of one of the
    20 motif columns covers it. *)
Theorem ground_truth_none_uncovered (motif2idx : gmap string nat) (n_frames : nat)
    (instances : list instance) (gt : list (list Z)) (f : nat) (row : list Z) :
  ground_truth motif2idx n_frames instances = Ok gt ->
  Forall nonneg_instance instances ->
  gt !! f = Some row ->
  (row !! 20%nat = Some 1 \/ row !! 20%nat = Some 0)
  /\ (row !! 20%nat = Some 1
      <-> ~ exists i j, In i instances /\ motif2idx !! fst (fst i) = Some j
                        /\ (j < 20)%nat
                        /\ sec_to_frame (snd (fst i)) <= Z.of_nat f < sec_to_frame (snd i)).
Proof.
  intros Hgt Hnn Hrow.
  assert (Hf : 0 <= Z.of_nat f < Z.of_nat n_frames).
  { apply lookup_lt_Some in Hrow. rewrite (ground_truth_length _ _ _ _ Hgt) in Hrow. lia. }
  pose proof (fun j Hj => ground_truth_cell_b _ _ _ _ _ _ j Hgt Hrow Hj) as Hcell.
  destruct (ground_truth_unfold _ _ _ _ Hgt) as (gt1 & _ & Heq & Hbin & _).
  subst gt. rewrite list_lookup_fmap in Hrow.
  destruct (gt1 !! f) as [r1|] eqn:Hr1; [|discriminate].
  inversion Hrow; subst row; clear Hrow.
  destruct (Forall_lookup_1 _ _ _ _ Hbin Hr1) as [Hlen1 Hvals].
  rewrite (set_none_eq r1 Hlen1) in *.
  rewrite list_lookup_insert_eq by lia.
  destruct (row_max_binary (take 20 r1) (Forall_take _ 20 r1 Hvals)) as [H01 Hzero].
  assert (Hall : row_max (take 20 r1) = 0
                 <-> forall j, (j < 20)%nat ->
                       marked_b motif2idx (Z.of_nat n_frames) instances j (Z.of_nat f) = false).
  { rewrite Hzero, Forall_lookup. split.
    - intros Hz j Hj. specialize (Hcell j Hj).
      rewrite list_lookup_insert_ne in Hcell by lia.
      specialize (Hz j (if marked_b motif2idx (Z.of_nat n_frames) instances j (Z.of_nat f)
                        then 1 else 0)).
      rewrite lookup_take_lt in Hz by lia. specialize (Hz Hcell).
      destruct (marked_b _ _ _ _ _); [discriminate | reflexivity].
    - intros Hm j v Hv.
      pose proof (lookup_lt_Some _ _ _ Hv) as Hj. rewrite length_take in Hj.
      rewrite lookup_take_lt in Hv by lia.
      specialize (Hcell j ltac:(lia)). rewrite list_lookup_insert_ne in Hcell by lia.
      rewrite (Hm j ltac:(lia)) in Hcell. congruence. }
  split; [destruct H01 as [-> | ->]; [left | right]; reflexivity|].
  split.
  - intros H1 (i & j & Hi & Hm & Hj & Hc).
    assert (Hz : row_max (take 20 r1) = 0) by (inversion H1; lia).
    apply Hall with (j := j) in Hz; [|exact Hj].
    assert (Ht : marked_b motif2idx (Z.of_nat n_frames) instances j (Z.of_nat f) = true)
      by (apply (marked_b_nonneg _ _ _ _ _ Hnn Hf); exists i; auto).
    congruence.
  - intros Hno. f_equal.
    assert (Hz : row_max (take 20 r1) = 0); [|lia].
    apply Hall. intros j Hj.
    destruct (marked_b motif2idx (Z.of_nat n_frames) instances j (Z.of_nat f)) eqn:Hm;
      [|reflexivity].
    exfalso. apply Hno.
    apply (marked_b_nonneg _ _ _ _ _ Hnn Hf) in Hm as (i & Hi & Hmi & Hc).
    exists i, j. auto.
Qed.

Lemma ground_truth_none_uncovered_witness :
  ground_truth example_motif2idx 6 [("MotifA"%string, 0%Q, (1 # 16)%Q)]
  = Ok [[1; 0; 0; 0; 0; 0; 0; 0; 0; 0; 0; 0; 0; 0; 0; 0; 0; 0; 0; 0; 0];
        [1; 0; 0; 0; 0; 0; 0; 0; 0; 0; 0; 0; 0; 0; 0; 0; 0; 0; 0; 0; 0];
        [1; 0; 0; 0; 0; 0; 0; 0; 0; 0; 0; 0; 0; 0; 0; 0; 0; 0; 0; 0; 0];
        [0; 0; 0; 0; 0; 0; 0; 0; 0; 0; 0; 0; 0; 0; 0; 0; 0; 0; 0; 0; 1];
        [0; 0; 0; 0; 0; 0; 0; 0; 0; 0; 0; 0; 0; 0; 0; 0; 0; 0; 0; 0; 1];
        [0; 0; 0; 0; 0; 0; 0; 0; 0; 0; 0; 0; 0; 0; 0; 0; 0; 0; 0; 0; 1]]
  /\ ([0; 0; 0; 0; 0; 0; 0; 0; 0; 0; 0; 0; 0; 0; 0; 0; 0; 0; 0; 0; 1] !! 20%nat = Some 1
      \/ [0; 0; 0; 0; 0; 0; 0; 0; 0; 0; 0; 0; 0; 0; 0; 0; 0; 0; 0; 0; 1] !! 20%nat = Some 0).
Proof.
  assert (Hgt : ground_truth example_motif2idx 6 [("MotifA"%string, 0%Q, (1 # 16)%Q)]
          = Ok [[1; 0; 0; 0; 0; 0; 0; 0; 0; 0; 0; 0; 0; 0; 0; 0; 0; 0; 0; 0; 0];
        [1; 0; 0; 0; 0; 0; 0; 0; 0; 0; 0; 0; 0; 0; 0; 0; 0; 0; 0; 0; 0];
        [1; 0; 0; 0; 0; 0; 0; 0; 0; 0; 0; 0; 0; 0; 0; 0; 0; 0; 0; 0; 0];
        [0; 0; 0; 0; 0; 0; 0; 0; 0; 0; 0; 0; 0; 0; 0; 0; 0; 0; 0; 0; 1];
        [0; 0; 0; 0; 0; 0; 0; 0; 0; 0; 0; 0; 0; 0; 0; 0; 0; 0; 0; 0; 1];
        [0; 0; 0; 0; 0; 0; 0; 0; 0; 0; 0; 0; 0; 0; 0; 0; 0; 0; 0; 0; 1]])
    by (vm_compute; reflexivity).
  split; [exact Hgt|].
  apply (proj1 (ground_truth_none_uncovered _ _ _ _ 4 _ Hgt
           ltac:(repeat constructor; discriminate) eq_refl)).
Defined.

(** ** When the ground-truth tensor cannot be built *)

Lemma mark_instances_cons (motif2idx : gmap string nat) (gt : list (list Z))
    (i : instance) (rest : list instance) :
  mark_instances motif2idx gt (i :: rest)
  = match motif2idx !! fst (fst i) with
    | None => Err KeyError
    | Some j =>
        if (j <? 21)%nat
        then mark_instances motif2idx
               (assign_rows 0
                  (slice_index (Z.of_nat (length gt)) (sec_to_frame (snd (fst i))))
                  (slice_index (Z.of_nat (length gt)) (sec_to_frame (snd i))) j 1 gt)
               rest
        else Err IndexError
    end.
Proof.
  destruct i as [[motif start] stop]. cbn [mark_instances fst snd].
  unfold py_getitem, mark. destruct (motif2idx !! motif) as [j|]; [|reflexivity].
  cbn -[Nat.ltb assign_rows slice_index sec_to_frame].
  destruct (j <? 21)%nat; reflexivity.
Qed.

Lemma mark_instances_ok_iff (motif2idx : gmap string nat) (instances : list instance)
    (gt : list (list Z)) :
  (exists gt', mark_instances motif2idx gt instances = Ok gt')
  <-> Forall (known_motif motif2idx) instances.
Proof.
  revert gt. induction instances as [|i rest IH]; intros gt.
  - split; [constructor | intros _; exists gt; reflexivity].
  - rewrite mark_instances_cons, Forall_cons. unfold known_motif at 1.
    destruct (motif2idx !! fst (fst i)) as [j|] eqn:Hj;
      [destruct (j <? 21)%nat eqn:Hlt|].
    + apply Nat.ltb_lt in Hlt. rewrite IH.
      split; [intros H; split; [exists j; auto | exact H] | tauto].
    + apply Nat.ltb_ge in Hlt. split; [intros [gt' H]; discriminate|].
      intros [(j' & Hj' & Hlt') _]. inversion Hj'; subst. lia.
    + split; [intros [gt' H]; discriminate|].
      intros [(j' & Hj' & _) _]. discriminate.
Qed.

Lemma ground_truth_eq (motif2idx : gmap string nat) (n_frames : nat)
    (instances : list instance) :
  ground_truth motif2idx n_frames instances
  = (gt ← mark_instances motif2idx (replicate n_frames (replicate 21 0)) instances;
     Ok (map set_none gt)).
Proof.
  unfold ground_truth, zeros.
  destruct (Z.of_nat n_frames <? 0) eqn:Hn; [apply Z.ltb_lt in Hn; lia|].
  cbn [orb]. change (21 <? 0) with false. cbv iota.
  rewrite Nat2Z.id. reflexivity.
Qed.

(** X3: when the ground-truth tensor is built, every annotation names a
    motif of the table whose index is below 21, and the tensor has one row
    per frame. *)
Theorem ground_truth_ok_known (motif2idx : gmap string nat) (n_frames : nat)
    (instances : list instance) (gt : list (list Z)) :
  ground_truth motif2idx n_frames instances = Ok gt ->
  Forall (known_motif motif2idx) instances /\ length gt = n_frames.
Proof.
  intros Hgt. split; [|apply (ground_truth_length _ _ _ _ Hgt)].
  apply (mark_instances_ok_iff motif2idx instances (replicate n_frames (replicate 21 0))).
  rewrite ground_truth_eq in Hgt.
  destruct (mark_instances _ _ _) as [gt1|e]; [|discriminate].
  exists gt1. reflexivity.
Qed.

Lemma ground_truth_ok_known_witness :
  Forall (known_motif example_motif2idx)
    [("MotifA"%string, 0%Q, 1%Q); ("MotifB"%string, 1%Q, 2%Q)].
Proof.
  destruct (ground_truth example_motif2idx 5
              [("MotifA"%string, 0%Q, 1%Q); ("MotifB"%string, 1%Q, 2%Q)])
    as [gt|e] eqn:Hgt; [|vm_compute in Hgt; discriminate].
  apply (proj1 (ground_truth_ok_known _ _ _ gt Hgt)).
Defined.

Lemma mark_instances_error_cause (motif2idx : gmap string nat)
    (instances : list instance) (gt : list (list Z)) (e : py_error) :
  mark_instances motif2idx gt instances = Err e ->
  exists pre i post,
    instances = pre ++ i :: post
    /\ Forall (known_motif motif2idx) pre
    /\ ((e = KeyError /\ motif2idx !! fst (fst i) = None)
        \/ (e = IndexError
            /\ exists j, motif2idx !! fst (fst i) = Some j /\ (21 <= j)%nat)).
Proof.
  revert gt. induction instances as [|i rest IH]; intros gt; [discriminate|].
  rewrite mark_instances_cons.
  destruct (motif2idx !! fst (fst i)) as [j|] eqn:Hj;
    [destruct (j <? 21)%nat eqn:Hlt|].
  - intros H. apply IH in H as (pre & i' & post & -> & Hpre & Hcause).
    exists (i :: pre), i', post. split; [reflexivity|]. split; [|exact Hcause].
    constructor; [|exact Hpre]. exists j. apply Nat.ltb_lt in Hlt. auto.
  - intros [= <-]. exists [], i, rest. split; [reflexivity|]. split; [constructor|].
    right. split; [reflexivity|]. exists j. apply Nat.ltb_ge in Hlt. auto.
  - intros [= <-]. exists [], i, rest. split; [reflexivity|]. split; [constructor|].
    left. auto.
Qed.

(** X4: the exception names its cause.  When the build raises KeyError, some
    annotation names a motif that is not in the table, and every annotation
    before it names a motif of the table with an index below 21; when it
    raises IndexError, the motif of that annotation has an index of 21 or
    more. *)
Theorem ground_truth_error_cause (motif2idx : gmap string nat) (n_frames : nat)
    (instances : list instance) :
  (ground_truth motif2idx n_frames instances = Err KeyError ->
   exists pre i post,
     instances = pre ++ i :: post
     /\ Forall (known_motif motif2idx) pre
     /\ motif2idx !! fst (fst i) = None)
  /\ (ground_truth motif2idx n_frames instances = Err IndexError ->
      exists pre i post j,
        instances = pre ++ i :: post
        /\ Forall (known_motif motif2idx) pre
        /\ motif2idx !! fst (fst i) = Some j /\ (21 <= j)%nat).
Proof.
  rewrite ground_truth_eq.
  destruct (mark_instances _ _ _) as [gt|e] eqn:Hm; [split; discriminate|].
  apply mark_instances_error_cause in Hm as (pre & i & post & Heq & Hpre & Hcause).
  split; intros [= ->].
  - destruct Hcause as [[_ Hi]|[He _]]; [|discriminate].
    exists pre, i, post. auto.
  - destruct Hcause as [[He _]|[_ (j & Hj & Hlt)]]; [discriminate|].
    exists pre, i, post, j. auto.
Qed.

Lemma ground_truth_error_cause_witness :
  ground_truth example_motif2idx 5
    [("MotifA"%string, 0%Q, 1%Q); ("Unknown"%string, 1%Q, 2%Q)] = Err KeyError
  /\ exists pre i post,
       [("MotifA"%string, 0%Q, 1%Q); ("Unknown"%string, 1%Q, 2%Q)] = pre ++ i :: post
       /\ Forall (known_motif example_motif2idx) pre
       /\ example_motif2idx !! fst (fst i) = None.
Proof.
  assert (H : ground_truth example_motif2idx 5
                [("MotifA"%string, 0%Q, 1%Q); ("Unknown"%string, 1%Q, 2%Q)]
              = Err KeyError) by (vm_compute; reflexivity).
  split; [exact H|].
  apply (proj1 (ground_truth_error_cause example_motif2idx 5
                  [("MotifA"%string, 0%Q, 1%Q); ("Unknown"%string, 1%Q, 2%Q)]) H).
Defined.

(** ** The order of the annotations *)

Lemma marked_b_perm (motif2idx : gmap string nat) (n : Z)
    (l l' : list instance) (j : nat) (f : Z) :
  Permutation l l' -> marked_b motif2idx n l j f = marked_b motif2idx n l' j f.
Proof.
  unfold marked_b. induction 1 as [|x l l' _ IH|x y l|l l' l'' _ IH1 _ IH2]; cbn [existsb].
  - reflexivity.
  - rewrite IH. reflexivity.
  - rewrite !orb_assoc. f_equal. apply orb_comm.
  - congruence.
Qed.

(** X5: the tensor does not depend on the order of the rows of the
    annotation table. *)
Theorem ground_truth_permutation (motif2idx : gmap string nat) (n_frames : nat)
    (instances instances' : list instance) (gt : list (list Z)) :
  Permutation instances instances' ->
  ground_truth motif2idx n_frames instances = Ok gt ->
  ground_truth motif2idx n_frames instances' = Ok gt.
Proof.
  intros Hperm Hgt.
  assert (Hok : exists gt', ground_truth motif2idx n_frames instances' = Ok gt').
  { destruct (ground_truth_unfold _ _ _ _ Hgt) as (g & Hm & _).
    assert (Hk : Forall (known_motif motif2idx) instances')
      by (rewrite <- Hperm; eapply mark_instances_ok_iff; eauto).
    eapply mark_instances_ok_iff in Hk as [g' Hg'].
    rewrite ground_truth_eq, Hg'. eexists. reflexivity. }
  destruct Hok as [gt' Hgt']. rewrite Hgt'. f_equal.
  apply ground_truth_unfold in Hgt as (g & Hm & -> & _ & Hlen).
  apply ground_truth_unfold in Hgt' as (g' & Hm' & -> & _ & Hlen').
  f_equal. apply list_eq. intros f.
  destruct (g !! f) as [r|] eqn:Hr, (g' !! f) as [r'|] eqn:Hr'.
  - f_equal. apply list_eq. intros j.
    destruct (mark_instances_cell _ _ _ _ f r j Hm Hr) as (r0 & Hr0 & Hl & Hc).
    destruct (mark_instances_cell _ _ _ _ f r' j Hm' Hr') as (r0' & Hr0' & Hl' & Hc').
    rewrite Hr0 in Hr0'. inversion Hr0'; subst r0'.
    rewrite Hc, Hc', (marked_b_perm _ _ _ _ _ _ Hperm). reflexivity.
  - apply lookup_lt_Some in Hr. apply lookup_ge_None in Hr'. lia.
  - apply lookup_lt_Some in Hr'. apply lookup_ge_None in Hr. lia.
  - reflexivity.
Qed.

Lemma ground_truth_permutation_witness :
  ground_truth example_motif2idx 7
    [("MotifB"%string, (1 # 16)%Q, (1 # 8)%Q); ("MotifA"%string, 0%Q, (1 # 16)%Q)]
  = ground_truth example_motif2idx 7
      [("MotifA"%string, 0%Q, (1 # 16)%Q); ("MotifB"%string, (1 # 16)%Q, (1 # 8)%Q)].
Proof.
  destruct (ground_truth example_motif2idx 7
      [("MotifA"%string, 0%Q, (1 # 16)%Q); ("MotifB"%string, (1 # 16)%Q, (1 # 8)%Q)])
    as [gt|e] eqn:Hgt; [|discriminate].
  apply (ground_truth_permutation _ _ _ _ gt (perm_swap _ _ []) Hgt).
Defined.

(** ** The indices the accessor takes *)

Lemma getitem_index_error_dom (ds : LeitmotifDataset) (idx : Z) :
  getitem ds idx = Err IndexError
  <-> idx < - Z.of_nat (length (samples ds)) \/ len ds <= idx.
Proof.
  unfold len. set (n := Z.of_nat (length (samples ds))).
  set (m := Z.of_nat (length (none_samples ds))).
  split.
  - intros Herr.
    destruct (Z_lt_le_dec idx (- n)) as [?|Hlo]; [left; assumption|].
    destruct (Z_lt_le_dec idx (n + m)) as [Hhi|?]; [exfalso | right; assumption].
    destruct (Z_lt_le_dec idx n) as [Hpos|Hneg].
    + assert (Hx : exists x, py_index (samples ds) idx = Ok x).
      { destruct (Z_lt_le_dec idx 0).
        - rewrite py_index_negative by (fold n; lia). fold n.
          rewrite py_index_nonneg by lia.
          destruct (lookup_lt_is_Some_2 (samples ds) (Z.to_nat (idx + n)) ltac:(lia))
            as [x Hx].
          exists x. rewrite Hx. reflexivity.
        - rewrite py_index_nonneg by lia.
          destruct (lookup_lt_is_Some_2 (samples ds) (Z.to_nat idx) ltac:(lia)) as [x Hx].
          exists x. rewrite Hx. reflexivity. }
      destruct Hx as [x Hx].
      rewrite (getitem_positive ds idx x Hpos Hx) in Herr.
      unfold py_getitem in Herr.
      destruct (cqt ds !! _); [|discriminate].
      destruct (instances_gt ds !! _); discriminate.
    + destruct (lookup_lt_is_Some_2 (none_samples ds) (Z.to_nat (idx - n)) ltac:(lia))
        as [x Hx].
      assert (Hpy : py_index (none_samples ds) (idx - n) = Ok x)
        by (rewrite py_index_nonneg by lia; rewrite Hx; reflexivity).
      rewrite (getitem_negative ds idx x Hneg Hpy) in Herr.
      unfold py_getitem, zeros in Herr.
      destruct (cqt ds !! _); [|discriminate].
      destruct ((none_end x - none_start x <? 0) || (21 <? 0)); discriminate.
  - intros [Hlo|Hhi]; unfold getitem; fold n.
    + destruct (idx <? n) eqn:Hlt; [|apply Z.ltb_ge in Hlt; lia].
      unfold py_index. fold n.
      destruct (idx <? 0) eqn:H0; [|apply Z.ltb_ge in H0; lia].
      destruct (idx + n <? 0) eqn:H1; [reflexivity | apply Z.ltb_ge in H1; lia].
    + destruct (idx <? n) eqn:Hlt; [apply Z.ltb_lt in Hlt; lia|].
      rewrite py_index_out_of_range by (fold m; lia). reflexivity.
Qed.

(** X6: the accessor raises IndexError exactly for the indices below
    -len(samples) and the indices from len(samples) + len(none_samples) on. *)
Theorem getitem_index_error_iff (ds : LeitmotifDataset) (idx : Z) :
  getitem ds idx = Err IndexError
  <-> idx < - Z.of_nat (length (samples ds)) \/ len ds <= idx.
Proof.
  apply getitem_index_error_dom.
Qed.

(** ** More on get_subset_idxs *)

Lemma get_subset_idxs_as_filter (ds : LeitmotifDataset)
    (versions acts : option (list string)) :
  get_subset_idxs ds versions acts = subset_indices ds versions acts.
Proof.
  rewrite subset_indices_split.
  destruct versions as [vs|], acts as [acs|]; unfold passes; cbn [get_subset_idxs fst snd].
  - reflexivity.
  - unfold indices_where. f_equal; f_equal; apply List.filter_ext; intros p;
      rewrite andb_true_r; reflexivity.
  - reflexivity.
  - unfold indices_where, enumerate, py_range. cbn [andb].
    rewrite (indices_where_all (samples ds) 0 0 0) by lia.
    rewrite (indices_where_all (none_samples ds) 0 _ (length (samples ds))) by lia.
    rewrite <- map_app, <- seq_app, <- Nat2Z.inj_add, Nat2Z.id. reflexivity.
Qed.

Lemma In_py_range (n i : Z) : In i (py_range n) <-> 0 <= i < n.
Proof.
  unfold py_range. rewrite in_map_iff. split.
  - intros (k & <- & Hk). apply in_seq in Hk. lia.
  - intros Hi. exists (Z.to_nat i). split; [lia|]. apply in_seq. lia.
Qed.

Lemma get_subset_idxs_In (ds : LeitmotifDataset)
    (versions acts : option (list string)) (i : Z) :
  In i (get_subset_idxs ds versions acts)
  <-> 0 <= i < len ds
      /\ exists va, recording_at ds i = Some va /\ passes versions acts va = true.
Proof.
  rewrite get_subset_idxs_as_filter. unfold subset_indices.
  rewrite filter_In, In_py_range. split.
  - intros [Hi Hp]. split; [exact Hi|].
    destruct (recording_at ds i) as [va|]; [|discriminate]. exists va. auto.
  - intros [Hi (va & Hva & Hp)]. split; [exact Hi|]. rewrite Hva. exact Hp.
Qed.

Lemma recording_at_is_Some (ds : LeitmotifDataset) (i : Z) :
  0 <= i < len ds -> is_Some (recording_at ds i).
Proof.
  unfold len, recording_at. intros Hi.
  destruct (i <? Z.of_nat (length (samples ds))) eqn:Hlt.
  - apply Z.ltb_lt in Hlt.
    destruct (lookup_lt_is_Some_2 (samples ds) (Z.to_nat i) ltac:(lia)) as [x ->].
    eexists. reflexivity.
  - apply Z.ltb_ge in Hlt.
    destruct (lookup_lt_is_Some_2 (none_samples ds)
                (Z.to_nat (i - Z.of_nat (length (samples ds)))) ltac:(lia)) as [x ->].
    eexists. reflexivity.
Qed.

Lemma seq_strongly_sorted (a k : nat) : StronglySorted Z.lt (map Z.of_nat (seq a k)).
Proof.
  revert a. induction k as [|k IH]; intros a; cbn [seq map]; constructor.
  - apply IH.
  - apply List.Forall_forall. intros z Hz. apply in_map_iff in Hz as (y & <- & Hy).
    apply in_seq in Hy. lia.
Qed.

Lemma filter_strongly_sorted {A : Type} (R : A -> A -> Prop) (keep : A -> bool)
    (l : list A) :
  StronglySorted R l -> StronglySorted R (List.filter keep l).
Proof.
  induction 1 as [|x l Hl IH Hx]; cbn [List.filter]; [constructor|].
  destruct (keep x); [|exact IH]. constructor; [exact IH|].
  apply List.Forall_forall. intros y Hy. apply filter_In in Hy as [Hy _].
  eapply List.Forall_forall in Hx; [exact Hx | exact Hy].
Qed.

(** X7: the indices returned by get_subset_idxs are strictly increasing, so
    none is returned twice, and each is a global index of the dataset. *)
Theorem get_subset_idxs_increasing (ds : LeitmotifDataset)
    (versions acts : option (list string)) :
  StronglySorted Z.lt (get_subset_idxs ds versions acts)
  /\ Forall (fun i => 0 <= i < len ds) (get_subset_idxs ds versions acts).
Proof.
  split.
  - rewrite get_subset_idxs_as_filter. apply filter_strongly_sorted, seq_strongly_sorted.
  - apply List.Forall_forall. intros i Hi. apply get_subset_idxs_In in Hi. tauto.
Qed.

Lemma filter_none {A : Type} (keep : A -> bool) (l : list A) :
  (forall x, In x l -> keep x = false) -> List.filter keep l = [].
Proof.
  induction l as [|x l IH]; intros H; [reflexivity|]. cbn [List.filter].
  rewrite (H x (or_introl eq_refl)). apply IH. intros y Hy. apply H. right. exact Hy.
Qed.

(** X8: an empty container is not the absent filter: with versions = [] or
    acts = [] nothing is selected, while None selects everything. *)
Theorem get_subset_idxs_empty_filter (ds : LeitmotifDataset)
    (versions acts : option (list string)) :
  get_subset_idxs ds (Some []) acts = []
  /\ get_subset_idxs ds versions (Some []) = [].
Proof.
  rewrite !get_subset_idxs_as_filter. unfold subset_indices.
  split; apply filter_none; intros i _; destruct (recording_at ds i) as [va|];
    try reflexivity; unfold passes, py_in.
  rewrite andb_comm. reflexivity.
Qed.

(** X9: using both filters selects exactly the indices that each filter
    selects on its own. *)
Theorem get_subset_idxs_both (ds : LeitmotifDataset) (versions acts : list string) (i : Z) :
  In i (get_subset_idxs ds (Some versions) (Some acts))
  <-> In i (get_subset_idxs ds (Some versions) None)
      /\ In i (get_subset_idxs ds None (Some acts)).
Proof.
  rewrite !get_subset_idxs_In. unfold passes. split.
  - intros (Hi & va & Hva & Hp). apply andb_true_iff in Hp as [Hv Ha].
    split; (split; [exact Hi|]); exists va; (split; [exact Hva|]).
    + rewrite Hv. reflexivity.
    + exact Ha.
  - intros [(Hi & va & Hva & Hv) (_ & va' & Hva' & Ha)].
    rewrite Hva in Hva'. inversion Hva'; subst va'.
    split; [exact Hi|]. exists va. split; [exact Hva|].
    rewrite andb_true_r in Hv. cbn [andb] in Ha. rewrite Hv, Ha. reflexivity.
Qed.

Lemma py_in_app (x : string) (l1 l2 : list string) :
  py_in x (l1 ++ l2) = py_in x l1 || py_in x l2.
Proof.
  unfold py_in.
  destruct (bool_decide_reflect (x ∈ l1 ++ l2)) as [H|H],
    (bool_decide_reflect (x ∈ l1)) as [H1|H1],
    (bool_decide_reflect (x ∈ l2)) as [H2|H2]; try reflexivity; exfalso;
    rewrite elem_of_app in H; tauto.
Qed.

(** X10: splitting by versions partitions the selection: the indices of
    versions1 ++ versions2 are those of versions1 together with those of
    versions2, and two containers without a common version select no common
    index (whatever the acts filters). *)
Theorem get_subset_idxs_split_versions (ds : LeitmotifDataset)
    (versions1 versions2 : list string) (acts acts' : option (list string)) (i : Z) :
  (In i (get_subset_idxs ds (Some (versions1 ++ versions2)) acts)
   <-> In i (get_subset_idxs ds (Some versions1) acts)
       \/ In i (get_subset_idxs ds (Some versions2) acts))
  /\ ((forall v, v ∈ versions1 -> v ∉ versions2) ->
      ~ (In i (get_subset_idxs ds (Some versions1) acts)
         /\ In i (get_subset_idxs ds (Some versions2) acts'))).
Proof.
  rewrite !get_subset_idxs_In. unfold passes. split.
  - split.
    + intros (Hi & va & Hva & Hp). rewrite py_in_app in Hp.
      apply andb_true_iff in Hp as [Hv Ha]. apply orb_true_iff in Hv as [Hv|Hv];
        [left | right]; (split; [exact Hi|]); exists va; (split; [exact Hva|]);
        rewrite Hv, Ha; reflexivity.
    + intros [(Hi & va & Hva & Hp)|(Hi & va & Hva & Hp)];
        (split; [exact Hi|]); exists va; (split; [exact Hva|]);
        apply andb_true_iff in Hp as [Hv Ha]; rewrite py_in_app, Hv, Ha, ?orb_true_r;
        reflexivity.
  - intros Hdis [(_ & va & Hva & Hp) (_ & va' & Hva' & Hp')].
    rewrite Hva in Hva'. inversion Hva'; subst va'.
    apply andb_true_iff in Hp as [Hv _]. apply andb_true_iff in Hp' as [Hv' _].
    unfold py_in in Hv, Hv'. apply bool_decide_eq_true in Hv, Hv'.
    apply (Hdis _ Hv Hv').
Qed.

(** X11: the same for acts: the indices of acts1 ++ acts2 are those of acts1
    together with those of acts2, and containers without a common act
    select no common index. *)
Theorem get_subset_idxs_split_acts (ds : LeitmotifDataset)
    (acts1 acts2 : list string) (versions versions' : option (list string)) (i : Z) :
  (In i (get_subset_idxs ds versions (Some (acts1 ++ acts2)))
   <-> In i (get_subset_idxs ds versions (Some acts1))
       \/ In i (get_subset_idxs ds versions (Some acts2)))
  /\ ((forall a, a ∈ acts1 -> a ∉ acts2) ->
      ~ (In i (get_subset_idxs ds versions (Some acts1))
         /\ In i (get_subset_idxs ds versions' (Some acts2)))).
Proof.
  rewrite !get_subset_idxs_In. unfold passes. split.
  - split.
    + intros (Hi & va & Hva & Hp). rewrite py_in_app in Hp.
      apply andb_true_iff in Hp as [Hv Ha]. apply orb_true_iff in Ha as [Ha|Ha];
        [left | right]; (split; [exact Hi|]); exists va; (split; [exact Hva|]);
        rewrite Hv, Ha; reflexivity.
    + intros [(Hi & va & Hva & Hp)|(Hi & va & Hva & Hp)];
        (split; [exact Hi|]); exists va; (split; [exact Hva|]);
        apply andb_true_iff in Hp as [Hv Ha]; rewrite py_in_app, Hv, Ha, ?orb_true_r;
        reflexivity.
  - intros Hdis [(_ & va & Hva & Hp) (_ & va' & Hva' & Hp')].
    rewrite Hva in Hva'. inversion Hva'; subst va'.
    apply andb_true_iff in Hp as [_ Ha]. apply andb_true_iff in Hp' as [_ Ha'].
    unfold py_in in Ha, Ha'. apply bool_decide_eq_true in Ha, Ha'.
    apply (Hdis _ Ha Ha').
Qed.

(** ** More on query_motif *)

Lemma In_enumerate {A : Type} (l : list A) (j : Z) (x : A) :
  In (j, x) (enumerate l) <-> exists i : nat, j = Z.of_nat i /\ l !! i = Some x.
Proof.
  unfold enumerate. rewrite elem_of_enumerate_from. split; intros (i & Hj & Hi);
    exists i; (split; [lia | exact Hi]).
Qed.

Lemma enumerate_from_sorted {A : Type} (k : Z) (l : list A) :
  StronglySorted (fun p q : Z * A => fst p < fst q) (enumerate_from k l).
Proof.
  revert k. induction l as [|x l IH]; intros k; cbn [enumerate_from]; constructor.
  - apply IH.
  - apply List.Forall_forall. intros [j y] Hy.
    apply elem_of_enumerate_from in Hy as (i & -> & _). cbn. lia.
Qed.

Lemma strongly_sorted_map {A B : Type} (R : B -> B -> Prop) (g : A -> B) (l : list A) :
  StronglySorted (fun a b => R (g a) (g b)) l -> StronglySorted R (map g l).
Proof.
  induction 1 as [|x l Hl IH Hx]; cbn [map]; constructor; [exact IH|].
  apply List.Forall_forall. intros y Hy. apply in_map_iff in Hy as (a & <- & Ha).
  eapply List.Forall_forall in Hx; [exact Hx | exact Ha].
Qed.

(** X12: query_motif returns None exactly when no positive sample carries the
    motif. *)
Theorem query_motif_none_iff (ds : LeitmotifDataset) (motif : string) :
  query_motif ds motif = None
  <-> Forall (fun x => sample_motif x <> motif) (samples ds).
Proof.
  unfold query_motif.
  set (hits := List.filter (fun p : Z * sample => String.eqb (sample_motif (snd p)) motif)
                 (enumerate (samples ds))).
  rewrite length_map.
  assert (Hhits : hits = [] <-> Forall (fun x => sample_motif x <> motif) (samples ds)).
  { split.
    - intros Hnil. apply Forall_lookup. intros i x Hx Hm.
      assert (Hin : In (Z.of_nat i, x) hits).
      { apply filter_In. split; [apply In_enumerate; eauto|].
        cbn. apply String.eqb_eq, Hm. }
      rewrite Hnil in Hin. destruct Hin.
    - intros Hall. apply filter_none. intros [j x] Hp.
      apply In_enumerate in Hp as (i & _ & Hx). cbn.
      apply String.eqb_neq. apply (Forall_lookup_1 _ _ _ _ Hall Hx). }
  rewrite <- Hhits. destruct hits as [|h hits']; cbn.
  - split; reflexivity.
  - split; discriminate.
Qed.

(** X13: when query_motif returns a list, it is not empty, it holds exactly
    one tuple (idx, version, act, start_sec, end_sec) for each positive
    sample idx that carries the motif, with the seconds floored from its
    frames, and the indices are strictly increasing. *)
Theorem query_motif_some (ds : LeitmotifDataset) (motif : string)
    (res : list (Z * string * string * Z * Z)) :
  query_motif ds motif = Some res ->
  res <> []
  /\ (forall t, In t res
        <-> exists (i : nat) x,
              samples ds !! i = Some x /\ sample_motif x = motif
              /\ t = (Z.of_nat i, sample_version x, sample_act x,
                      frame_to_sec (sample_start x), frame_to_sec (sample_end x)))
  /\ StronglySorted Z.lt (map (fun t => fst (fst (fst (fst t)))) res).
Proof.
  unfold query_motif.
  set (hits := List.filter (fun p : Z * sample => String.eqb (sample_motif (snd p)) motif)
                 (enumerate (samples ds))).
  set (tuple := fun p : Z * sample =>
                  (fst p, sample_version (snd p), sample_act (snd p),
                   frame_to_sec (sample_start (snd p)), frame_to_sec (sample_end (snd p)))).
  destruct (0 <? length (map tuple hits))%nat eqn:Hlen; [|discriminate].
  intros [= <-]. split; [|split].
  - apply Nat.ltb_lt in Hlen. intros Hnil. rewrite Hnil in Hlen. cbn in Hlen. lia.
  - intros t. rewrite in_map_iff. split.
    + intros ([j x] & <- & Hp). apply filter_In in Hp as [Hp Hm].
      apply In_enumerate in Hp as (i & -> & Hx). cbn in Hm. apply String.eqb_eq in Hm.
      exists i, x. split; [exact Hx|]. split; [exact Hm | reflexivity].
    + intros (i & x & Hx & Hm & ->). exists (Z.of_nat i, x). split; [reflexivity|].
      apply filter_In. split; [apply In_enumerate; eauto|].
      cbn. apply String.eqb_eq, Hm.
  - rewrite map_map. cbn [tuple fst].
    apply strongly_sorted_map, filter_strongly_sorted, enumerate_from_sorted.
Qed.

Lemma query_motif_some_witness :
  [(0, "A"%string, "1"%string, 10, 25)] <> []
  /\ query_motif (mkDataset ∅ ∅ (positive_samples "A" "1" 646 [("MotifA"%string, 10%Q)]) [] 15)
       "MotifA" = Some [(0, "A"%string, "1"%string, 10, 25)].
Proof.
  assert (Hq : query_motif
                 (mkDataset ∅ ∅ (positive_samples "A" "1" 646 [("MotifA"%string, 10%Q)]) [] 15)
                 "MotifA" = Some [(0, "A"%string, "1"%string, 10, 25)])
    by (vm_compute; reflexivity).
  split; [|exact Hq].
  apply (proj1 (query_motif_some _ _ _ Hq)).
Defined.

(** ** Subset *)

Lemma py_range_lookup (n : Z) (k : nat) :
  Z.of_nat k < n -> py_range n !! k = Some (Z.of_nat k).
Proof.
  intros Hk. unfold py_range. rewrite list_lookup_fmap, lookup_seq_lt by lia. reflexivity.
Qed.

Lemma length_py_range (n : Z) : Z.of_nat (length (py_range n)) = Z.max 0 n.
Proof.
  unfold py_range. rewrite length_map, length_seq. lia.
Qed.

(** X14: the Subset over get_subset_idxs() with no filter has the length of
    the dataset and returns dataset[idx] for 0 <= idx < len; a negative idx
    counts from the end of the whole dataset, so subset[idx] is
    dataset[len + idx]. *)
Theorem subset_of_all (ds : LeitmotifDataset) (idx : Z) :
  subset_len (mkSubset ds (get_subset_idxs ds None None)) = len ds
  /\ (0 <= idx < len ds ->
      subset_getitem (mkSubset ds (get_subset_idxs ds None None)) idx = getitem ds idx)
  /\ (- len ds <= idx < 0 ->
      subset_getitem (mkSubset ds (get_subset_idxs ds None None)) idx
      = getitem ds (len ds + idx)).
Proof.
  unfold subset_len, subset_getitem. cbn [dataset indices get_subset_idxs].
  fold (len ds). assert (Hlen : 0 <= len ds) by (unfold len; lia).
  split; [rewrite length_py_range; lia|]. split; intros Hidx.
  - rewrite py_index_nonneg by lia.
    rewrite py_range_lookup by lia. rewrite Z2Nat.id by lia. reflexivity.
  - rewrite py_index_negative by (rewrite length_py_range; lia).
    rewrite length_py_range, py_index_nonneg by lia.
    rewrite py_range_lookup by lia. rewrite Z2Nat.id by lia.
    cbn. f_equal. lia.
Qed.

(** X15: an item of the Subset over get_subset_idxs(versions, acts) is the
    item of the dataset at a global index whose recording passes the
    filters, and fetching it never raises IndexError as long as
    -len(subset) <= idx < len(subset); from len(subset) on it does. *)
Theorem subset_getitem_selected (ds : LeitmotifDataset)
    (versions acts : option (list string)) (idx : Z) :
  (- subset_len (mkSubset ds (get_subset_idxs ds versions acts)) <= idx
   < subset_len (mkSubset ds (get_subset_idxs ds versions acts)) ->
   exists i va,
     subset_getitem (mkSubset ds (get_subset_idxs ds versions acts)) idx = getitem ds i
     /\ 0 <= i < len ds
     /\ recording_at ds i = Some va /\ passes versions acts va = true
     /\ getitem ds i <> Err IndexError)
  /\ (subset_len (mkSubset ds (get_subset_idxs ds versions acts)) <= idx ->
      subset_getitem (mkSubset ds (get_subset_idxs ds versions acts)) idx
      = Err IndexError).
Proof.
  unfold subset_len, subset_getitem. cbn [dataset indices].
  set (l := get_subset_idxs ds versions acts). split.
  - intros Hidx.
    assert (Hi : exists i, py_index l idx = Ok i).
    { destruct (Z_lt_le_dec idx 0).
      - rewrite py_index_negative by lia. rewrite py_index_nonneg by lia.
        destruct (lookup_lt_is_Some_2 l (Z.to_nat (idx + Z.of_nat (length l)))
                    ltac:(lia)) as [i Hi].
        exists i. rewrite Hi. reflexivity.
      - rewrite py_index_nonneg by lia.
        destruct (lookup_lt_is_Some_2 l (Z.to_nat idx) ltac:(lia)) as [i Hi].
        exists i. rewrite Hi. reflexivity. }
    destruct Hi as [i Hi]. rewrite Hi.
    apply py_index_In in Hi. apply get_subset_idxs_In in Hi as (Hr & va & Hva & Hp).
    exists i, va. split; [reflexivity|]. split; [exact Hr|].
    split; [exact Hva|]. split; [exact Hp|].
    rewrite getitem_index_error_dom. unfold len in *. lia.
  - intros Hidx. rewrite py_index_out_of_range by lia. reflexivity.
Qed.

Lemma subset_getitem_selected_witness :
  subset_getitem
    (mkSubset (mkDataset ∅ ∅ [("A"%string, "1"%string, "MotifA"%string, 0, 646)]
                 [("B"%string, "1"%string, 700, 1346)] 15)
       (get_subset_idxs
          (mkDataset ∅ ∅ [("A"%string, "1"%string, "MotifA"%string, 0, 646)]
             [("B"%string, "1"%string, 700, 1346)] 15)
          (Some ["B"%string]) None)) 1
  = Err IndexError.
Proof.
  apply (proj2 (subset_getitem_selected _ (Some ["B"%string]) None 1)).
  vm_compute. discriminate.
Defined.

(** ** More on __init__ *)

Lemma add_recording_ok (motif2idx : gmap string nat)
    (annotations : gmap (string * string) (list instance))
    (rng : nat -> draw) (fuel : nat) (duration_samples : Z)
    (ds : LeitmotifDataset) (k : nat) (stem : string) (c : list (list Q))
    (st' : LeitmotifDataset * nat) :
  add_recording motif2idx annotations rng fuel duration_samples (ds, k) (stem, c)
  = Some (Ok st') ->
  exists version act instances gt ws,
    load_recording motif2idx annotations stem (length c)
    = Ok (version, act, instances, gt)
    /\ none_windows rng (duration_sec ds)
         (inject_Z (total_duration (Z.of_nat (length c)))) fuel k instances = Some ws
    /\ st' = (mkDataset (<[stem := c]> (cqt ds)) (<[stem := gt]> (instances_gt ds))
                (samples ds ++
                   positive_samples version act duration_samples
                     (sample_instance_intervals instances (duration_sec ds)
                        (inject_Z (total_duration (Z.of_nat (length c))))))
                (none_samples ds ++ negative_samples version act duration_samples ws)
                (duration_sec ds),
              (k + length ws + 1)%nat).
Proof.
  unfold add_recording.
  destruct (load_recording _ _ _ _) as [[[[version act] instances] gt]|e] eqn:Hload;
    [|discriminate].
  destruct (none_windows _ _ _ _ _ _) as [ws|] eqn:Hws; [|discriminate].
  intros [= <-]. exists version, act, instances, gt, ws.
  split; [reflexivity|]. split; [exact Hws | reflexivity].
Qed.

Lemma load_recording_ok (motif2idx : gmap string nat)
    (annotations : gmap (string * string) (list instance))
    (stem version act : string) (n_frames : nat)
    (instances : list instance) (gt : list (list Z)) :
  load_recording motif2idx annotations stem n_frames = Ok (version, act, instances, gt) ->
  py_index (split_on "_" stem) 0 = Ok version
  /\ py_index (split_on "_" stem) 1 = Ok act
  /\ annotations !! (version, act) = Some instances
  /\ ground_truth motif2idx n_frames instances = Ok gt.
Proof.
  unfold load_recording. intros H.
  apply bind_Ok in H as (v & Hv & H).
  apply bind_Ok in H as (a & Ha & H).
  apply bind_Ok in H as (insts & Hi & H).
  apply bind_Ok in H as (g & Hg & H).
  inversion H; subst.
  destruct (annotations !! (version, act)) as [i0|] eqn:Hann; [|discriminate].
  inversion Hi; subst. split; [exact Hv|]. split; [exact Ha|]. split; [reflexivity | exact Hg].
Qed.

Lemma init_loop_app (motif2idx : gmap string nat)
    (annotations : gmap (string * string) (list instance))
    (rng : nat -> draw) (fuel : nat) (duration_samples : Z)
    (l1 l2 : list pkl_file) (st : LeitmotifDataset * nat) :
  init_loop motif2idx annotations rng fuel duration_samples st (l1 ++ l2)
  = match init_loop motif2idx annotations rng fuel duration_samples st l1 with
    | Some (Ok st1) => init_loop motif2idx annotations rng fuel duration_samples st1 l2
    | other => other
    end.
Proof.
  revert st. induction l1 as [|fn l1 IH]; intros st; [reflexivity|].
  cbn [app init_loop].
  destruct (add_recording _ _ _ _ _ st fn) as [[st1|e]|]; [apply IH | reflexivity..].
Qed.

Lemma init_ok (motif2idx : gmap string nat)
    (annotations : gmap (string * string) (list instance))
    (rng : nat -> draw) (fuel : nat) (pkl_fns : list pkl_file)
    (duration_sec : Q) (duration_samples : Z) (ds : LeitmotifDataset) :
  init motif2idx annotations rng fuel pkl_fns duration_sec duration_samples = Some (Ok ds)
  <-> exists k,
        init_loop motif2idx annotations rng fuel duration_samples
          (empty_dataset duration_sec, O) pkl_fns = Some (Ok (ds, k)).
Proof.
  unfold init. destruct (init_loop _ _ _ _ _ _ _) as [[[ds' k]|e]|]; cbn [fst]; split.
  - intros [= <-]. exists k. reflexivity.
  - intros [k' [= <- _]]. reflexivity.
  - discriminate.
  - intros [k H]. discriminate.
  - discriminate.
  - intros [k H]. discriminate.
Qed.

Lemma init_loop_dom (motif2idx : gmap string nat)
    (annotations : gmap (string * string) (list instance))
    (rng : nat -> draw) (fuel : nat) (duration_samples : Z)
    (pkl_fns : list pkl_file) (st st' : LeitmotifDataset * nat) :
  init_loop motif2idx annotations rng fuel duration_samples st pkl_fns = Some (Ok st') ->
  dom (cqt (fst st')) = dom (cqt (fst st)) ∪ list_to_set (map fst pkl_fns)
  /\ dom (instances_gt (fst st'))
     = dom (instances_gt (fst st)) ∪ list_to_set (map fst pkl_fns).
Proof.
  revert st. induction pkl_fns as [|[stem c] rest IH]; intros [ds k] H; cbn [init_loop] in H.
  - inversion H; subst. cbn [map list_to_set]. rewrite !union_empty_r_L. split; reflexivity.
  - destruct (add_recording _ _ _ _ _ _ _) as [[st1|e]|] eqn:Hadd; try discriminate.
    apply add_recording_ok in Hadd as (v & a & insts & gt & ws & _ & _ & ->).
    apply IH in H as [H1 H2]. cbn [fst cqt instances_gt map list_to_set] in *.
    rewrite H1, H2, !dom_insert_L.
    split; apply set_eq; intros x; rewrite !elem_of_union; tauto.
Qed.

(** X16: after __init__ the two dicts have the same keys, the stems of the
    pickled files. *)
Theorem init_keys (motif2idx : gmap string nat)
    (annotations : gmap (string * string) (list instance))
    (rng : nat -> draw) (fuel : nat) (pkl_fns : list pkl_file)
    (duration_sec : Q) (duration_samples : Z) (ds : LeitmotifDataset) :
  init motif2idx annotations rng fuel pkl_fns duration_sec duration_samples = Some (Ok ds) ->
  dom (cqt ds) = list_to_set (map fst pkl_fns)
  /\ dom (instances_gt ds) = list_to_set (map fst pkl_fns).
Proof.
  intros H. apply init_ok in H as [k H]. apply init_loop_dom in H as [H1 H2].
  cbn [fst empty_dataset cqt instances_gt] in *. rewrite H1, H2.
  rewrite !dom_empty_L, !union_empty_l_L. split; reflexivity.
Qed.

Lemma init_keys_witness :
  short_recording_init = Some (Ok short_recording_dataset)
  /\ dom (cqt short_recording_dataset)
     = list_to_set (map fst [("A_1"%string, blank_cqt 100)]).
Proof.
  assert (H : short_recording_init = Some (Ok short_recording_dataset))
    by (vm_compute; reflexivity).
  split; [exact H|]. apply (proj1 (init_keys _ _ _ _ _ _ _ _ H)).
Defined.

Lemma init_loop_stored (motif2idx : gmap string nat)
    (annotations : gmap (string * string) (list instance))
    (rng : nat -> draw) (fuel : nat) (duration_samples : Z)
    (pkl_fns : list pkl_file) (st st' : LeitmotifDataset * nat) :
  init_loop motif2idx annotations rng fuel duration_samples st pkl_fns = Some (Ok st') ->
  List.NoDup (map fst pkl_fns) ->
  (forall key, ~ In key (map fst pkl_fns) ->
     cqt (fst st') !! key = cqt (fst st) !! key
     /\ instances_gt (fst st') !! key = instances_gt (fst st) !! key)
  /\ (forall stem c, In (stem, c) pkl_fns ->
        cqt (fst st') !! stem = Some c
        /\ exists version act instances gt,
             py_index (split_on "_" stem) 0 = Ok version
             /\ py_index (split_on "_" stem) 1 = Ok act
             /\ annotations !! (version, act) = Some instances
             /\ ground_truth motif2idx (length c) instances = Ok gt
             /\ instances_gt (fst st') !! stem = Some gt).
Proof.
  revert st. induction pkl_fns as [|[stem0 c0] rest IH]; intros [ds k] H Hnd;
    cbn [init_loop] in H.
  - inversion H; subst. split; [intros; split; reflexivity | intros ? ? []].
  - destruct (add_recording _ _ _ _ _ _ _) as [[st1|e]|] eqn:Hadd; try discriminate.
    apply add_recording_ok in Hadd as (v & a & insts & gt & ws & Hload & _ & ->).
    apply load_recording_ok in Hload as (Hv & Ha & Hann & Hgt).
    cbn [map] in Hnd. apply List.NoDup_cons_iff in Hnd as [Hnotin Hnd].
    destruct (IH _ H Hnd) as [Hother Hthese]. cbn [fst cqt instances_gt] in *.
    split.
    + intros key Hkey. cbn [map fst In] in Hkey.
      destruct (Hother key ltac:(tauto)) as [H1 H2]. rewrite H1, H2.
      rewrite !lookup_insert_ne by tauto. split; reflexivity.
    + intros stem c [Heq | Hin].
      * inversion Heq; subst stem0 c0.
        destruct (Hother stem Hnotin) as [H1 H2]. rewrite H1, H2.
        rewrite !lookup_insert_eq. split; [reflexivity|].
        exists v, a, insts, gt. auto.
      * apply (Hthese stem c Hin).
Qed.

(** X17: with distinct stems, after __init__ the dict cqt holds for every
    pickled file the matrix that was read, and the dict instances_gt the
    ground-truth tensor of the annotation table of its (version, act), with
    as many rows as the matrix. *)
Theorem init_stored (motif2idx : gmap string nat)
    (annotations : gmap (string * string) (list instance))
    (rng : nat -> draw) (fuel : nat) (pkl_fns : list pkl_file)
    (duration_sec : Q) (duration_samples : Z) (ds : LeitmotifDataset)
    (stem : string) (c : list (list Q)) :
  init motif2idx annotations rng fuel pkl_fns duration_sec duration_samples = Some (Ok ds) ->
  List.NoDup (map fst pkl_fns) ->
  In (stem, c) pkl_fns ->
  cqt ds !! stem = Some c
  /\ exists version act instances gt,
       py_index (split_on "_" stem) 0 = Ok version
       /\ py_index (split_on "_" stem) 1 = Ok act
       /\ annotations !! (version, act) = Some instances
       /\ ground_truth motif2idx (length c) instances = Ok gt
       /\ instances_gt ds !! stem = Some gt
       /\ length gt = length c.
Proof.
  intros H Hnd Hin. apply init_ok in H as [k H].
  destruct (init_loop_stored _ _ _ _ _ _ _ _ H Hnd) as [_ Hthese].
  destruct (Hthese stem c Hin) as (Hc & v & a & insts & gt & Hv & Ha & Hann & Hgt & Hg).
  split; [exact Hc|]. exists v, a, insts, gt.
  repeat (split; [assumption|]). apply (ground_truth_length _ _ _ _ Hgt).
Qed.

Lemma init_stored_witness :
  short_recording_init = Some (Ok short_recording_dataset)
  /\ cqt short_recording_dataset !! "A_1"%string = Some (blank_cqt 100).
Proof.
  assert (H : short_recording_init = Some (Ok short_recording_dataset))
    by (vm_compute; reflexivity).
  split; [exact H|].
  apply (proj1 (init_stored _ _ _ _ _ _ _ _ "A_1" (blank_cqt 100) H
                  ltac:(repeat constructor; intros [])
                  ltac:(left; reflexivity))).
Defined.

Lemma init_loop_appends (motif2idx : gmap string nat)
    (annotations : gmap (string * string) (list instance))
    (rng : nat -> draw) (fuel : nat) (duration_samples : Z)
    (pkl_fns : list pkl_file) (st st' : LeitmotifDataset * nat) :
  init_loop motif2idx annotations rng fuel duration_samples st pkl_fns = Some (Ok st') ->
  (exists more, samples (fst st') = samples (fst st) ++ more)
  /\ (exists more, none_samples (fst st') = none_samples (fst st) ++ more).
Proof.
  revert st. induction pkl_fns as [|[stem c] rest IH]; intros [ds k] H; cbn [init_loop] in H.
  - inversion H; subst. split; exists []; rewrite app_nil_r; reflexivity.
  - destruct (add_recording _ _ _ _ _ _ _) as [[st1|e]|] eqn:Hadd; try discriminate.
    apply add_recording_ok in Hadd as (v & a & insts & gt & ws & _ & _ & ->).
    apply IH in H as [[m1 H1] [m2 H2]]. cbn [fst samples none_samples] in *.
    rewrite H1, H2, <- !app_assoc. split; eexists; reflexivity.
Qed.

(** X18: files that come later in the sorted order do not renumber what came
    before: the lists of positive and of negative samples built from a
    prefix of the files are prefixes of the lists built from all of them. *)
Theorem init_prefix_stable (motif2idx : gmap string nat)
    (annotations : gmap (string * string) (list instance))
    (rng : nat -> draw) (fuel : nat) (pkl_fns later : list pkl_file)
    (duration_sec : Q) (duration_samples : Z) (ds' : LeitmotifDataset) :
  init motif2idx annotations rng fuel (pkl_fns ++ later) duration_sec duration_samples
  = Some (Ok ds') ->
  exists ds,
    init motif2idx annotations rng fuel pkl_fns duration_sec duration_samples = Some (Ok ds)
    /\ (exists more, samples ds' = samples ds ++ more)
    /\ (exists more, none_samples ds' = none_samples ds ++ more).
Proof.
  intros H. apply init_ok in H as [k' H]. rewrite init_loop_app in H.
  destruct (init_loop _ _ _ _ _ _ pkl_fns) as [[[ds k]|e]|] eqn:H1; try discriminate.
  exists ds. split; [apply init_ok; exists k; exact H1|].
  apply (init_loop_appends _ _ _ _ _ _ _ _ H).
Qed.

Lemma init_prefix_stable_witness :
  two_recordings_init = Some (Ok two_recordings_dataset)
  /\ init example_motif2idx two_recordings_annotations example_rng 10
       [("A_1"%string, blank_cqt 100)] 1 43 = Some (Ok small_window_dataset)
  /\ samples small_window_dataset = [("A"%string, "1"%string, "MotifA"%string, 22, 65)]
  /\ none_samples small_window_dataset = [("A"%string, "1"%string, 43, 86)]
  /\ (exists more, samples two_recordings_dataset = samples small_window_dataset ++ more)
  /\ (exists more,
        none_samples two_recordings_dataset = none_samples small_window_dataset ++ more).
Proof.
  assert (Hinit : two_recordings_init = Some (Ok two_recordings_dataset))
    by (vm_compute; reflexivity).
  split; [exact Hinit|].
  destruct (init_prefix_stable example_motif2idx two_recordings_annotations example_rng 10
              [("A_1"%string, blank_cqt 100)] [("B_1"%string, blank_cqt 100)] 1 43
              two_recordings_dataset Hinit) as (ds & Hds & Hs & Hn).
  assert (Hsmall : init example_motif2idx two_recordings_annotations example_rng 10
                     [("A_1"%string, blank_cqt 100)] 1 43 = Some (Ok small_window_dataset))
    by (vm_compute; reflexivity).
  assert (Heq : ds = small_window_dataset) by congruence.
  subst ds.
  split; [exact Hsmall|]. split; [reflexivity|]. split; [reflexivity|].
  split; [exact Hs | exact Hn].
Defined.

(** X19: every sample that __init__ stores is duration_samples frames long on
    paper: end_frame = start_frame + duration_samples, for positive and for
    negative samples. *)
Theorem init_windows_uniform (motif2idx : gmap string nat)
    (annotations : gmap (string * string) (list instance))
    (rng : nat -> draw) (fuel : nat) (pkl_fns : list pkl_file)
    (duration_sec : Q) (duration_samples : Z) (ds : LeitmotifDataset) :
  init motif2idx annotations rng fuel pkl_fns duration_sec duration_samples = Some (Ok ds) ->
  Forall (fun x => sample_end x - sample_start x = duration_samples) (samples ds)
  /\ Forall (fun x => none_end x - none_start x = duration_samples) (none_samples ds).
Proof.
  intros H. destruct (init_inv _ _ _ _ _ _ _ _ H) as (_ & Hpos & Hneg).
  split; eapply Forall_impl; try eassumption; cbn; intros x Hx; lia.
Qed.

Lemma init_windows_uniform_witness :
  short_recording_init = Some (Ok short_recording_dataset)
  /\ Forall (fun x => sample_end x - sample_start x = 646) (samples short_recording_dataset).
Proof.
  assert (H : short_recording_init = Some (Ok short_recording_dataset))
    by (vm_compute; reflexivity).
  split; [exact H|]. apply (proj1 (init_windows_uniform _ _ _ _ _ _ _ _ H)).
Defined.

(** ** Stems *)

Lemma split_on_nonempty (c : ascii) (s : string) : split_on c s <> [].
Proof.
  destruct s as [|x rest]; cbn [split_on]; [discriminate|].
  destruct (Ascii.eqb x c); [discriminate|].
  destruct (split_on c rest); discriminate.
Qed.

Lemma split_on_no_char (c : ascii) (s : string) :
  has_char c s = false -> split_on c s = [s].
Proof.
  induction s as [|x rest IH]; cbn [has_char split_on]; [reflexivity|].
  intros H. apply orb_false_iff in H as [Hx Hrest].
  rewrite Hx, (IH Hrest). reflexivity.
Qed.

Lemma split_on_one (c : ascii) (s a : string) : split_on c s = [a] -> s = a.
Proof.
  revert a. induction s as [|x rest IH]; intros a; cbn [split_on].
  - intros [= <-]. reflexivity.
  - destruct (Ascii.eqb x c).
    + intros [= _ H]. exfalso. apply (split_on_nonempty c rest H).
    + destruct (split_on c rest) as [|h t] eqn:Hrest;
        [exfalso; apply (split_on_nonempty c rest Hrest)|].
      intros [= <- ->]. rewrite (IH h eq_refl). reflexivity.
Qed.

(** [f"{version}_{act}"] gives the stem back when the stem has two parts. *)
Lemma split_on_two (s v a : string) :
  split_on "_" s = [v; a] -> recording_key v a = s.
Proof.
  unfold recording_key. revert v. induction s as [|x rest IH]; intros v; cbn [split_on].
  - discriminate.
  - destruct (Ascii.eqb x "_") eqn:Hx.
    + intros [= <- H]. apply split_on_one in H. apply Ascii.eqb_eq in Hx.
      subst. reflexivity.
    + destruct (split_on "_" rest) as [|h t] eqn:Hrest; [discriminate|].
      intros [= <- ->].
      transitivity (String x (h ++ "_" ++ a)%string); [reflexivity|].
      f_equal. apply IH. reflexivity.
Qed.

Lemma bind_of_Ok {A B : Type} (a : A) (k : A -> result B) : Ok a ≫= k = k a.
Proof.
  reflexivity.
Qed.

Lemma load_recording_bad (motif2idx : gmap string nat)
    (annotations : gmap (string * string) (list instance))
    (stem : string) (n_frames : nat) :
  (has_char "_" stem = false ->
   load_recording motif2idx annotations stem n_frames = Err IndexError)
  /\ (forall version act,
        py_index (split_on "_" stem) 0 = Ok version ->
        py_index (split_on "_" stem) 1 = Ok act ->
        annotations !! (version, act) = None ->
        load_recording motif2idx annotations stem n_frames = Err FileNotFoundError).
Proof.
  unfold load_recording. split.
  - intros H. rewrite (split_on_no_char _ _ H). reflexivity.
  - intros version act Hv Ha Hann.
    rewrite Hv, bind_of_Ok, Ha, bind_of_Ok, Hann. reflexivity.
Qed.

(** X20: a file that cannot be loaded aborts the construction: a stem without
    an underscore raises IndexError, and a stem whose (version, act) has no
    annotation table raises FileNotFoundError; no dataset is returned. *)
Theorem init_bad_file (motif2idx : gmap string nat)
    (annotations : gmap (string * string) (list instance))
    (rng : nat -> draw) (fuel : nat) (before after : list pkl_file)
    (stem : string) (c : list (list Q))
    (duration_sec : Q) (duration_samples : Z) (ds0 : LeitmotifDataset) :
  init motif2idx annotations rng fuel before duration_sec duration_samples = Some (Ok ds0) ->
  (has_char "_" stem = false ->
   init motif2idx annotations rng fuel (before ++ (stem, c) :: after)
     duration_sec duration_samples = Some (Err IndexError))
  /\ (forall version act,
        py_index (split_on "_" stem) 0 = Ok version ->
        py_index (split_on "_" stem) 1 = Ok act ->
        annotations !! (version, act) = None ->
        init motif2idx annotations rng fuel (before ++ (stem, c) :: after)
          duration_sec duration_samples = Some (Err FileNotFoundError)).
Proof.
  intros H0. apply init_ok in H0 as [k H0].
  destruct (load_recording_bad motif2idx annotations stem (length c)) as [Hidx Hfile].
  split; [intros Hs | intros version act Hv Ha Hann];
    unfold init; rewrite init_loop_app, H0; cbn [init_loop]; unfold add_recording.
  - rewrite (Hidx Hs). reflexivity.
  - rewrite (Hfile version act Hv Ha Hann). reflexivity.
Qed.

Lemma init_bad_file_witness :
  init example_motif2idx short_recording_annotations example_rng 10
    ([] ++ [("A1"%string, blank_cqt 100)]) 15 646 = Some (Err IndexError).
Proof.
  apply (proj1 (init_bad_file example_motif2idx short_recording_annotations example_rng 10
                  [] [] "A1" (blank_cqt 100) 15 646 (empty_dataset 15) eq_refl)).
  reflexivity.
Defined.

(** ** Every index in range yields a sample *)

Lemma lookup_insert_is_Some_keep {A : Type} (m : gmap string A) (i j : string) (x : A) :
  is_Some (m !! j) -> is_Some (<[i := x]> m !! j).
Proof.
  intros H. destruct (decide (i = j)) as [->|Hne].
  - rewrite lookup_insert_eq. eexists. reflexivity.
  - rewrite lookup_insert_ne by exact Hne. exact H.
Qed.

Lemma add_recording_keys (motif2idx : gmap string nat)
    (annotations : gmap (string * string) (list instance))
    (rng : nat -> draw) (fuel : nat) (duration_samples : Z)
    (st st' : LeitmotifDataset * nat) (fn : pkl_file) :
  add_recording motif2idx annotations rng fuel duration_samples st fn = Some (Ok st') ->
  two_parts fn ->
  keys_present (fst st) -> keys_present (fst st').
Proof.
  destruct st as [ds k], fn as [stem c]. unfold two_parts. cbn [fst].
  intros Hadd Htwo [Hpos Hneg].
  apply add_recording_ok in Hadd as (v & a & insts & gt & ws & Hload & _ & ->).
  apply load_recording_ok in Hload as (Hv & Ha & _ & _).
  destruct (split_on "_" stem) as [|p0 [|p1 [|p2 ps]]] eqn:Hsplit; try discriminate.
  cbn in Hv, Ha. inversion Hv; subst p0. inversion Ha; subst p1.
  apply split_on_two in Hsplit.
  split; cbn [fst cqt instances_gt samples none_samples]; apply Forall_app; split.
  - eapply Forall_impl; [exact Hpos|]. cbn. intros x [H1 H2].
    split; apply lookup_insert_is_Some_keep; assumption.
  - apply List.Forall_forall. intros x Hx. apply in_map_iff in Hx as (y & <- & _).
    cbn [sample_version sample_act fst snd]. rewrite Hsplit, !lookup_insert_eq.
    split; eexists; reflexivity.
  - eapply Forall_impl; [exact Hneg|]. cbn. intros x H1.
    apply lookup_insert_is_Some_keep; assumption.
  - apply List.Forall_forall. intros x Hx. apply in_map_iff in Hx as (y & <- & _).
    cbn [none_version none_act fst snd]. rewrite Hsplit, !lookup_insert_eq.
    eexists; reflexivity.
Qed.

Lemma init_loop_keys (motif2idx : gmap string nat)
    (annotations : gmap (string * string) (list instance))
    (rng : nat -> draw) (fuel : nat) (duration_samples : Z)
    (pkl_fns : list pkl_file) (st st' : LeitmotifDataset * nat) :
  init_loop motif2idx annotations rng fuel duration_samples st pkl_fns = Some (Ok st') ->
  Forall two_parts pkl_fns ->
  keys_present (fst st) -> keys_present (fst st').
Proof.
  revert st. induction pkl_fns as [|fn rest IH]; intros st H Htwo Hinv; cbn [init_loop] in H.
  - inversion H; subst. exact Hinv.
  - apply Forall_cons in Htwo as [Hfn Hrest].
    destruct (add_recording _ _ _ _ _ st fn) as [[st1|e]|] eqn:Hadd; try discriminate.
    apply (IH st1 H Hrest). apply (add_recording_keys _ _ _ _ _ _ _ _ Hadd Hfn Hinv).
Qed.

(** X21: when every stem is of the form version_act, the accessor of the
    dataset built by __init__ returns a pair at every index from
    -len(samples) up to len(samples) + len(none_samples) - 1: no KeyError,
    no IndexError. *)
Theorem getitem_total (motif2idx : gmap string nat)
    (annotations : gmap (string * string) (list instance))
    (rng : nat -> draw) (fuel : nat) (pkl_fns : list pkl_file)
    (duration_sec : Q) (duration_samples : Z) (ds : LeitmotifDataset) (idx : Z) :
  init motif2idx annotations rng fuel pkl_fns duration_sec duration_samples = Some (Ok ds) ->
  Forall two_parts pkl_fns ->
  0 <= duration_samples ->
  - Z.of_nat (length (samples ds)) <= idx < len ds ->
  exists w l, getitem ds idx = Ok (w, l).
Proof.
  intros Hinit Htwo HN Hidx.
  destruct (init_inv _ _ _ _ _ _ _ _ Hinit) as (_ & _ & Hlen).
  apply init_ok in Hinit as [k Hloop].
  apply init_loop_keys in Hloop; [|exact Htwo | split; constructor].
  destruct Hloop as [Hpos Hneg]. cbn [fst] in *. unfold len in Hidx.
  set (n := Z.of_nat (length (samples ds))) in *.
  destruct (Z_lt_le_dec idx n) as [Hlt|Hge].
  - assert (Hx : exists x, py_index (samples ds) idx = Ok x).
    { destruct (Z_lt_le_dec idx 0).
      - rewrite py_index_negative by (fold n; lia). fold n.
        rewrite py_index_nonneg by lia.
        destruct (lookup_lt_is_Some_2 (samples ds) (Z.to_nat (idx + n)) ltac:(lia))
          as [x Hx].
        exists x. rewrite Hx. reflexivity.
      - rewrite py_index_nonneg by lia.
        destruct (lookup_lt_is_Some_2 (samples ds) (Z.to_nat idx) ltac:(lia)) as [x Hx].
        exists x. rewrite Hx. reflexivity. }
    destruct Hx as [x Hx]. rewrite (getitem_positive ds idx x Hlt Hx).
    apply py_index_In in Hx. eapply List.Forall_forall in Hpos; [|exact Hx].
    destruct Hpos as [[c Hc] [g Hg]]. unfold py_getitem. rewrite Hc, Hg.
    eexists. eexists. reflexivity.
  - destruct (lookup_lt_is_Some_2 (none_samples ds) (Z.to_nat (idx - n)) ltac:(lia))
      as [x Hx].
    assert (Hpy : py_index (none_samples ds) (idx - n) = Ok x)
      by (rewrite py_index_nonneg by lia; rewrite Hx; reflexivity).
    rewrite (getitem_negative ds idx x Hge Hpy).
    apply py_index_In in Hpy.
    eapply List.Forall_forall in Hneg; [|exact Hpy].
    eapply List.Forall_forall in Hlen; [|exact Hpy].
    destruct Hneg as [c Hc]. unfold py_getitem, zeros. rewrite Hc.
    destruct (none_end x - none_start x <? 0) eqn:Hz; [apply Z.ltb_lt in Hz; lia|].
    eexists. eexists. reflexivity.
Qed.

Lemma getitem_total_witness :
  short_recording_init = Some (Ok short_recording_dataset)
  /\ exists w l, getitem short_recording_dataset (-1) = Ok (w, l).
Proof.
  assert (H : short_recording_init = Some (Ok short_recording_dataset))
    by (vm_compute; reflexivity).
  split; [exact H|].
  apply (getitem_total _ _ _ _ _ _ _ _ (-1) H).
  - repeat constructor.
  - lia.
  - vm_compute. split; [discriminate | reflexivity].
Defined.

(** ** The order of the negative samples *)

(** X22: whatever windows the loop has recorded, the negative samples of a
    recording are stored by increasing start frame. *)
Theorem negative_samples_sorted (version act : string) (duration_samples : Z)
    (none_samples_act : list (Q * Q)) :
  StronglySorted (fun x y => none_start x <= none_start y)
    (negative_samples version act duration_samples (sort_by fst none_samples_act)).
Proof.
  unfold negative_samples. apply strongly_sorted_map. cbn [none_start fst snd].
  pose proof (sort_by_sorted fst none_samples_act) as Hs.
  induction Hs as [|w ws Hws IH Hw]; constructor; [exact IH|].
  eapply Forall_impl; [exact Hw|]. cbn. intros w' Hle. apply sec_to_frame_mono, Hle.
Qed.

(** ** Negative indices *)

(** C10, as the code has it: in a dataset built by __init__ from files whose
    stems have the form version_act, an index from -len(samples) to -1 does
    not fail: the positive branch runs, Python indexing reads the positive
    sample at position len(samples) + idx, its recording is in both dicts,
    and the accessor returns the slice of the spectral matrix and the slice
    of the ground-truth tensor of that sample, as it does at the index
    len(samples) + idx. *)
Theorem getitem_negative_index (motif2idx : gmap string nat)
    (annotations : gmap (string * string) (list instance))
    (rng : nat -> draw) (fuel : nat) (pkl_fns : list pkl_file)
    (duration_sec : Q) (duration_samples : Z) (ds : LeitmotifDataset) (idx : Z) :
  init motif2idx annotations rng fuel pkl_fns duration_sec duration_samples = Some (Ok ds) ->
  Forall two_parts pkl_fns ->
  - Z.of_nat (length (samples ds)) <= idx <= -1 ->
  exists x c g,
    samples ds !! Z.to_nat (Z.of_nat (length (samples ds)) + idx) = Some x
    /\ cqt ds !! recording_key (sample_version x) (sample_act x) = Some c
    /\ instances_gt ds !! recording_key (sample_version x) (sample_act x) = Some g
    /\ getitem ds idx
       = Ok (py_slice (sample_start x) (sample_end x) c,
             py_slice (sample_start x) (sample_end x) g)
    /\ getitem ds idx = getitem ds (Z.of_nat (length (samples ds)) + idx).
Proof.
  intros Hinit Htwo Hidx.
  apply init_ok in Hinit as [k Hloop].
  apply init_loop_keys in Hloop; [|exact Htwo | split; constructor].
  destruct Hloop as [Hpos _]. cbn [fst] in Hpos.
  destruct (getitem_from_end ds idx Hidx) as (x & Hx & _ & Hsame & Hget).
  assert (Hin : In x (samples ds))
    by (apply list_elem_of_In, list_elem_of_lookup; eauto).
  eapply List.Forall_forall in Hpos; [|exact Hin].
  destruct Hpos as [[c Hc] [g Hg]].
  exists x, c, g. split; [exact Hx|]. split; [exact Hc|]. split; [exact Hg|].
  split; [apply (Hget c g Hc Hg) | exact Hsame].
Qed.

Lemma getitem_negative_index_witness :
  small_window_init = Some (Ok small_window_dataset)
  /\ exists x c g,
       samples small_window_dataset !! 0%nat = Some x
       /\ cqt small_window_dataset !! "A_1"%string = Some c
       /\ instances_gt small_window_dataset !! "A_1"%string = Some g
       /\ getitem small_window_dataset (-1)
          = Ok (py_slice (sample_start x) (sample_end x) c,
                py_slice (sample_start x) (sample_end x) g)
       /\ getitem small_window_dataset (-1) = getitem small_window_dataset 0.
Proof.
  assert (Hinit : small_window_init = Some (Ok small_window_dataset))
    by (vm_compute; reflexivity).
  split; [exact Hinit|].
  destruct (getitem_negative_index _ _ _ _ _ _ _ _ (-1) Hinit
              ltac:(repeat constructor)
              ltac:(vm_compute; split; discriminate))
    as (x & c & g & Hx & Hc & Hg & Hget & Hsame).
  exists x, c, g. split; [exact Hx|].
  assert (Hkey : recording_key (sample_version x) (sample_act x) = "A_1"%string).
  { vm_compute in Hx. injection Hx as <-. reflexivity. }
  rewrite Hkey in Hc, Hg.
  split; [exact Hc|]. split; [exact Hg|]. split; [exact Hget | exact Hsame].
Defined.

(** C10, as the specification has it, fails: for the file A_1_x.pkl lines 46
    and 47 read version A and act 1, the matrix is stored under A_1_x, and
    the accessor looks the positive sample up under A_1: the index -1 of a
    dataset with one positive sample raises KeyError. *)
Lemma getitem_negative_index_key_error :
  exists ds,
    third_part_init = Some (Ok ds)
    /\ samples ds = [("A"%string, "1"%string, "MotifA"%string, 22, 65)]
    /\ - Z.of_nat (length (samples ds)) <= -1 <= -1
    /\ getitem ds (-1) = Err KeyError.
Proof.
  eexists. split; [vm_compute; reflexivity|].
  split; [reflexivity|].
  split; [vm_compute; split; discriminate|].
  vm_compute. reflexivity.
Qed.

(** ** Windows inside their recording *)

(** In a recording at least one window long whose annotations lie inside
    it, the window of every positive sample lies inside the recording, as
    long as duration_samples is below duration_sec * 22050 / 512 + 1/2
    (646 < 645.996 + 1/2 by default). *)
Lemma positive_samples_in_recording (instances : list instance) (d : Q)
    (n_frames : nat) (version act : string) (duration_samples : Z) (x : sample) :
  Forall (instance_inside n_frames) instances ->
  duration_samples <= Z.of_nat n_frames ->
  (inject_Z duration_samples < d * (22050 # 512) + (1 # 2))%Q ->
  In x (positive_samples version act duration_samples
          (sample_instance_intervals instances d
             (inject_Z (total_duration (Z.of_nat n_frames))))) ->
  0 <= sample_start x /\ sample_end x <= Z.of_nat n_frames.
Proof.
  intros Hinside Hlong HN Hx.
  apply in_map_iff in Hx as ([motif s0] & <- & Hy).
  apply in_map_iff in Hy as ([[m s] e] & Hy & Hi).
  eapply List.Forall_forall in Hinside; [|exact Hi].
  destruct Hinside as [Hs He]. cbn [fst snd] in Hs, He.
  cbn [sample_start sample_end fst snd].
  destruct (frame_to_sec_bounds (Z.of_nat n_frames)) as [Hsec _].
  fold (total_duration (Z.of_nat n_frames)) in Hsec.
  set (total := inject_Z (total_duration (Z.of_nat n_frames))) in *.
  pose proof (sec_to_frame_upper s0) as Hup.
  assert (Hend : forall bound : Q,
             (s0 <= bound)%Q ->
             (bound * (22050 # 512) <= inject_Z (Z.of_nat n_frames) - d * (22050 # 512))%Q ->
             sec_to_frame s0 + duration_samples <= Z.of_nat n_frames).
  { intros bound Hb Hbound.
    assert (H1 : (s0 * (22050 # 512) <= bound * (22050 # 512))%Q)
      by (apply Qmult_le_compat_r; [exact Hb | discriminate]).
    assert (H2 : (inject_Z (sec_to_frame s0 + duration_samples)
                  < inject_Z (Z.of_nat n_frames + 1))%Q).
    { rewrite !inject_Z_plus. change (inject_Z 1) with 1%Q. lra. }
    rewrite <- Zlt_Qlt in H2. lia. }
  destruct (Qlt_le_dec (e - s) d) as [Hshort|Hlong'];
    injection Hy as Hm Hs0; subst s0.
  - destruct (Q.max_spec 0 (Qmin s (total - d))) as [[Hlt Hmax]|[Hle Hmax]];
      destruct (Q.min_spec s (total - d)) as [[Hlt' Hmin]|[Hle' Hmin]].
    all: set (mx := Qmax 0 (Qmin s (total - d))) in *; clearbody mx.
    all: set (mn := Qmin s (total - d)) in *; clearbody mn.
    all: split;
      [change 0 with (sec_to_frame 0); apply sec_to_frame_mono; lra|].
    1,2: apply (Hend (total - d)%Q); [lra|];
         assert (H3 : ((total - d) * (22050 # 512)
                       == total * (22050 # 512) - d * (22050 # 512))%Q) by ring;
         rewrite H3; lra.
    all: assert (H0 : sec_to_frame mx <= sec_to_frame 0)
           by (apply sec_to_frame_mono; lra);
         change (sec_to_frame 0) with 0 in H0; lia.
  - destruct (Q.min_spec s (e - d)) as [[Hlt' Hmin]|[Hle' Hmin]].
    all: set (mn := Qmin s (e - d)) in *; clearbody mn.
    all: split;
      [change 0 with (sec_to_frame 0); apply sec_to_frame_mono; lra|].
    all: apply (Hend (e - d)%Q); [lra|];
         assert (H3 : ((e - d) * (22050 # 512)
                       == e * (22050 # 512) - d * (22050 # 512))%Q) by ring;
         rewrite H3; lra.
Qed.

Lemma add_recording_inside (motif2idx : gmap string nat)
    (annotations : gmap (string * string) (list instance))
    (rng : nat -> draw) (fuel : nat) (duration_samples : Z)
    (st st' : LeitmotifDataset * nat) (fn : pkl_file) :
  add_recording motif2idx annotations rng fuel duration_samples st fn = Some (Ok st') ->
  two_parts fn ->
  holds_window annotations duration_samples fn ->
  (inject_Z duration_samples < duration_sec (fst st) * (22050 # 512) + (1 # 2))%Q ->
  cqt (fst st) !! fst fn = None ->
  windows_inside (fst st) ->
  windows_inside (fst st') /\ duration_sec (fst st') = duration_sec (fst st).
Proof.
  destruct st as [ds k], fn as [stem c]. unfold two_parts, holds_window. cbn [fst snd].
  intros Hadd Htwo [Hlong Hann] HN Hnew [Hpos Hneg].
  apply add_recording_ok in Hadd as (v & a & insts & gt & ws & Hload & Hws & ->).
  apply load_recording_ok in Hload as (Hv & Ha & Hinsts & _).
  specialize (Hann v a insts Hv Ha Hinsts).
  destruct (split_on "_" stem) as [|p0 [|p1 [|p2 ps]]] eqn:Hsplit; try discriminate.
  cbn in Hv, Ha. inversion Hv; subst p0. inversion Ha; subst p1.
  apply split_on_two in Hsplit.
  assert (Hkeep : forall key c', cqt ds !! key = Some c' ->
                    <[stem := c]> (cqt ds) !! key = Some c').
  { intros key c' Hc. rewrite lookup_insert_ne; [exact Hc|].
    intros ->. rewrite Hnew in Hc. discriminate. }
  split; [|reflexivity].
  split; cbn [fst cqt samples none_samples]; apply Forall_app; split.
  - eapply Forall_impl; [exact Hpos|]. cbn. intros x (c' & Hc & Hx).
    exists c'. split; [apply Hkeep, Hc | exact Hx].
  - apply List.Forall_forall. intros x Hx. exists c.
    split.
    + apply in_map_iff in Hx as (y & <- & _).
      cbn [sample_version sample_act fst snd]. rewrite Hsplit. apply lookup_insert_eq.
    + apply (positive_samples_in_recording insts (duration_sec ds) (length c) v a
               duration_samples x Hann Hlong HN Hx).
  - eapply Forall_impl; [exact Hneg|]. cbn. intros x (c' & Hc & Hx).
    exists c'. split; [apply Hkeep, Hc | exact Hx].
  - apply List.Forall_forall. intros x Hx. exists c.
    split.
    + apply in_map_iff in Hx as (y & <- & _).
      cbn [none_version none_act fst snd]. rewrite Hsplit. apply lookup_insert_eq.
    + apply (negative_samples_in_recording rng (duration_sec ds) fuel k insts (length c)
               v a duration_samples ws x Hws HN Hx).
Qed.

Lemma add_recording_other_keys (motif2idx : gmap string nat)
    (annotations : gmap (string * string) (list instance))
    (rng : nat -> draw) (fuel : nat) (duration_samples : Z)
    (st st' : LeitmotifDataset * nat) (fn : pkl_file) (key : string) :
  add_recording motif2idx annotations rng fuel duration_samples st fn = Some (Ok st') ->
  key <> fst fn ->
  cqt (fst st') !! key = cqt (fst st) !! key.
Proof.
  destruct st as [ds k], fn as [stem c]. cbn [fst]. intros Hadd Hne.
  apply add_recording_ok in Hadd as (v & a & insts & gt & ws & _ & _ & ->).
  cbn [fst cqt]. apply lookup_insert_ne. congruence.
Qed.

Lemma init_loop_inside (motif2idx : gmap string nat)
    (annotations : gmap (string * string) (list instance))
    (rng : nat -> draw) (fuel : nat) (duration_samples : Z)
    (pkl_fns : list pkl_file) (st st' : LeitmotifDataset * nat) :
  init_loop motif2idx annotations rng fuel duration_samples st pkl_fns = Some (Ok st') ->
  List.NoDup (map fst pkl_fns) ->
  Forall two_parts pkl_fns ->
  Forall (holds_window annotations duration_samples) pkl_fns ->
  (inject_Z duration_samples < duration_sec (fst st) * (22050 # 512) + (1 # 2))%Q ->
  (forall key, In key (map fst pkl_fns) -> cqt (fst st) !! key = None) ->
  windows_inside (fst st) ->
  windows_inside (fst st').
Proof.
  revert st. induction pkl_fns as [|fn rest IH];
    intros st H Hnd Htwo Hholds HN Hnew Hinv; cbn [init_loop] in H.
  - inversion H; subst. exact Hinv.
  - apply Forall_cons in Htwo as [Htwo1 Htwo].
    apply Forall_cons in Hholds as [Hholds1 Hholds].
    cbn [map] in Hnd. apply List.NoDup_cons_iff in Hnd as [Hnotin Hnd].
    destruct (add_recording _ _ _ _ _ st fn) as [[st1|e]|] eqn:Hadd; try discriminate.
    destruct (add_recording_inside _ _ _ _ _ _ _ _ Hadd Htwo1 Hholds1 HN
                (Hnew (fst fn) ltac:(left; reflexivity)) Hinv) as [Hinv1 Hd].
    apply (IH st1 H Hnd Htwo Hholds).
    + rewrite Hd. exact HN.
    + intros key Hkey.
      rewrite (add_recording_other_keys _ _ _ _ _ _ _ _ key Hadd).
      * apply Hnew. right. exact Hkey.
      * intros ->. apply Hnotin, Hkey.
    + exact Hinv1.
Qed.

(** C3, as the code has it: in a dataset built by __init__ from recordings
    named version_act that are each at least duration_samples frames long
    and hold their annotations, with duration_samples below
    duration_sec * 22050 / 512 + 1/2 (as 646 is for 15 s), both components of
    every item that the accessor returns have exactly duration_samples
    frames, for positive and for negative samples: the window of the sample
    lies inside the spectral matrix of its recording. *)
Theorem getitem_window_lengths (motif2idx : gmap string nat)
    (annotations : gmap (string * string) (list instance))
    (rng : nat -> draw) (fuel : nat) (pkl_fns : list pkl_file)
    (duration_sec : Q) (duration_samples : Z) (ds : LeitmotifDataset)
    (idx : Z) (w : list (list Q)) (l : list (list Z)) :
  init motif2idx annotations rng fuel pkl_fns duration_sec duration_samples = Some (Ok ds) ->
  List.NoDup (map fst pkl_fns) ->
  Forall two_parts pkl_fns ->
  Forall (holds_window annotations duration_samples) pkl_fns ->
  0 <= duration_samples ->
  (inject_Z duration_samples < duration_sec * (22050 # 512) + (1 # 2))%Q ->
  getitem ds idx = Ok (w, l) ->
  Z.of_nat (length w) = duration_samples
  /\ Z.of_nat (length l) = duration_samples
  /\ exists key start c,
       cqt ds !! key = Some c
       /\ 0 <= start /\ start + duration_samples <= Z.of_nat (length c)
       /\ w = py_slice start (start + duration_samples) c.
Proof.
  intros Hinit Hnd Htwo Hholds HD HN Hget.
  destruct (init_inv _ _ _ _ _ _ _ _ Hinit) as (Hrows & Hpos & Hneg).
  apply init_ok in Hinit as [k Hloop].
  apply init_loop_inside in Hloop;
    [|exact Hnd | exact Htwo | exact Hholds | exact HN
     | intros key _; apply lookup_empty | split; constructor].
  destruct Hloop as [Hin_pos Hin_neg]. cbn [fst] in Hin_pos, Hin_neg.
  destruct (Z_lt_le_dec idx (Z.of_nat (length (samples ds)))) as [Hlt|Hge].
  - destruct (py_index (samples ds) idx) as [x|e] eqn:Hx.
    2:{ unfold getitem in Hget. apply Z.ltb_lt in Hlt. rewrite Hlt, Hx in Hget.
        discriminate. }
    rewrite (getitem_positive ds idx x Hlt Hx) in Hget.
    apply py_index_In in Hx.
    eapply List.Forall_forall in Hpos; [|exact Hx].
    eapply List.Forall_forall in Hin_pos; [|exact Hx].
    destruct Hin_pos as (c & Hc & H0 & Hend).
    unfold py_getitem in Hget. rewrite Hc in Hget.
    destruct (instances_gt ds !! _) as [g|] eqn:Hg; [|discriminate].
    cbn in Hget. inversion Hget; subst w l; clear Hget.
    rewrite Hpos in *. pose proof (Hrows _ c g Hc Hg) as Hcg.
    rewrite <- (length_py_slice_same _ _ c g Hcg).
    rewrite (length_py_slice_inside _ _ c) by lia.
    split; [lia|]. split; [lia|].
    exists (recording_key (sample_version x) (sample_act x)), (sample_start x), c.
    repeat split; [exact Hc | exact H0 | exact Hend].
  - destruct (py_index (none_samples ds) (idx - Z.of_nat (length (samples ds))))
      as [x|e] eqn:Hx.
    2:{ unfold getitem in Hget. apply Z.ltb_ge in Hge. rewrite Hge, Hx in Hget.
        discriminate. }
    rewrite (getitem_negative ds idx x Hge Hx) in Hget.
    apply py_index_In in Hx.
    eapply List.Forall_forall in Hneg; [|exact Hx].
    eapply List.Forall_forall in Hin_neg; [|exact Hx].
    destruct Hin_neg as (c & Hc & H0 & Hend).
    unfold py_getitem in Hget. rewrite Hc in Hget.
    cbn in Hget. rewrite Hneg in *.
    replace (none_start x + duration_samples - none_start x) with duration_samples
      in Hget by lia.
    unfold zeros in Hget.
    destruct (duration_samples <? 0) eqn:Hneg0; [apply Z.ltb_lt in Hneg0; lia|].
    cbn in Hget. inversion Hget; subst w l; clear Hget.
    rewrite length_replicate, (length_py_slice_inside _ _ c) by lia.
    split; [lia|]. split; [lia|].
    exists (recording_key (none_version x) (none_act x)), (none_start x), c.
    repeat split; [exact Hc | exact H0 | exact Hend].
Qed.

Lemma getitem_window_lengths_witness :
  two_recordings_init = Some (Ok two_recordings_dataset)
  /\ exists w l,
       getitem two_recordings_dataset 3 = Ok (w, l)
       /\ Z.of_nat (length w) = 43 /\ Z.of_nat (length l) = 43.
Proof.
  assert (Hinit : two_recordings_init = Some (Ok two_recordings_dataset))
    by (vm_compute; reflexivity).
  split; [exact Hinit|].
  destruct (getitem two_recordings_dataset 3) as [[w l]|e] eqn:Hget;
    [|vm_compute in Hget; discriminate].
  exists w, l. split; [reflexivity|].
  assert (Hholds : Forall (holds_window two_recordings_annotations 43)
                     ([("A_1"%string, blank_cqt 100)] ++ [("B_1"%string, blank_cqt 100)])).
  { apply List.Forall_cons; [|apply List.Forall_cons; [|apply List.Forall_nil]].
    all: split; [vm_compute; discriminate|].
    all: cbn [fst snd]; intros version act instances Hv Ha Hann.
    all: vm_compute in Hv; vm_compute in Ha.
    all: injection Hv as <-; injection Ha as <-.
    all: vm_compute in Hann; injection Hann as <-.
    all: apply List.Forall_cons; [|apply List.Forall_nil].
    all: split; vm_compute; discriminate. }
  destruct (getitem_window_lengths _ _ _ _ _ _ _ _ 3 w l Hinit
              ltac:(repeat constructor; cbn; intuition discriminate)
              ltac:(repeat constructor)
              Hholds
              ltac:(lia)
              ltac:(vm_compute; reflexivity)
              Hget) as (Hw & Hl & _).
  split; [exact Hw | exact Hl].
Defined.

(** ** collate_fn *)

Lemma size_uniform {A : Type} (t : list (list A)) (width : nat) :
  Forall (fun r => length r = width) t -> tensor_size t = replicate (length t) width.
Proof.
  unfold tensor_size. induction 1 as [|r t Hr _ IH]; cbn; [reflexivity|].
  rewrite Hr, IH. reflexivity.
Qed.

Lemma stack_same_size {A : Type} (ts : list (list (list A))) (sz : list nat) :
  ts <> [] -> Forall (fun t => tensor_size t = sz) ts -> stack ts = Some ts.
Proof.
  intros Hne Hall. destruct ts as [|t rest]; [congruence|]. unfold stack.
  apply Forall_cons in Hall as [Ht Hrest].
  assert (Hb : forallb (fun t' => bool_decide (tensor_size t' = tensor_size t)) rest = true).
  { apply forallb_forall. intros t' Ht'. apply bool_decide_eq_true.
    eapply List.Forall_forall in Hrest; [|exact Ht']. congruence. }
  rewrite Hb. reflexivity.
Qed.

Lemma stack_Some_sizes {A : Type} (ts ts' : list (list (list A))) (t1 t2 : list (list A)) :
  stack ts = Some ts' -> In t1 ts -> In t2 ts -> tensor_size t1 = tensor_size t2.
Proof.
  destruct ts as [|t rest]; [discriminate|]. unfold stack.
  destruct (forallb _ rest) eqn:Hb; [|discriminate]. intros _ H1 H2.
  assert (Hall : forall t', In t' (t :: rest) -> tensor_size t' = tensor_size t).
  { intros t' [<- | Ht']; [reflexivity|].
    rewrite forallb_forall in Hb. eapply bool_decide_eq_true_1. apply Hb, Ht'. }
  rewrite (Hall t1 H1), (Hall t2 H2). reflexivity.
Qed.

(** X23: a batch in which two spectral windows, or two label windows, differ
    in their number of frames cannot be collated: torch.stack raises. *)
Theorem collate_fn_mismatch (batch : list (list (list Q) * list (list Z)))
    (a b : list (list Q) * list (list Z)) :
  In a batch -> In b batch ->
  length (fst a) <> length (fst b) \/ length (snd a) <> length (snd b) ->
  collate_fn batch = StackError.
Proof.
  intros Ha Hb Hdiff. unfold collate_fn.
  destruct batch as [|x rest]; [destruct Ha|].
  destruct (stack (map fst (x :: rest))) as [cs|] eqn:Hc; [|reflexivity].
  destruct (stack (map snd (x :: rest))) as [gs|] eqn:Hg; [|reflexivity].
  exfalso.
  pose proof (stack_Some_sizes _ _ (fst a) (fst b) Hc (in_map fst _ _ Ha) (in_map fst _ _ Hb))
    as H1.
  pose proof (stack_Some_sizes _ _ (snd a) (snd b) Hg (in_map snd _ _ Ha) (in_map snd _ _ Hb))
    as H2.
  apply (f_equal (@length nat)) in H1, H2. unfold tensor_size in H1, H2.
  rewrite !length_map in H1, H2. tauto.
Qed.

Lemma collate_fn_mismatch_witness :
  collate_fn [(fst short_recording_windows, snd short_recording_windows);
              (blank_cqt 3, [[0]; [0]; [1]])] = StackError.
Proof.
  apply (collate_fn_mismatch _ (fst short_recording_windows, snd short_recording_windows)
           (blank_cqt 3, [[0]; [0]; [1]]));
    [left; reflexivity | right; left; reflexivity | left; vm_compute; discriminate].
Defined.

Lemma ground_truth_widths (motif2idx : gmap string nat) (n_frames : nat)
    (instances : list instance) (gt : list (list Z)) :
  ground_truth motif2idx n_frames instances = Ok gt ->
  Forall (fun r => length r = 21%nat) gt.
Proof.
  intros Hgt. apply ground_truth_unfold in Hgt as (gt1 & _ & -> & Hbin & _).
  apply List.Forall_forall. intros r Hr. apply in_map_iff in Hr as (r1 & <- & Hr1).
  eapply List.Forall_forall in Hbin; [|exact Hr1]. destruct Hbin as [Hlen _].
  rewrite (set_none_eq r1 Hlen), length_insert. exact Hlen.
Qed.

Lemma init_loop_widths (motif2idx : gmap string nat)
    (annotations : gmap (string * string) (list instance))
    (rng : nat -> draw) (fuel : nat) (duration_samples : Z) (n_bins : nat)
    (pkl_fns : list pkl_file) (st st' : LeitmotifDataset * nat) :
  init_loop motif2idx annotations rng fuel duration_samples st pkl_fns = Some (Ok st') ->
  Forall (fun fn : pkl_file => Forall (fun r => length r = n_bins) (snd fn)) pkl_fns ->
  widths n_bins (fst st) -> widths n_bins (fst st').
Proof.
  revert st. induction pkl_fns as [|[stem c] rest IH]; intros [ds k] H Hw Hinv;
    cbn [init_loop] in H.
  - inversion H; subst. exact Hinv.
  - apply Forall_cons in Hw as [Hc Hrest]. cbn [snd] in Hc.
    destruct (add_recording _ _ _ _ _ _ _) as [[st1|e]|] eqn:Hadd; try discriminate.
    apply add_recording_ok in Hadd as (v & a & insts & gt & ws & Hload & _ & ->).
    apply load_recording_ok in Hload as (_ & _ & _ & Hgt).
    apply (IH _ H Hrest). destruct Hinv as [H1 H2].
    split; cbn [fst cqt instances_gt]; intros key t Ht.
    + destruct (decide (stem = key)) as [->|Hne].
      * rewrite lookup_insert_eq in Ht. inversion Ht; subst. exact Hc.
      * rewrite lookup_insert_ne in Ht by exact Hne. apply (H1 key t Ht).
    + destruct (decide (stem = key)) as [->|Hne].
      * rewrite lookup_insert_eq in Ht. inversion Ht; subst.
        apply (ground_truth_widths _ _ _ _ Hgt).
      * rewrite lookup_insert_ne in Ht by exact Hne. apply (H2 key t Ht).
Qed.

Lemma Forall_py_slice {A : Type} (P : A -> Prop) (start stop : Z) (l : list A) :
  Forall P l -> Forall P (py_slice start stop l).
Proof.
  intros H. unfold py_slice. apply Forall_take, Forall_drop, H.
Qed.

(** The size of an item of full length of a dataset built by __init__. *)
Lemma getitem_sizes (motif2idx : gmap string nat)
    (annotations : gmap (string * string) (list instance))
    (rng : nat -> draw) (fuel : nat) (pkl_fns : list pkl_file)
    (duration_sec : Q) (duration_samples : Z) (n_bins : nat)
    (ds : LeitmotifDataset) (idx : Z) (w : list (list Q)) (l : list (list Z)) :
  init motif2idx annotations rng fuel pkl_fns duration_sec duration_samples = Some (Ok ds) ->
  Forall (fun fn : pkl_file => Forall (fun r => length r = n_bins) (snd fn)) pkl_fns ->
  getitem ds idx = Ok (w, l) ->
  Z.of_nat (length w) = duration_samples ->
  tensor_size w = replicate (Z.to_nat duration_samples) n_bins
  /\ tensor_size l = replicate (Z.to_nat duration_samples) 21%nat.
Proof.
  intros Hinit Hbins Hget Hfull.
  destruct (init_inv _ _ _ _ _ _ _ _ Hinit) as (Hrows & _ & Hneg).
  apply init_ok in Hinit as [k Hloop].
  apply (init_loop_widths _ _ _ _ _ n_bins) in Hloop;
    [|exact Hbins | split; cbn; intros key t Ht; rewrite lookup_empty in Ht; discriminate].
  destruct Hloop as [Hwc Hwg]. cbn [fst] in *.
  destruct (Z_lt_le_dec idx (Z.of_nat (length (samples ds)))) as [Hlt|Hge].
  - destruct (py_index (samples ds) idx) as [x|e] eqn:Hx.
    2:{ unfold getitem in Hget. apply Z.ltb_lt in Hlt. rewrite Hlt, Hx in Hget. discriminate. }
    rewrite (getitem_positive ds idx x Hlt Hx) in Hget. unfold py_getitem in Hget.
    destruct (cqt ds !! _) as [c|] eqn:Hc; [|discriminate].
    destruct (instances_gt ds !! _) as [g|] eqn:Hg; [|discriminate].
    cbn in Hget. inversion Hget; subst w l; clear Hget.
    pose proof (length_py_slice_same (sample_start x) (sample_end x) c g
                  (Hrows _ c g Hc Hg)) as Hsame.
    rewrite (size_uniform _ n_bins) by (apply Forall_py_slice, (Hwc _ _ Hc)).
    rewrite (size_uniform _ 21%nat) by (apply Forall_py_slice, (Hwg _ _ Hg)).
    rewrite <- Hsame. split; f_equal; lia.
  - destruct (py_index (none_samples ds) (idx - Z.of_nat (length (samples ds))))
      as [x|e] eqn:Hx.
    2:{ unfold getitem in Hget. apply Z.ltb_ge in Hge. rewrite Hge, Hx in Hget. discriminate. }
    rewrite (getitem_negative ds idx x Hge Hx) in Hget.
    apply py_index_In in Hx. eapply List.Forall_forall in Hneg; [|exact Hx].
    unfold py_getitem in Hget.
    destruct (cqt ds !! _) as [c|] eqn:Hc; [|discriminate].
    cbn in Hget. rewrite Hneg in Hget.
    replace (none_start x + duration_samples - none_start x) with duration_samples
      in Hget by lia.
    unfold zeros in Hget.
    destruct ((duration_samples <? 0) || (21 <? 0)); [discriminate|].
    cbn in Hget. inversion Hget; subst w l; clear Hget.
    rewrite (size_uniform _ n_bins) by (apply Forall_py_slice, (Hwc _ _ Hc)).
    split; [f_equal; lia|].
    unfold tensor_size. apply (fmap_replicate length).
Qed.

(** X24: in a dataset built by __init__ from matrices of n_bins columns, any
    batch that is not empty and holds only items whose spectral window has
    the full duration_samples frames is collated, into the windows in batch
    order. *)
Theorem collate_fn_full_windows (motif2idx : gmap string nat)
    (annotations : gmap (string * string) (list instance))
    (rng : nat -> draw) (fuel : nat) (pkl_fns : list pkl_file)
    (duration_sec : Q) (duration_samples : Z) (n_bins : nat)
    (ds : LeitmotifDataset) (batch : list (list (list Q) * list (list Z))) :
  init motif2idx annotations rng fuel pkl_fns duration_sec duration_samples = Some (Ok ds) ->
  Forall (fun fn : pkl_file => Forall (fun r => length r = n_bins) (snd fn)) pkl_fns ->
  batch <> [] ->
  Forall (fun item => (exists idx, getitem ds idx = Ok item)
                      /\ Z.of_nat (length (fst item)) = duration_samples) batch ->
  collate_fn batch = Collated (map fst batch, map snd batch).
Proof.
  intros Hinit Hbins Hne Hitems.
  assert (Hsizes : Forall (fun item => tensor_size (fst item) = replicate (Z.to_nat duration_samples) n_bins
                                       /\ tensor_size (snd item) = replicate (Z.to_nat duration_samples) 21%nat)
                     batch).
  { eapply Forall_impl; [exact Hitems|]. cbn. intros [w l] [[idx Hget] Hfull].
    apply (getitem_sizes _ _ _ _ _ _ _ _ _ idx w l Hinit Hbins Hget Hfull). }
  unfold collate_fn. destruct batch as [|x rest] eqn:Hb; [congruence|]. rewrite <- Hb in *.
  rewrite (stack_same_size (map fst batch) (replicate (Z.to_nat duration_samples) n_bins)).
  - rewrite (stack_same_size (map snd batch) (replicate (Z.to_nat duration_samples) 21%nat)).
    + reflexivity.
    + rewrite Hb. discriminate.
    + apply Forall_fmap. eapply Forall_impl; [exact Hsizes|]. cbn. tauto.
  - rewrite Hb. discriminate.
  - apply Forall_fmap. eapply Forall_impl; [exact Hsizes|]. cbn. tauto.
Qed.

Lemma collate_fn_full_windows_witness :
  small_window_init = Some (Ok small_window_dataset)
  /\ collate_fn small_window_batch
     = Collated (map fst small_window_batch, map snd small_window_batch).
Proof.
  assert (H : small_window_init = Some (Ok small_window_dataset))
    by (vm_compute; reflexivity).
  split; [exact H|].
  apply (collate_fn_full_windows _ _ _ _ _ _ _ 1%nat small_window_dataset _ H).
  - constructor; [apply Forall_replicate; reflexivity | constructor].
  - discriminate.
  - constructor; [|constructor; [|constructor]].
    + split; [exists 0; vm_compute; reflexivity | vm_compute; reflexivity].
    + split; [exists 1; vm_compute; reflexivity | vm_compute; reflexivity].
Defined.

(** ** More on the converter *)

Lemma In_column (t : nat) (S : list (list Q)) (bin : list Q) (x : Q) :
  In bin S -> bin !! t = Some x -> In x (column t S).
Proof.
  induction S as [|r S IH]; intros Hin Hx; [destruct Hin|].
  cbn [column]. destruct Hin as [-> | Hin].
  - rewrite Hx. left. reflexivity.
  - destruct (r !! t); [right|]; apply (IH Hin Hx).
Qed.

Lemma peak_upper (v : list Q) (x : Q) : In x v -> (Qabs x <= peak v)%Q.
Proof.
  induction v as [|y v IH]; intros Hin; [destruct Hin|].
  change (peak (y :: v)) with (Qmax (Qabs y) (peak v)).
  destruct Hin as [-> | Hin].
  - apply Q.le_max_l.
  - eapply Qle_trans; [apply (IH Hin) | apply Q.le_max_r].
Qed.

(** X25: the matrix the converter writes has the shape of the CQT, and with a
    threshold 0 < tiny <= 1 every value in it lies between 0 and 1. *)
Theorem convert_range (tiny : Q) (cqt : list (list Q)) :
  (0 < tiny)%Q -> (tiny <= 1)%Q ->
  tensor_size (convert tiny cqt) = tensor_size cqt
  /\ forall b bin t x,
       convert tiny cqt !! b = Some bin -> bin !! t = Some x -> (0 <= x <= 1)%Q.
Proof.
  intros Htiny Hle. unfold convert, normalize_axis0, tensor_size. split.
  - rewrite !map_map. apply map_ext. intros r. rewrite length_imap, length_map. reflexivity.
  - intros b bin t x Hbin Hx. set (S := map (map Qabs) cqt) in *.
    rewrite list_lookup_fmap in Hbin.
    destruct (S !! b) as [r|] eqn:Hr; [|discriminate].
    inversion Hbin; subst bin; clear Hbin.
    rewrite list_lookup_imap in Hx.
    destruct (r !! t) as [y|] eqn:Hy; [|discriminate].
    assert (Hyin : In y (column t S)).
    { apply (In_column t S r y); [|exact Hy].
      apply list_elem_of_In, list_elem_of_lookup. eauto. }
    pose proof (peak_upper _ _ Hyin) as Hpeak.
    assert (Hy0 : (0 <= y)%Q).
    { unfold S in Hr. rewrite list_lookup_fmap in Hr.
      destruct (cqt !! b) as [r0|]; [|discriminate]. inversion Hr; subst r.
      rewrite list_lookup_fmap in Hy. destruct (r0 !! t) as [y0|]; [|discriminate].
      inversion Hy; subst y. apply Qabs_nonneg. }
    rewrite (Qabs_pos y Hy0) in Hpeak.
    cbn in Hx. destruct (Qlt_le_dec (peak (column t S)) tiny) as [Hsmall|Hbig];
      inversion Hx; subst x; clear Hx.
    + split; lra.
    + split.
      * apply Qle_shift_div_l; lra.
      * apply Qle_shift_div_r; lra.
Qed.

Lemma convert_range_witness :
  tensor_size (convert (1 # 1000) [[1; 1]; [2; 2]]%Q) = tensor_size [[1; 1]; [2; 2]]%Q.
Proof.
  apply (proj1 (convert_range (1 # 1000) [[1; 1]; [2; 2]]%Q eq_refl ltac:(discriminate))).
Defined.

(** ** The labels of positive and of negative windows *)

Lemma ground_truth_labelled (motif2idx : gmap string nat) (n_frames : nat)
    (instances : list instance) (gt : list (list Z)) :
  ground_truth motif2idx n_frames instances = Ok gt -> Forall has_label gt.
Proof.
  intros Hgt. apply ground_truth_unfold in Hgt as (gt1 & _ & -> & Hbin & _).
  apply List.Forall_forall. intros row Hrow. apply in_map_iff in Hrow as (r1 & <- & Hr1).
  eapply List.Forall_forall in Hbin; [|exact Hr1]. destruct Hbin as [Hlen Hvals].
  rewrite (set_none_eq r1 Hlen).
  destruct (row_max_binary (take 20 r1) (Forall_take _ 20 r1 Hvals)) as [[H0|H1] Hzero].
  - exists 20%nat. rewrite list_lookup_insert_eq by lia. rewrite H0. reflexivity.
  - assert (Hex : Exists (fun v => v <> 0) (take 20 r1)).
    { apply not_Forall_Exists; [intros v; apply _|].
      intros Hall. apply Hzero in Hall. lia. }
    apply Exists_exists in Hex as (v & Hv & Hne).
    apply list_elem_of_lookup in Hv as [j Hj].
    pose proof (lookup_lt_Some _ _ _ Hj) as Hlt. rewrite length_take in Hlt.
    rewrite lookup_take_lt in Hj by lia.
    exists j. rewrite list_lookup_insert_ne by lia.
    destruct (Forall_lookup_1 _ _ _ _ Hvals Hj) as [-> | ->]; [congruence | exact Hj].
Qed.

Lemma init_loop_labelled (motif2idx : gmap string nat)
    (annotations : gmap (string * string) (list instance))
    (rng : nat -> draw) (fuel : nat) (duration_samples : Z)
    (pkl_fns : list pkl_file) (st st' : LeitmotifDataset * nat) :
  init_loop motif2idx annotations rng fuel duration_samples st pkl_fns = Some (Ok st') ->
  all_labelled (fst st) -> all_labelled (fst st').
Proof.
  revert st. induction pkl_fns as [|[stem c] rest IH]; intros [ds k] H Hinv;
    cbn [init_loop] in H.
  - inversion H; subst. exact Hinv.
  - destruct (add_recording _ _ _ _ _ _ _) as [[st1|e]|] eqn:Hadd; try discriminate.
    apply add_recording_ok in Hadd as (v & a & insts & gt & ws & Hload & _ & ->).
    apply load_recording_ok in Hload as (_ & _ & _ & Hgt).
    apply (IH _ H). cbn [fst]. intros key g Hg. cbn [instances_gt] in Hg.
    destruct (decide (stem = key)) as [->|Hne].
    + rewrite lookup_insert_eq in Hg. inversion Hg; subst.
      apply (ground_truth_labelled _ _ _ _ Hgt).
    + rewrite lookup_insert_ne in Hg by exact Hne. apply (Hinv key g Hg).
Qed.

(** X26: in a dataset built by __init__, every frame of the label window of a
    positive sample carries a label (a motif or "none"), while the label
    window of a negative sample carries none at all, not even "none". *)
Theorem getitem_labels (motif2idx : gmap string nat)
    (annotations : gmap (string * string) (list instance))
    (rng : nat -> draw) (fuel : nat) (pkl_fns : list pkl_file)
    (duration_sec : Q) (duration_samples : Z)
    (ds : LeitmotifDataset) (idx : Z) (w : list (list Q)) (l : list (list Z)) :
  init motif2idx annotations rng fuel pkl_fns duration_sec duration_samples = Some (Ok ds) ->
  getitem ds idx = Ok (w, l) ->
  (idx < Z.of_nat (length (samples ds)) -> Forall has_label l)
  /\ (Z.of_nat (length (samples ds)) <= idx -> Forall (Forall (fun v => v = 0)) l).
Proof.
  intros Hinit Hget. apply init_ok in Hinit as [k Hloop].
  apply init_loop_labelled in Hloop;
    [|intros key g Hg; cbn in Hg; rewrite lookup_empty in Hg; discriminate].
  cbn [fst] in Hloop. split; intros Hidx.
  - destruct (py_index (samples ds) idx) as [x|e] eqn:Hx.
    2:{ unfold getitem in Hget. apply Z.ltb_lt in Hidx. rewrite Hidx, Hx in Hget.
        discriminate. }
    rewrite (getitem_positive ds idx x Hidx Hx) in Hget. unfold py_getitem in Hget.
    destruct (cqt ds !! _) as [c|]; [|discriminate].
    destruct (instances_gt ds !! _) as [g|] eqn:Hg; [|discriminate].
    cbn in Hget. inversion Hget; subst w l; clear Hget.
    apply Forall_py_slice, (Hloop _ _ Hg).
  - destruct (py_index (none_samples ds) (idx - Z.of_nat (length (samples ds))))
      as [x|e] eqn:Hx.
    2:{ unfold getitem in Hget. apply Z.ltb_ge in Hidx. rewrite Hidx, Hx in Hget.
        discriminate. }
    rewrite (getitem_negative ds idx x Hidx Hx) in Hget. unfold py_getitem, zeros in Hget.
    destruct (cqt ds !! _) as [c|]; [|discriminate].
    destruct ((none_end x - none_start x <? 0) || (21 <? 0)); [discriminate|].
    cbn in Hget. inversion Hget; subst w l; clear Hget.
    apply Forall_replicate. repeat constructor.
Qed.

Lemma getitem_labels_witness :
  small_window_init = Some (Ok small_window_dataset)
  /\ Forall has_label (snd (nth 0 small_window_batch ([], [])))
  /\ Forall (Forall (fun v => v = 0)) (snd (nth 1 small_window_batch ([], []))).
Proof.
  assert (H : small_window_init = Some (Ok small_window_dataset))
    by (vm_compute; reflexivity).
  split; [exact H|]. split.
  - apply (proj1 (getitem_labels _ _ _ _ _ _ _ small_window_dataset 0
                    (fst (nth 0 small_window_batch ([], [])))
                    (snd (nth 0 small_window_batch ([], []))) H
                    ltac:(vm_compute; reflexivity))).
    vm_compute. reflexivity.
  - apply (proj2 (getitem_labels _ _ _ _ _ _ _ small_window_dataset 1
                    (fst (nth 1 small_window_batch ([], [])))
                    (snd (nth 1 small_window_batch ([], []))) H
                    ltac:(vm_compute; reflexivity))).
    vm_compute. discriminate.
Defined.
